(** * Verification of the alignment utilities: [parse_paf.py], [asm_plot.py]
    and [find_scaffolds.py]

    A shallow embedding of the record parsers, the colour-lookup loader,
    the natural-sort key, the layout loop of [plot_data] and the scaffold
    finder, followed by the properties of the specification that were
    checked against them.

    Conventions of the embedding.
    - Text is [string] over ASCII characters; a byte above 127 is an ordinary
      character (not white space, not a digit, unchanged by [lower]). The
      white space [str.strip] removes and the white space [int] skips are
      two sets: the four separators FS, GS, RS and US belong to the first
      only.
    - A Python exception is the [Raise] branch of [result]; a function that
      may return [None] returns [result (option _)].
    - Python integers are [Z]; Python floats are IEEE 754 binary64 values of
      the Standard Library's [SpecFloat] (precision 53, maximal exponent 1024).
    - A text file is the list of its lines, each with its line terminator, as
      iterating over the file object yields them; a file read through
      [csv.reader] is the list of the rows the reader yields. *)

From Stdlib Require Import ZArith Ascii String List Bool Lia.
From Stdlib Require Import Sorted Permutation.
From Stdlib Require Import DecimalString DecimalPos DecimalZ.
From Stdlib Require Import Floats.SpecFloat.
From stdpp Require Import base option list strings gmap.

Local Open Scope Z_scope.
Local Open Scope string_scope.
Local Open Scope list_scope.

(** ** Python values and primitives *)

Module Py.

(** The exceptions the embedded code can raise. *)
Inductive exn : Type :=
| ValueError | IndexError | KeyError | TypeError | OverflowError | StopIteration.

Inductive result (A : Type) : Type :=
| Ok (a : A)
| Raise (e : exn).
Arguments Ok {A} a.
Arguments Raise {A} e.

Definition bind {A B : Type} (m : result A) (k : A -> result B) : result B :=
  match m with
  | Ok a => k a
  | Raise e => Raise e
  end.

Definition raises {A : Type} (m : result A) : bool :=
  match m with Ok _ => false | Raise _ => true end.

Definition TAB : ascii := "009"%char.
Definition LF : ascii := "010"%char.

(** [str.isspace] on one ASCII character: TAB, LF, VT, FF, CR, the four
    separators FS, GS, RS, US, and the space. *)
Definition isspace (c : ascii) : bool :=
  let n := nat_of_ascii c in
  ((9 <=? n)%nat && (n <=? 13)%nat) || ((28 <=? n)%nat && (n <=? 32)%nat).

Definition is_digit (c : ascii) : bool :=
  let n := nat_of_ascii c in (48 <=? n)%nat && (n <=? 57)%nat.

Definition digit_val (c : ascii) : Z := Z.of_nat (nat_of_ascii c) - 48.

Fixpoint lstrip (s : string) : string :=
  match s with
  | String c r => if isspace c then lstrip r else s
  | EmptyString => EmptyString
  end.

Fixpoint rstrip (s : string) : string :=
  match s with
  | EmptyString => EmptyString
  | String c r =>
      match rstrip r with
      | EmptyString => if isspace c then EmptyString else String c EmptyString
      | r' => String c r'
      end
  end.

(** [s.strip()] *)
Definition strip (s : string) : string := rstrip (lstrip s).

(** Cut [s] at every character satisfying [p]; the result is never empty.
    [s.split(sep)] for a one-character [sep], and [re.split] for a pattern
    that is an alternative of single characters. *)
Fixpoint split_on (p : ascii -> bool) (s : string) : list string :=
  match s with
  | EmptyString => [EmptyString]
  | String c r =>
      if p c then EmptyString :: split_on p r
      else match split_on p r with
           | f :: fs => String c f :: fs
           | [] => [String c EmptyString]
           end
  end.

Definition split (sep : ascii) (s : string) : list string :=
  split_on (Ascii.eqb sep) s.

(** [s.startswith(c)] for a one-character prefix. *)
Definition startswith (c : ascii) (s : string) : bool :=
  match s with
  | String d _ => Ascii.eqb d c
  | EmptyString => false
  end.

(** [line.strip().split("\t")], the first statement of every line parser. *)
Definition tab_fields (line : string) : list string := split TAB (strip line).

(** [o is None] *)
Definition is_none {A : Type} (o : option A) : bool :=
  match o with None => true | Some _ => false end.

(** [l[i]] for a non-negative literal index [i]. *)
Definition index {A : Type} (l : list A) (i : nat) : result A :=
  match nth_error l i with
  | Some a => Ok a
  | None => Raise IndexError
  end.

(** The digits of a numeral after its first digit: digits, with single
    underscores allowed between two digits. *)
Fixpoint int_digits (acc : Z) (after_underscore : bool) (s : string) : option Z :=
  match s with
  | EmptyString => if after_underscore then None else Some acc
  | String c r =>
      if is_digit c then int_digits (10 * acc + digit_val c) false r
      else if Ascii.eqb c "_" then
             if after_underscore then None else int_digits acc true r
           else None
  end.

Definition int_unsigned (s : string) : option Z :=
  match s with
  | String c r => if is_digit c then int_digits (digit_val c) false r else None
  | EmptyString => None
  end.

(** The white space [int] skips around a numeral of an ASCII text: TAB,
    LF, VT, FF, CR and the space. The separators FS, GS, RS and US, which
    [str.isspace] and [str.strip] count as white space, are not skipped: a
    numeral next to one of them is refused. *)
Definition isspace_c (c : ascii) : bool :=
  let n := nat_of_ascii c in
  ((9 <=? n)%nat && (n <=? 13)%nat) || (n =? 32)%nat.

Fixpoint lskip (s : string) : string :=
  match s with
  | String c r => if isspace_c c then lskip r else s
  | EmptyString => EmptyString
  end.

Fixpoint rskip (s : string) : string :=
  match s with
  | EmptyString => EmptyString
  | String c r =>
      match rskip r with
      | EmptyString => if isspace_c c then EmptyString else String c EmptyString
      | r' => String c r'
      end
  end.

(** The value [int(s)] accepts, if any: surrounding white space, an
    optional sign, then a decimal numeral. The interpreter's limit on the
    number of digits of a numeral is not part of the function: it is the
    condition [within_int_limit] below. *)
Definition int_value (s : string) : option Z :=
  match rskip (lskip s) with
  | String "-" r => Z.opp <$> int_unsigned r
  | String "+" r => int_unsigned r
  | t => int_unsigned t
  end.

(** The number of digits of a text, and the largest number of digits of a
    numeral that [int] reads under the interpreter's default setting (since
    Python 3.11; no limit before). A text within the limit is read by [int]
    as [int_value] says under either regime. *)
Definition digit_count (s : string) : nat :=
  length (List.filter is_digit (list_ascii_of_string s)).

Definition max_str_digits : nat := 4300.

Definition within_int_limit (s : string) : bool :=
  (digit_count s <=? max_str_digits)%nat.

(** One of the separators FS, GS, RS and US: white space for [str.strip],
    not for [int]. *)
Definition is_separator (c : ascii) : bool :=
  let n := nat_of_ascii c in (28 <=? n)%nat && (n <=? 31)%nat.

(** The text is ASCII, as the texts of the embedding are taken to be: on
    the characters above 127 the string methods of the interpreter follow
    Unicode and not the definitions above. *)
Definition is_ascii (s : string) : bool :=
  forallb (fun c => (nat_of_ascii c <? 128)%nat) (list_ascii_of_string s).

(** [int(s)] *)
Definition int (s : string) : result Z :=
  match int_value s with
  | Some z => Ok z
  | None => Raise ValueError
  end.

End Py.

Notation "'do' x <- m ; k" := (Py.bind m (fun x => k))
  (at level 10, x name, m at level 100, k at level 200).

(** ** [parse_paf.py] *)

Module ParsePaf.
Import Py.

(** The dictionary [parsed_line]: seven positional fields kept as text and
    the two tag values, [None] until a tag sets them. *)
Record PafRecord : Type := mkPaf {
  query_name : string;
  query_start : string;
  query_end : string;
  target_name : string;
  ref_pos_start : string;
  ref_pos_end : string;
  ref_seq_len : string;
  tp : option string;
  de : option string
}.

(** One turn of the loop over [fields[12:]]: unpack [field.split(':')]
    into exactly three parts and record the value of a [tp] or [de] tag. *)
Definition scan_tag (acc : option string * option string) (field : string)
  : result (option string * option string) :=
  match split ":" field with
  | [tag; _; value] =>
      if String.eqb tag "tp" then Ok (Some value, snd acc)
      else if String.eqb tag "de" then Ok (fst acc, Some value)
      else Ok acc
  | _ => Raise ValueError
  end.

Fixpoint scan_tags (acc : option string * option string) (fs : list string)
  : result (option string * option string) :=
  match fs with
  | [] => Ok acc
  | f :: fs' => do acc' <- scan_tag acc f; scan_tags acc' fs'
  end.

(** [parsed_line['tp'] not in ['P', 'I']] *)
Definition tp_not_primary (t : option string) : bool :=
  match t with
  | Some v => negb (String.eqb v "P" || String.eqb v "I")
  | None => true
  end.

Definition parse_paf_line (line : string) (min_length : Z)
  : result (option PafRecord) :=
  let fields := tab_fields line in
  do short <- (if (length fields <? 12)%nat then Ok true
               else do n <- index fields 9; do v <- int n; Ok (v <? min_length)%Z);
  if (short : bool) then Ok None
  else
    do f0 <- index fields 0;
    do f2 <- index fields 2;
    do f3 <- index fields 3;
    do f5 <- index fields 5;
    do f7 <- index fields 7;
    do f8 <- index fields 8;
    do f6 <- index fields 6;
    do tags <- scan_tags (None, None) (skipn 12 fields);
    if tp_not_primary (fst tags) || is_none (snd tags)
    then Ok None
    else Ok (Some (mkPaf f0 f2 f3 f5 f7 f8 f6 (fst tags) (snd tags))).

(** [read_paf]: the lines of the file in order; a parsed record is always
    a non-empty dictionary, so [if parsed_line] only drops [None]. *)
Fixpoint read_paf (lines : list string) (min_length : Z)
  : result (list PafRecord) :=
  match lines with
  | [] => Ok []
  | line :: rest =>
      do parsed_line <- parse_paf_line line min_length;
      do alignments <- read_paf rest min_length;
      Ok (match parsed_line with
          | Some r => r :: alignments
          | None => alignments
          end)
  end.

End ParsePaf.

(** ** [asm_plot.py] *)

Module AsmPlot.
Import Py.

(** *** Floating-point values *)

Definition float : Type := spec_float.
Definition prec : Z := 53.
Definition emax : Z := 1024.

Definition fadd : float -> float -> float := SFadd prec emax.
Definition fsub : float -> float -> float := SFsub prec emax.
Definition fmul : float -> float -> float := SFmul prec emax.
Definition fdiv : float -> float -> float := SFdiv prec emax.

(** Conversion of an integer operand of a mixed [int]/[float] operation:
    rounded to nearest even, [OverflowError] beyond the largest float. *)
Definition float_of_int (z : Z) : result float :=
  match binary_normalize prec emax z 0 false with
  | S754_infinity _ => Raise OverflowError
  | f => Ok f
  end.

(** The float literals of the module: [0.10], [0.05], [0.15], and the
    [255.0] and [0.6] used in expressions. *)
Definition ref_height : float := S754_finite false 7205759403792794 (-56).
Definition asm_height : float := S754_finite false 7205759403792794 (-57).
Definition asm_spacing : float := S754_finite false 5404319552844595 (-55).
Definition f255 : float := S754_finite false 8972014882652160 (-45).
Definition alpha_ref : float := S754_finite false 5404319552844595 (-53).

(** *** Natural sort key *)

(** [re.split('([0-9]+)', s)]: the text between the maximal digit runs and
    the runs themselves, alternating, starting and ending with text. *)
Fixpoint re_split_digits (s : string) : list string :=
  match s with
  | EmptyString => [EmptyString]
  | String c r =>
      match re_split_digits r with
      | t :: rest =>
          if is_digit c then
            match r, rest with
            | String d _, run :: rest' =>
                if is_digit d then EmptyString :: String c run :: rest'
                else EmptyString :: String c EmptyString :: t :: rest
            | _, _ => EmptyString :: String c EmptyString :: t :: rest
            end
          else String c t :: rest
      | [] => [String c EmptyString]
      end
  end.

(** [text.isdigit()] *)
Definition isdigit (text : string) : bool :=
  match text with
  | EmptyString => false
  | _ => forallb is_digit (list_ascii_of_string text)
  end.

Definition lower_char (c : ascii) : ascii :=
  let n := nat_of_ascii c in
  if (65 <=? n)%nat && (n <=? 90)%nat then ascii_of_nat (n + 32) else c.

(** [text.lower()] *)
Fixpoint lower (text : string) : string :=
  match text with
  | EmptyString => EmptyString
  | String c r => String (lower_char c) (lower r)
  end.

(** An element of a sort key: an [int] or a [str]. *)
Inductive key_part : Type :=
| KInt (n : Z)
| KStr (s : string).

Fixpoint key_parts (texts : list string) : result (list key_part) :=
  match texts with
  | [] => Ok []
  | text :: rest =>
      do p <- (if isdigit text then (do n <- int text; Ok (KInt n))
               else Ok (KStr (lower text)));
      do ps <- key_parts rest;
      Ok (p :: ps)
  end.

Definition natural_sort_key (s : string) : result (list key_part) :=
  key_parts (re_split_digits s).

(** [x == y] on key elements; an [int] never equals a [str]. *)
Definition part_eqb (x y : key_part) : bool :=
  match x, y with
  | KInt m, KInt n => (m =? n)%Z
  | KStr s, KStr t => String.eqb s t
  | _, _ => false
  end.

(** [x < y] on key elements; mixed operands raise [TypeError]. *)
Definition part_lt (x y : key_part) : result bool :=
  match x, y with
  | KInt m, KInt n => Ok (m <? n)%Z
  | KStr s, KStr t => Ok (String.ltb s t)
  | _, _ => Raise TypeError
  end.

(** [a < b] on lists: the first differing pair decides, otherwise the
    shorter list is smaller. *)
Fixpoint key_lt (a b : list key_part) : result bool :=
  match a, b with
  | [], [] => Ok false
  | [], _ :: _ => Ok true
  | _ :: _, [] => Ok false
  | x :: a', y :: b' => if part_eqb x y then key_lt a' b' else part_lt x y
  end.

(** *** Sorting *)

Section Sorted.
Context {K A : Type} (lt : K -> K -> result bool).

(** Insert after every element that is not greater: a stable insertion. *)
Fixpoint insert_sorted (x : K * A) (l : list (K * A)) : result (list (K * A)) :=
  match l with
  | [] => Ok [x]
  | y :: l' =>
      do b <- lt (fst x) (fst y);
      if (b : bool) then Ok (x :: y :: l')
      else do r <- insert_sorted x l'; Ok (y :: r)
  end.

Fixpoint sort_into (acc : list (K * A)) (l : list (K * A)) : result (list (K * A)) :=
  match l with
  | [] => Ok acc
  | x :: l' => do acc' <- insert_sorted x acc; sort_into acc' l'
  end.

Fixpoint decorate (key : A -> result K) (l : list A) : result (list (K * A)) :=
  match l with
  | [] => Ok []
  | x :: l' => do k <- key x; do r <- decorate key l'; Ok ((k, x) :: r)
  end.

(** [sorted(l, key=key, reverse=reverse)]: every key is computed first;
    the sort is stable and compares keys with [<] only; a reversed sort
    reverses the list before and after, which keeps it stable. The sort is
    written as a stable insertion sort; where the comparisons succeed and
    order the keys totally, the sorted list is unique, whatever the sorting
    algorithm (lemma [sorted_unique] below). *)
Definition sorted (l : list A) (key : A -> result K) (reverse : bool)
  : result (list A) :=
  do kl <- decorate key l;
  do s <- sort_into [] (if reverse then rev kl else kl);
  Ok (map snd (if reverse then rev s else s)).
End Sorted.

(** *** Records *)

(** The dictionary returned by [parse_tab_line]. *)
Record AlignmentRecord : Type := mkAln {
  chrom : string;
  start : Z;
  end_ : Z;
  query : string
}.

(** A colour handed to the renderer: a colour name or a tuple of floats. *)
Inductive color : Type :=
| Named (name : string)
| Tuple (channels : list float).

(** The dictionary returned by [parse_bed_line]. *)
Record RegionRecord : Type := mkRegion {
  rchrom : string;
  rstart : Z;
  rend : Z;
  rtype : string;
  rcolor : color
}.

(** The arguments of one [patches.Rectangle((x, y), width, height, ...)]. *)
Record Rectangle : Type := mkRect {
  rect_x : Z;
  rect_y : float;
  rect_width : Z;
  rect_height : float;
  rect_color : color;
  rect_alpha : option float
}.

(** *** Tab-alignment files *)

Definition parse_tab_line (line : string) : result AlignmentRecord :=
  let fields := tab_fields line in
  do target_name <- index fields 3;
  do f4 <- index fields 4;
  do ref_pos_start <- int f4;
  do f5 <- index fields 5;
  do ref_pos_end <- int f5;
  do query_name <- index fields 0;
  Ok (mkAln target_name ref_pos_start ref_pos_end query_name).

(** [line.strip() and not line.startswith('#')] *)
Definition is_data_line (line : string) : bool :=
  negb (String.eqb (strip line) "") && negb (startswith "#" line).

Fixpoint read_tab_lines (lines : list string) : result (list AlignmentRecord) :=
  match lines with
  | [] => Ok []
  | line :: rest =>
      if is_data_line line then
        do parsed_line <- parse_tab_line line;
        do data <- read_tab_lines rest;
        Ok (parsed_line :: data)
      else read_tab_lines rest
  end.

(** [next(f)] raises [StopIteration] on a file without a first line. *)
Definition read_tab_file (file : list string) : result (list AlignmentRecord) :=
  match file with
  | [] => Raise StopIteration
  | _header :: lines => read_tab_lines lines
  end.

(** *** Colour lookup *)

(** The dictionary comprehension over the rows of the reader: a row passes
    the guard [len(rows) >= value_column], then its key and its value are
    indexed, and the entry replaces an earlier one with the same key. *)
Fixpoint tsv_rows (key_column value_column : nat) (acc : gmap string string)
    (rows : list (list string)) : result (gmap string string) :=
  match rows with
  | [] => Ok acc
  | row :: rest =>
      if (value_column <=? length row)%nat then
        do k <- index row key_column;
        do v <- index row value_column;
        tsv_rows key_column value_column (<[k := v]> acc) rest
      else tsv_rows key_column value_column acc rest
  end.

Definition read_tsv_to_dict_cols (rows : list (list string)) (key_column value_column : nat)
  : result (gmap string string) :=
  tsv_rows key_column value_column ∅ rows.

(** [read_tsv_to_dict(filename)] with the default columns 0 and 1. *)
Definition read_tsv_to_dict (rows : list (list string)) : result (gmap string string) :=
  read_tsv_to_dict_cols rows 0 1.

(** *** BED files *)

(** [tuple(int(c) / 255.0 for c in color_values)] *)
Fixpoint channels (color_values : list string) : result (list float) :=
  match color_values with
  | [] => Ok []
  | c :: rest =>
      do n <- int c;
      do x <- float_of_int n;
      do xs <- channels rest;
      Ok (fdiv x f255 :: xs)
  end.

Definition parse_bed_line (line : string) : result (option RegionRecord) :=
  let fields := tab_fields line in
  do chrom <- index fields 0;
  do f1 <- index fields 1;
  do start <- int f1;
  do f2 <- index fields 2;
  do end_ <- int f2;
  do name <- index fields 3;
  let size := (end_ - start)%Z in
  if (size <? 100000)%Z then Ok None
  else
    do type <- index (split_on (fun c => Ascii.eqb c "_" || Ascii.eqb c "(") name) 0;
    do f8 <- index fields 8;
    let color_values := split "," f8 in
    do color <- (if (length color_values =? 3)%nat then
                   do cs <- channels color_values;
                   Ok (Tuple cs)
                 else Ok (Named "grey"));
    Ok (Some (mkRegion chrom start end_ type color)).

Fixpoint read_bed_lines (lines : list string) : result (list RegionRecord) :=
  match lines with
  | [] => Ok []
  | line :: rest =>
      if is_data_line line then
        do parsed_line <- parse_bed_line line;
        do regions <- read_bed_lines rest;
        Ok (match parsed_line with
            | Some r => r :: regions
            | None => regions
            end)
      else read_bed_lines rest
  end.

Definition read_bed_file (file : list string) : result (list RegionRecord) :=
  match file with
  | [] => Raise StopIteration
  | _header :: lines => read_bed_lines lines
  end.

(** *** The reference catalogue *)

(** The dictionary literal, in insertion order. *)
Definition REFERENCE_CHROMOSOMES : list (string * Z) :=
  [ ("chr1", 248387328); ("chr2", 242696752); ("chr3", 201105948); ("chr4", 193574945);
    ("chr5", 182045439); ("chr6", 172126628); ("chr7", 160567428); ("chr8", 146259331);
    ("chr9", 150617247); ("chr10", 134758134); ("chr11", 135127769); ("chr12", 133324548);
    ("chr13", 113566686); ("chr14", 101161492); ("chr15", 99753195); ("chr16", 96330374);
    ("chr17", 84276897); ("chr18", 80542538); ("chr19", 61707364); ("chr20", 66210255);
    ("chr21", 45090682); ("chr22", 51324926); ("chrX", 154259566); ("chrY", 62460029);
    ("chrM", 16569) ]%Z.

(** [d.keys()], [k in d] and [d[k]] on a dictionary kept as the list of its
    items (keys distinct). *)
Definition keys {V : Type} (d : list (string * V)) : list string := map fst d.

Definition contains {V : Type} (d : list (string * V)) (k : string) : bool :=
  existsb (fun kv => String.eqb (fst kv) k) d.

Definition getitem {V : Type} (d : list (string * V)) (k : string) : result V :=
  match find (fun kv => String.eqb (fst kv) k) d with
  | Some kv => Ok (snd kv)
  | None => Raise KeyError
  end.

(** [enumerate(l, start=i)] *)
Fixpoint enumerate {A : Type} (l : list A) (i : Z) : list (Z * A) :=
  match l with
  | [] => []
  | x :: l' => (i, x) :: enumerate l' (i + 1)
  end.

(** *** [plot_data] *)

(** [{chrom: i for i, chrom in enumerate(chroms, start=1)}] *)
Definition slots_of (chroms : list string) : list (string * Z) :=
  map (fun ic => (snd ic, fst ic)) (enumerate chroms 1).

(** The first loop: one black rectangle per chromosome with a slot. *)
Fixpoint reference_tracks (items : list (string * Z)) : result (list Rectangle) :=
  match items with
  | [] => Ok []
  | (chrom, y_pos) :: rest =>
      do here <- (if contains REFERENCE_CHROMOSOMES chrom then
                    do chrom_length <- getitem REFERENCE_CHROMOSOMES chrom;
                    do y <- float_of_int y_pos;
                    do two <- float_of_int 2;
                    Ok [mkRect 0 (fsub y (fdiv ref_height two)) chrom_length ref_height
                               (Named "black") (Some alpha_ref)]
                  else Ok []);
      do more <- reference_tracks rest;
      Ok (here ++ more)
  end.

(** The second loop: the regions of the BED file, in input order. *)
Fixpoint place_regions (chrom_y_positions : list (string * Z))
    (regions : list RegionRecord) : result (list Rectangle) :=
  match regions with
  | [] => Ok []
  | r :: rest =>
      do here <- (if contains REFERENCE_CHROMOSOMES (rchrom r) then
                    let x_position := rstart r in
                    let width := (rend r - rstart r)%Z in
                    do y_position <- getitem chrom_y_positions (rchrom r);
                    do y <- float_of_int y_position;
                    do two <- float_of_int 2;
                    Ok [mkRect x_position (fsub y (fdiv ref_height two)) width ref_height
                               (rcolor r) None]
                  else Ok []);
      do more <- place_regions chrom_y_positions rest;
      Ok (here ++ more)
  end.

(** The inner loop over the records of one alignment file. *)
Fixpoint place_alignments (chrom_y_positions : list (string * Z))
    (color_lookup : gmap string string) (vertical_offset : float)
    (data : list AlignmentRecord) : result (list Rectangle) :=
  match data with
  | [] => Ok []
  | d :: rest =>
      do here <- (if contains REFERENCE_CHROMOSOMES (chrom d) then
                    let query_name := query d in
                    do color_val <- (match color_lookup !! query_name with
                                     | Some c => Ok c
                                     | None => Raise KeyError
                                     end);
                    let x_position := start d in
                    let width := (end_ d - start d)%Z in
                    do slot <- getitem chrom_y_positions (chrom d);
                    do y <- float_of_int slot;
                    let y_position := fadd y vertical_offset in
                    Ok [mkRect x_position y_position width asm_height
                               (Named color_val) None]
                  else Ok []);
      do more <- place_alignments chrom_y_positions color_lookup vertical_offset rest;
      Ok (here ++ more)
  end.

(** The outer loop [for i in range(len(alignment_files))], over the
    remaining indices, with the running [vertical_offset]. *)
Fixpoint place_sources (chrom_y_positions : list (string * Z))
    (alignment_files : list (list string)) (color_files : list (list (list string)))
    (indices : list nat) (vertical_offset : float) : result (list Rectangle) :=
  match indices with
  | [] => Ok []
  | i :: rest =>
      do file <- index alignment_files i;
      do data <- read_tab_file file;
      do rows <- index color_files i;
      do color_lookup <- read_tsv_to_dict rows;
      do here <- place_alignments chrom_y_positions color_lookup vertical_offset data;
      do more <- place_sources chrom_y_positions alignment_files color_files rest
                   (fadd vertical_offset asm_spacing);
      Ok (here ++ more)
  end.

(** The rectangles [plot_data] hands to [ax.add_patch], in call order; an
    exception leaves no plot. *)
Definition plot_data (alignment_files : list (list string))
    (color_files : list (list (list string))) (regions : list RegionRecord)
  : result (list Rectangle) :=
  do chroms <- sorted key_lt (keys REFERENCE_CHROMOSOMES) natural_sort_key true;
  let chrom_y_positions := slots_of chroms in
  do tracks <- reference_tracks chrom_y_positions;
  do overlays <- place_regions chrom_y_positions regions;
  let vertical_offset := asm_spacing in
  do alignments <- place_sources chrom_y_positions alignment_files color_files
                     (seq 0 (length alignment_files)) vertical_offset;
  Ok (tracks ++ overlays ++ alignments).

(** [main]: the BED file is optional. *)
Definition main (input_files : list (list string)) (color_files : list (list (list string)))
    (bed_file : option (list string)) : result (list Rectangle) :=
  do regions <- (match bed_file with
                 | Some f => read_bed_file f
                 | None => Ok []
                 end);
  plot_data input_files color_files regions.

End AsmPlot.

(** ** Notions of the specification

    Definitions that follow the words of the specification, to be compared
    with the code above. *)

Module Spec.
Import Py ParsePaf AsmPlot.

(** A tag field is well formed when it has the shape [tag:type:value]:
    exactly three colon-separated parts. *)
Definition well_formed_tag (field : string) : Prop :=
  length (split ":" field) = 3%nat.

(** The value of [field] if it is a well-formed tag called [name]. *)
Definition tag_named (name field : string) : option string :=
  match split ":" field with
  | [tag; _; value] => if String.eqb tag name then Some value else None
  | _ => None
  end.

(** The value of the last tag called [name] among the tag fields. *)
Fixpoint last_tag (name : string) (tags : list string) : option string :=
  match tags with
  | [] => None
  | field :: rest =>
      match last_tag name rest with
      | Some v => Some v
      | None => tag_named name field
      end
  end.

(** The field contains no tab. *)
Definition tab_free (field : string) : bool :=
  forallb (fun c => negb (Ascii.eqb TAB c)) (list_ascii_of_string field).

(** A line written from its fields: ["\t".join(fields)]. *)
Definition tabbed (fields : list string) : string :=
  String.concat (String TAB EmptyString) fields.

(** The second column of the last row whose first column is [key], among
    the rows that have two columns. *)
Fixpoint last_row_value (key : string) (rows : list (list string)) : option string :=
  match rows with
  | [] => None
  | row :: rest =>
      match last_row_value key rest with
      | Some v => Some v
      | None =>
          match row with
          | k :: v :: _ => if String.eqb k key then Some v else None
          | _ => None
          end
      end
  end.

(** Two characters are the same letter: equal, or a capital letter [A-Z]
    and its small letter, 32 code points above. *)
Definition same_letter (c d : ascii) : bool :=
  let m := nat_of_ascii c in
  let n := nat_of_ascii d in
  Ascii.eqb c d
  || ((65 <=? m)%nat && (m <=? 90)%nat && (n =? m + 32)%nat)
  || ((65 <=? n)%nat && (n <=? 90)%nat && (m =? n + 32)%nat).

(** Two names differ at most in the case of their letters. *)
Fixpoint case_variant (a b : string) : bool :=
  match a, b with
  | EmptyString, EmptyString => true
  | String c a', String d b' => same_letter c d && case_variant a' b'
  | _, _ => false
  end.

(** The tag value marks a primary alignment: ['P'] or ['I']. *)
Definition primary (v : option string) : Prop := v = Some "P" \/ v = Some "I".

(** The natural order on names: compare the sort keys. *)
Definition natural_lt (a b : string) : result bool :=
  do ka <- natural_sort_key a;
  do kb <- natural_sort_key b;
  key_lt ka kb.

(** [x] is not above [y] in the order a sort uses: [y < x] is false. *)
Definition not_above {K A : Type} (lt : K -> K -> result bool) (x y : K * A) : Prop :=
  lt (fst y) (fst x) = Ok false.

(** The key of a name, for names that have one. *)
Definition key_of (s : string) : list key_part :=
  match natural_sort_key s with
  | Ok k => k
  | Raise _ => []
  end.

(** The text has no digit. *)
Definition digit_free (p : string) : bool :=
  forallb (fun c => negb (is_digit c)) (list_ascii_of_string p).

(** The expected natural order of the catalogue, smallest first. *)
Definition expected_order : list string :=
  [ "chr1"; "chr2"; "chr3"; "chr4"; "chr5"; "chr6"; "chr7"; "chr8"; "chr9"; "chr10";
    "chr11"; "chr12"; "chr13"; "chr14"; "chr15"; "chr16"; "chr17"; "chr18"; "chr19";
    "chr20"; "chr21"; "chr22"; "chrM"; "chrX"; "chrY" ].

(** The chromosome names of the catalogue, and the slot table [plot_data]
    computes from them. *)
Definition catalog : list string := keys REFERENCE_CHROMOSOMES.

Definition chrom_slots : result (list (string * Z)) :=
  do chroms <- sorted key_lt catalog natural_sort_key true;
  Ok (slots_of chroms).

(** The slots in reverse natural order, counted from 1. *)
Definition slot_table : list (string * Z) := slots_of (rev expected_order).

(** The catalogue names with their keys, as the sort sees them. *)
Definition decorated_catalog : list (list key_part * string) :=
  map (fun x => (key_of x, x)) catalog.

Definition not_above_b (x y : list key_part * string) : bool :=
  match key_lt (fst y) (fst x) with
  | Ok false => true
  | _ => false
  end.

Definition natural_ltb (a b : string) : bool :=
  match natural_lt a b with
  | Ok true => true
  | _ => false
  end.

(** Exhaustive checks over a finite list [L]: a comparison that is
    defined, connected, antisymmetric up to [same], and transitive ... *)
Definition order_check {T : Type} (L : list T) (defined leb same : T -> T -> bool) : bool :=
  forallb (fun x =>
    forallb (fun y =>
      defined x y
      && (leb x y || leb y x)
      && implb (leb x y && leb y x) (same x y)
      && (if leb x y then forallb (fun z => if leb y z then leb x z else true) L
          else true))
      L)
    L.

(** ... and a strict total order. *)
Definition total_check {T : Type} (L : list T) (defined same ltb : T -> T -> bool) : bool :=
  forallb (fun a =>
    forallb (fun b =>
      defined a b
      && (same a b || ltb a b || ltb b a)
      && implb (ltb a b) (negb (ltb b a))
      && (if ltb a b then forallb (fun c => if ltb b c then ltb a c else true) L
          else true))
      L)
    L.

(** [f] holds between any two elements of [L]. *)
Definition pairwise {T : Type} (L : list T) (f : T -> T -> bool) : bool :=
  forallb (fun a => forallb (f a) L) L.

Definition key_defined (x y : list key_part * string) : bool :=
  negb (raises (key_lt (fst x) (fst y))).

Definition same_name (x y : list key_part * string) : bool :=
  String.eqb (snd x) (snd y).

Definition natural_defined (a b : string) : bool :=
  negb (raises (natural_lt a b)).

(** No catalogue name is above chrY. *)
Definition below_chrY (c : string) : bool :=
  String.eqb c "chrY" || natural_ltb c "chrY".

(** A smaller name has the larger slot. *)
Definition slot_rel (a b : string * Z) : bool :=
  Bool.eqb (natural_ltb (fst a) (fst b)) (snd b <? snd a)%Z.

(** The floats [1.0], [0.0] and [2.0]. *)
Definition f_one : float := S754_finite false 4503599627370496 (-52).
Definition f_zero : float := S754_zero false.
Definition f_two : float := S754_finite false 4503599627370496 (-51).

(** The float nearest to the quotient of two integers. *)
Definition ratio (a b : Z) : float :=
  fdiv (binary_normalize prec emax a 0 false) (binary_normalize prec emax b 0 false).

(** The name is a key of the reference catalogue. *)
Definition in_catalog (c : string) : bool := contains REFERENCE_CHROMOSOMES c.

(** The slot of a catalogue name, as an integer and as the float it is
    converted to in a position. *)
Definition slot_of (c : string) : Z :=
  match getitem slot_table c with
  | Ok s => s
  | Raise _ => 0%Z
  end.

Definition slot_y (c : string) : float :=
  match float_of_int (slot_of c) with
  | Ok f => f
  | Raise _ => f_zero
  end.

Definition slot_defined (c : string) : bool :=
  match getitem slot_table c with
  | Ok s => negb (raises (float_of_int s))
  | Raise _ => false
  end.

(** The reference tracks: what the first loop of [plot_data] emits. *)
Definition reference_rects : list Rectangle :=
  match reference_tracks slot_table with
  | Ok t => t
  | Raise _ => []
  end.

(** The rectangle of a region of the catalogue: on the slot of its
    chromosome, centred like the reference track. *)
Definition region_rect (r : RegionRecord) : Rectangle :=
  mkRect (rstart r) (fsub (slot_y (rchrom r)) (fdiv ref_height f_two))
         (rend r - rstart r) ref_height (rcolor r) None.

(** The rectangle of an alignment of the catalogue drawn with colour [c]
    at the vertical offset [off] above the slot of its chromosome. *)
Definition alignment_rect (c : string) (off : float) (d : AlignmentRecord) : Rectangle :=
  mkRect (start d) (fadd (slot_y (chrom d)) off) (end_ d - start d) asm_height
         (Named c) None.

(** Run the computations in order and concatenate what they emit. *)
Fixpoint collect (ms : list (result (list Rectangle))) : result (list Rectangle) :=
  match ms with
  | [] => Ok []
  | m :: rest => do here <- m; do more <- collect rest; Ok (here ++ more)
  end.

(** The value of [vertical_offset] when the loop reaches source [i]. *)
Fixpoint offset_at (i : nat) : float :=
  match i with
  | O => asm_spacing
  | S j => fadd (offset_at j) asm_spacing
  end.

(** [(i + 1) * asm_spacing], the offset as the specification words it. *)
Definition offset_product (i : nat) : float :=
  match float_of_int (Z.of_nat i + 1) with
  | Ok k => fmul k asm_spacing
  | Raise _ => f_zero
  end.

(** What source [i] contributes: its file is read, its colour file is
    read, and its records are placed at the offset [offset_at i]. *)
Definition source_rects (files : list (list string)) (color_files : list (list (list string)))
    (i : nat) : result (list Rectangle) :=
  do file <- index files i;
  do data <- read_tab_file file;
  do rows <- index color_files i;
  do color_lookup <- read_tsv_to_dict rows;
  place_alignments slot_table color_lookup (offset_at i) data.

#[global] Instance float_eq_dec : EqDecision float.
Proof. unfold float. solve_decision. Defined.

(** The offsets of the first [n] sources are the products ... *)
Definition offsets_equal (n : nat) : bool :=
  forallb (fun i => bool_decide (offset_at i = offset_product i)) (seq 0 n).

(** ... and the offsets of the first [n] sources place a rectangle of any
    slot where the products would. *)
Definition positions_agree (n : nat) : bool :=
  forallb (fun i =>
    forallb (fun c =>
      bool_decide (fadd (slot_y c) (offset_at i) = fadd (slot_y c) (offset_product i)))
      catalog)
    (seq 0 n).

(** On every slot the first two sources are at different heights. *)
Definition first_two_apart (c : string) : bool :=
  negb (bool_decide (fadd (slot_y c) asm_spacing
                     = fadd (slot_y c) (fmul f_two asm_spacing))).

End Spec.

(** ** Text of an integer *)

Module PyText.
Import Py.

(** [str(n)] for an integer, also what an f-string writes for [{n}]: the
    decimal digits without leading zeros, after [-] when negative. *)
Definition str_int (n : Z) : string := NilZero.string_of_int (Z.to_int n).

(** [sep.join(parts)] *)
Definition join (sep : string) (parts : list string) : string := String.concat sep parts.

Definition tab : string := String TAB EmptyString.
Definition newline : string := String LF EmptyString.

End PyText.

(** ** [parse_paf.py], the output side *)

Module PafOutput.
Import Py ParsePaf PyText.

(** [str(value)] for a value of the dictionary: a string as it is, [None]
    as the text [None]. *)
Definition str_value (v : option string) : string :=
  match v with
  | Some s => s
  | None => "None"
  end.

(** [alignment.keys()] and [alignment.values()], in the insertion order of
    the dictionary literal. *)
Definition paf_keys : list string :=
  ["query_name"; "query_start"; "query_end"; "target_name"; "ref_pos_start";
   "ref_pos_end"; "ref_seq_len"; "tp"; "de"].

Definition paf_values (a : PafRecord) : list string :=
  [query_name a; query_start a; query_end a; target_name a; ref_pos_start a;
   ref_pos_end a; ref_seq_len a; str_value (tp a); str_value (de a)].

(** The strings [print_lines_to_file] writes, in order: nothing for an empty
    list, otherwise the header and one line per alignment. *)
Definition print_lines_to_file (alignments : list PafRecord) : list string :=
  match alignments with
  | [] => []
  | _ :: _ =>
      String.append (join tab paf_keys) newline
      :: map (fun alignment => String.append (join tab (paf_values alignment)) newline)
             alignments
  end.

(** [main]: read, then write. *)
Definition main (paf_file : list string) (min_length : Z) : result (list string) :=
  do alignments <- read_paf paf_file min_length;
  Ok (print_lines_to_file alignments).

End PafOutput.

(** ** [find_scaffolds.py] *)

Module FindScaffolds.
Import Py PyText.

(** A character the pattern [N+] matches under [re.IGNORECASE]. *)
Definition is_N (c : ascii) : bool := Ascii.eqb c "N" || Ascii.eqb c "n".

(** [pattern.finditer(sequence_str)]: the maximal runs of matching
    characters from left to right, each as [(match.start(), match.end())].
    [pos] is the index of the next character and [run] the start of the run
    being read, if one is open. *)
Fixpoint finditer_N (s : list ascii) (pos : nat) (run : option nat) : list (nat * nat) :=
  match s with
  | [] =>
      match run with
      | Some st => [(st, pos)]
      | None => []
      end
  | c :: r =>
      if is_N c then
        finditer_N r (S pos) (Some (match run with Some st => st | None => pos end))
      else
        match run with
        | Some st => (st, pos) :: finditer_N r (S pos) None
        | None => finditer_N r (S pos) None
        end
  end.

Definition find_scaffolds (sequence chrom_name : string) : list (string * Z * Z) :=
  map (fun m => (chrom_name, Z.of_nat (fst m), Z.of_nat (snd m)))
      (finditer_N (list_ascii_of_string sequence) 0 None).

(** [read_fasta_file] over the records the FASTA parser yields, each as its
    [id] and the text of its sequence. *)
Fixpoint read_fasta_file (records : list (string * string)) : list (string * Z * Z) :=
  match records with
  | [] => []
  | record :: rest =>
      let chrom_name := fst record in
      let sequence := snd record in
      find_scaffolds sequence chrom_name ++ read_fasta_file rest
  end.

(** The line written for one scaffold. *)
Definition bed_line (scaffold : string * Z * Z) : string :=
  let '(chrom, start, end_) := scaffold in
  String.append chrom
    (String.append tab
       (String.append (str_int start)
          (String.append tab
             (String.append (str_int end_)
                (String.append tab (String.append "N_stretch" newline)))))).

(** The strings [write_bed_file] writes, in order. *)
Definition write_bed_file (scaffolds : list (string * Z * Z)) : list string :=
  map bed_line scaffolds.

Definition main (records : list (string * string)) : list string :=
  write_bed_file (read_fasta_file records).

End FindScaffolds.

(** ** Notions for the scaffold finder *)

Module ScaffoldNotions.
Import Py FindScaffolds.

(** The character at index [i] is an N, of either case. *)
Definition N_at (l : list ascii) (i : nat) : bool :=
  match nth_error l i with
  | Some c => is_N c
  | None => false
  end.

(** The base at position [i] of the sequence is an N; no base has a
    negative position. *)
Definition base_is_N (sequence : string) (i : Z) : bool :=
  (0 <=? i)%Z && N_at (list_ascii_of_string sequence) (Z.to_nat i).

(** The number of N bases of the sequence. *)
Definition count_N (sequence : string) : Z :=
  Z.of_nat (length (List.filter is_N (list_ascii_of_string sequence))).

(** The number of positions the scaffolds span. *)
Fixpoint spanned (scaffolds : list (string * Z * Z)) : Z :=
  match scaffolds with
  | [] => 0
  | (_, start, end_) :: rest => (end_ - start) + spanned rest
  end.

(** The positions from [start] up to [end_], exclusive, are a stretch of N
    that cannot be extended on either side. *)
Definition N_stretch (sequence : string) (start end_ : Z) : Prop :=
  (0 <= start < end_)%Z /\ (end_ <= Z.of_nat (String.length sequence))%Z /\
  (forall i : Z, (start <= i < end_)%Z -> base_is_N sequence i = true) /\
  base_is_N sequence (start - 1) = false /\
  base_is_N sequence end_ = false.

(** A scaffold ends before the next one starts, with a base in between. *)
Definition apart (a b : string * Z * Z) : Prop := (snd a < snd (fst b))%Z.

(** A maximal run of N in a list of characters. *)
Definition maximal_run (l : list ascii) (m : nat * nat) : Prop :=
  (fst m < snd m)%nat /\ (snd m <= length l)%nat /\
  (forall i, (fst m <= i < snd m)%nat -> N_at l i = true) /\
  (fst m = 0%nat \/ N_at l (fst m - 1) = false) /\
  N_at l (snd m) = false.

(** The state of the scan is consistent with the characters read. *)
Definition scan_state (l : list ascii) (pos : nat) (run : option nat) : Prop :=
  match run with
  | None => pos = 0%nat \/ N_at l (pos - 1) = false
  | Some st =>
      (st < pos)%nat /\ (forall i, (st <= i < pos)%nat -> N_at l i = true) /\
      (st = 0%nat \/ N_at l (st - 1) = false)
  end.

End ScaffoldNotions.

(** ** [asm_plot.py]: the loops of [plot_data] with the renderer's check

    [patches.Rectangle] takes its [color] argument through the renderer's
    colour conversion, which raises [ValueError] on a value it does not know
    as a colour. Which values it knows is the renderer's business and no
    part of these sources: the loops are given here over any such check. *)

Module Renderer.
Import Py AsmPlot.

Section Checked.

(** The colours the renderer takes. *)
Variable accepts : color -> bool.

(** [patches.Rectangle((x, y), width, height, color=c, alpha=alpha)] *)
Definition new_rectangle (x : Z) (y : float) (width : Z) (height : float)
    (c : color) (alpha : option float) : result Rectangle :=
  if accepts c then Ok (mkRect x y width height c alpha) else Raise ValueError.

(** The first loop: one black rectangle per chromosome with a slot. *)
Fixpoint reference_tracks (items : list (string * Z)) : result (list Rectangle) :=
  match items with
  | [] => Ok []
  | (chrom, y_pos) :: rest =>
      do here <- (if contains REFERENCE_CHROMOSOMES chrom then
                    do chrom_length <- getitem REFERENCE_CHROMOSOMES chrom;
                    do y <- float_of_int y_pos;
                    do two <- float_of_int 2;
                    do rect <- new_rectangle 0 (fsub y (fdiv ref_height two)) chrom_length
                                 ref_height (Named "black") (Some alpha_ref);
                    Ok [rect]
                  else Ok []);
      do more <- reference_tracks rest;
      Ok (here ++ more)
  end.

(** The second loop: the regions of the BED file, in input order. *)
Fixpoint place_regions (chrom_y_positions : list (string * Z))
    (regions : list RegionRecord) : result (list Rectangle) :=
  match regions with
  | [] => Ok []
  | r :: rest =>
      do here <- (if contains REFERENCE_CHROMOSOMES (rchrom r) then
                    let x_position := rstart r in
                    let width := (rend r - rstart r)%Z in
                    do y_position <- getitem chrom_y_positions (rchrom r);
                    do y <- float_of_int y_position;
                    do two <- float_of_int 2;
                    do rect <- new_rectangle x_position (fsub y (fdiv ref_height two))
                                 width ref_height (rcolor r) None;
                    Ok [rect]
                  else Ok []);
      do more <- place_regions chrom_y_positions rest;
      Ok (here ++ more)
  end.

(** The inner loop over the records of one alignment file. *)
Fixpoint place_alignments (chrom_y_positions : list (string * Z))
    (color_lookup : gmap string string) (vertical_offset : float)
    (data : list AlignmentRecord) : result (list Rectangle) :=
  match data with
  | [] => Ok []
  | d :: rest =>
      do here <- (if contains REFERENCE_CHROMOSOMES (chrom d) then
                    let query_name := query d in
                    do color_val <- (match color_lookup !! query_name with
                                     | Some c => Ok c
                                     | None => Raise KeyError
                                     end);
                    let x_position := start d in
                    let width := (end_ d - start d)%Z in
                    do slot <- getitem chrom_y_positions (chrom d);
                    do y <- float_of_int slot;
                    let y_position := fadd y vertical_offset in
                    do rect <- new_rectangle x_position y_position width asm_height
                                 (Named color_val) None;
                    Ok [rect]
                  else Ok []);
      do more <- place_alignments chrom_y_positions color_lookup vertical_offset rest;
      Ok (here ++ more)
  end.

End Checked.

End Renderer.

(** ** Notions for the files written *)

Module FileNotions.
Import Py PyText.

(** The text holds no line break. *)
Definition one_line (t : string) : bool :=
  forallb (fun c => negb (Ascii.eqb c LF || Ascii.eqb c "013"))
          (list_ascii_of_string t).

(** The text is one line of a file: its only line break is the line feed
    that ends it. *)
Definition file_line (s : string) : Prop :=
  exists t : string, s = String.append t newline /\ one_line t = true.

End FileNotions.

(** ** Notions for the plot *)

Module PlotNotions.
Import Py AsmPlot Spec.

(** The texts [re.split] yields alternate: a text without digits, then a
    run of digits, and so on, ending with a text. *)
Fixpoint pieces (text_next : bool) (texts : list string) : bool :=
  match texts with
  | [] => negb text_next
  | t :: rest =>
      if text_next then digit_free t && pieces false rest
      else isdigit t && pieces true rest
  end.

(** The elements of a key alternate likewise: a [str], then an [int]. *)
Fixpoint shaped (str_next : bool) (key : list key_part) : bool :=
  match key, str_next with
  | [], _ => negb str_next
  | KStr _ :: rest, true => shaped false rest
  | KInt _ :: rest, false => shaped true rest
  | _, _ => false
  end.

(** The float an integer converts to, for the integers that have one. *)
Definition y_of (k : Z) : float :=
  match float_of_int k with
  | Ok f => f
  | Raise _ => f_zero
  end.

(** The lower and upper edge of the reference track in slot [k], and of
    the lane of source [i] above slot [k]: a rectangle reaches from its [y]
    to its [y] plus its height. *)
Definition track_bottom (k : Z) : float := fsub (y_of k) (fdiv ref_height f_two).
Definition track_top (k : Z) : float := fadd (track_bottom k) ref_height.
Definition lane_bottom (k : Z) (i : nat) : float := fadd (y_of k) (offset_at i).
Definition lane_top (k : Z) (i : nat) : float := fadd (lane_bottom k i) asm_height.

Definition fle (a b : float) : bool := SFleb a b.
Definition flt (a b : float) : bool := SFltb a b.

(** The slots of the plot. *)
Definition slots : list Z := map snd slot_table.

(** The lane of source [i] lies between the track of its slot and the
    track of the slot above, on every slot. *)
Definition lane_clear (i : nat) : bool :=
  forallb (fun k => fle (track_top k) (lane_bottom k i)
                    && fle (lane_top k i) (track_bottom (k + 1)))
          slots.

(** The lane of source [i] ends below the lane of the next source. *)
Definition lane_below_next (i : nat) : bool :=
  forallb (fun k => fle (lane_top k i) (lane_bottom k (S i))) slots.

(** The lane of source [i] reaches above the lower edge of the track of
    the slot above. *)
Definition lane_crosses (i : nat) : bool :=
  forallb (fun k => flt (track_bottom (k + 1)) (lane_top k i)) slots.

(** One colour channel: [n / 255.0]. *)
Definition channel_of (n : Z) : float :=
  fdiv (binary_normalize prec emax n 0 false) f255.

(** The values [0 .. 255]. *)
Definition bytes : list Z := map Z.of_nat (seq 0 256).

(** The channel of a value lies in [0, 1], and below the channel of the
    next value. *)
Definition channel_in_range (n : Z) : bool :=
  fle f_zero (channel_of n) && fle (channel_of n) f_one
  && negb (raises (float_of_int n))
  && (if (n <? 255)%Z then flt (channel_of n) (channel_of (n + 1)) else true).

(** The colour a record gets from the lookup, where it has one. *)
Definition color_of (color_lookup : gmap string string) (d : AlignmentRecord) : string :=
  default EmptyString (color_lookup !! query d).

(** The record is drawn: its chromosome is in the catalogue. *)
Definition drawn (d : AlignmentRecord) : bool := in_catalog (chrom d).

(** A record that is drawn has a colour in the lookup, and the renderer
    takes that colour. *)
Definition colored (accepts : color -> bool) (color_lookup : gmap string string)
    (d : AlignmentRecord) : Prop :=
  drawn d = true ->
  exists c : string, color_lookup !! query d = Some c /\ accepts (Named c) = true.

(** The type has none of the two separators. *)
Definition separator_free (type : string) : bool :=
  forallb (fun c => negb (Ascii.eqb c "_" || Ascii.eqb c "("))
          (list_ascii_of_string type).

#[global] Instance color_eq_dec : EqDecision color.
Proof. solve_decision. Defined.

#[global] Instance Rectangle_eq_dec : EqDecision Rectangle.
Proof. solve_decision. Defined.

(** The reference track of a chromosome of the catalogue with length
    [len]. *)
Definition track_rect (c : string) (len : Z) : Rectangle :=
  mkRect 0 (fsub (slot_y c) (fdiv ref_height f_two)) len ref_height
         (Named "black") (Some alpha_ref).

(** Every chromosome of the catalogue has its track among the reference
    tracks. *)
Definition track_present (kv : string * Z) : bool :=
  existsb (fun t => bool_decide (t = track_rect (fst kv) (snd kv))) reference_rects.

End PlotNotions.

(** * Properties *)

(** ** Facts about the primitives *)

Module PyFacts.
Import Py Spec.

Lemma index_nth {A : Type} (l : list A) (i : nat) (x : A) :
  nth_error l i = Some x -> index l i = Ok x.
Proof. unfold index. now intros ->. Qed.

Lemma index_Ok_inv {A : Type} (l : list A) (i : nat) (x : A) :
  index l i = Ok x -> nth_error l i = Some x.
Proof. unfold index. destruct (nth_error l i); now inversion 1. Qed.

Lemma index_short {A : Type} (l : list A) (i : nat) :
  (length l <= i)%nat -> index l i = Raise IndexError.
Proof.
  intros H. unfold index.
  now rewrite (proj2 (nth_error_None l i) H).
Qed.

Lemma int_of_value (s : string) (z : Z) : int_value s = Some z -> int s = Ok z.
Proof. unfold int. now intros ->. Qed.

Lemma int_of_none (s : string) : int_value s = None -> int s = Raise ValueError.
Proof. unfold int. now intros ->. Qed.

Lemma digit_not_space_c (c : ascii) : is_digit c = true -> isspace_c c = false.
Proof. destruct c as [[] [] [] [] [] [] [] []]; intros H; try reflexivity; discriminate H. Qed.

Lemma rskip_all_digits (t : string) :
  forallb is_digit (list_ascii_of_string t) = true -> rskip t = t.
Proof.
  induction t as [|c t IH]; cbn [list_ascii_of_string forallb rskip]; [reflexivity|].
  intros H. apply andb_true_iff in H. destruct H as [Hc Ht].
  rewrite (IH Ht), (digit_not_space_c _ Hc). now destruct t.
Qed.

Lemma skip_all_digits (t : string) :
  forallb is_digit (list_ascii_of_string t) = true -> rskip (lskip t) = t.
Proof.
  intros H.
  assert (Hl : lskip t = t).
  { destruct t as [|c r]; [reflexivity|]. cbn [list_ascii_of_string forallb] in H.
    apply andb_true_iff in H. cbn [lskip]. now rewrite (digit_not_space_c _ (proj1 H)). }
  rewrite Hl. now apply rskip_all_digits.
Qed.

(** [int] refuses a text that starts with one of the separators. *)
Lemma int_value_separator (c : ascii) (r : string) :
  is_separator c = true -> int_value (String c r) = None.
Proof.
  intros Hc. unfold int_value.
  assert (Hs : isspace_c c = false)
    by (destruct c as [[] [] [] [] [] [] [] []]; try reflexivity; discriminate Hc).
  cbn [lskip]. rewrite Hs. cbn [rskip]. rewrite Hs.
  destruct (rskip r);
    destruct c as [[] [] [] [] [] [] [] []]; try discriminate Hc; reflexivity.
Qed.

Lemma split_on_nonempty (p : ascii -> bool) (s : string) : split_on p s <> [].
Proof.
  destruct s as [|c r]; simpl; [discriminate|].
  destruct (p c); [discriminate|].
  destruct (split_on p r); discriminate.
Qed.

(** *** The fields of a line

    [strip] exists to remove the line terminator: it does not change what
    [split] sees when the line has no other white space at its ends. *)

Lemma append_cons (c : ascii) (s t : string) :
  String.append (String c s) t = String c (String.append s t).
Proof. reflexivity. Qed.

Lemma rstrip_newline (t : string) :
  rstrip (String.append t (String LF EmptyString)) = rstrip t.
Proof.
  induction t as [|c t IH]; [reflexivity|].
  rewrite append_cons. cbn [rstrip]. now rewrite IH.
Qed.

Lemma strip_newline (t : string) :
  strip (String.append t (String LF EmptyString)) = strip t.
Proof.
  unfold strip. induction t as [|c t IH]; [reflexivity|].
  rewrite append_cons. cbn [lstrip]. destruct (isspace c); [exact IH|].
  rewrite <- append_cons. apply rstrip_newline.
Qed.

Lemma split_tab_free (f : string) :
  tab_free f = true -> split TAB f = [f].
Proof.
  unfold split, tab_free.
  induction f as [|c f IH]; cbn [list_ascii_of_string forallb split_on]; [reflexivity|].
  intros H. apply andb_true_iff in H. destruct H as [Hc Hf].
  apply negb_true_iff in Hc. now rewrite Hc, (IH Hf).
Qed.

Lemma split_tab_app (f rest : string) :
  tab_free f = true ->
  split TAB (String.append f (String TAB rest)) = f :: split TAB rest.
Proof.
  unfold split, tab_free.
  induction f as [|c f IH]; cbn [list_ascii_of_string forallb]; intros H.
  - reflexivity.
  - apply andb_true_iff in H. destruct H as [Hc Hf]. apply negb_true_iff in Hc.
    rewrite append_cons. cbn [split_on]. now rewrite Hc, (IH Hf).
Qed.

Lemma split_tabbed (fields : list string) :
  fields <> [] -> Forall (fun f => tab_free f = true) fields ->
  split TAB (tabbed fields) = fields.
Proof.
  intros Hne Hall. induction Hall as [|f fields Hf Hall IH]; [contradiction|].
  destruct fields as [|g fields].
  - cbn. now apply split_tab_free.
  - change (tabbed (f :: g :: fields))
      with (String.append f (String TAB (tabbed (g :: fields)))).
    rewrite (split_tab_app _ _ Hf). f_equal. apply IH. discriminate.
Qed.

(** A line written from tab-free fields, without white space at its ends,
    gives back its fields, with or without its line terminator. *)
Lemma tab_fields_tabbed (fields : list string) :
  fields <> [] -> Forall (fun f => tab_free f = true) fields ->
  strip (tabbed fields) = tabbed fields ->
  tab_fields (tabbed fields) = fields /\
  tab_fields (String.append (tabbed fields) (String LF EmptyString)) = fields.
Proof.
  intros Hne Hall Hs. unfold tab_fields.
  rewrite strip_newline, Hs. split; now apply split_tabbed.
Qed.

End PyFacts.

(** ** The PAF parser *)

Module ParsePafFacts.
Import Py ParsePaf Spec PyFacts.

Lemma tp_not_primary_false (v : option string) :
  tp_not_primary v = false <-> primary v.
Proof.
  unfold primary. destruct v as [v|]; simpl.
  - rewrite negb_false_iff, orb_true_iff, !String.eqb_eq.
    split; intros [H|H]; [left|right|left|right]; congruence.
  - split; [discriminate|]. intros [H|H]; discriminate.
Qed.

(** On well-formed tag fields the scanning loop ends with the last [tp]
    and the last [de] value, or with what it started from. *)
Lemma scan_tags_last (fs : list string) :
  Forall well_formed_tag fs ->
  forall acc,
    scan_tags acc fs =
      Ok (match last_tag "tp" fs with Some v => Some v | None => fst acc end,
          match last_tag "de" fs with Some v => Some v | None => snd acc end).
Proof.
  induction 1 as [|f fs Hf _ IH]; intros [t d]; simpl.
  - reflexivity.
  - unfold scan_tag, tag_named. unfold well_formed_tag in Hf.
    destruct (split ":" f) as [|tag [|ty [|value [|? ?]]]]; try discriminate.
    destruct (String.eqb tag "tp") eqn:Etp.
    + apply String.eqb_eq in Etp. subst tag. simpl.
      rewrite IH. simpl.
      destruct (last_tag "tp" fs), (last_tag "de" fs); reflexivity.
    + destruct (String.eqb tag "de") eqn:Ede; simpl; rewrite IH; simpl;
        destruct (last_tag "tp" fs), (last_tag "de" fs); reflexivity.
Qed.

(** A malformed tag field anywhere is fatal for the line. *)
Lemma scan_tags_malformed (fs : list string) :
  Exists (fun f => ~ well_formed_tag f) fs ->
  forall acc, scan_tags acc fs = Raise ValueError.
Proof.
  induction 1 as [f fs Hf|f fs _ IH]; intros acc; simpl.
  - unfold scan_tag. unfold well_formed_tag in Hf.
    destruct (split ":" f) as [|tag [|ty [|value [|? ?]]]]; try reflexivity.
    now contradiction Hf.
  - assert (Hc : scan_tag acc f = Raise ValueError \/ exists a, scan_tag acc f = Ok a).
    { unfold scan_tag.
      destruct (split ":" f) as [|tag [|ty [|value [|? ?]]]]; auto.
      destruct (String.eqb tag "tp"); [eauto|].
      destruct (String.eqb tag "de"); eauto. }
    destruct Hc as [-> | [a ->]]; simpl; [reflexivity | apply IH].
Qed.

(** The parser on a line of at least twelve fields whose field 9 is an
    integer and whose tag fields are well formed. *)
Lemma parse_paf_line_long (line : string) (m n : Z)
    (f0 f1 f2 f3 f4 f5 f6 f7 f8 f9 f10 f11 : string) (tags : list string) :
  tab_fields line = f0 :: f1 :: f2 :: f3 :: f4 :: f5 :: f6 :: f7 :: f8 :: f9 :: f10 :: f11 :: tags ->
  int_value f9 = Some n ->
  Forall well_formed_tag tags ->
  parse_paf_line line m =
    Ok (if (n <? m)%Z || (tp_not_primary (last_tag "tp" tags) || is_none (last_tag "de" tags))
        then None
        else Some (mkPaf f0 f2 f3 f5 f7 f8 f6 (last_tag "tp" tags) (last_tag "de" tags))).
Proof.
  intros Hf Hn Hwf. unfold parse_paf_line. rewrite Hf.
  cbn [length Nat.ltb Nat.leb index nth_error bind skipn].
  rewrite (int_of_value _ _ Hn). cbn [bind].
  destruct (n <? m)%Z; [reflexivity|].
  rewrite (scan_tags_last _ Hwf). cbn [bind fst snd orb].
  destruct (last_tag "tp" tags) as [v|], (last_tag "de" tags) as [d|];
    cbn [tp_not_primary is_none orb]; try reflexivity;
    destruct (negb _); reflexivity.
Qed.

(** A line of fewer than twelve fields is rejected. *)
Lemma parse_paf_line_short (line : string) (m : Z) :
  (length (tab_fields line) < 12)%nat -> parse_paf_line line m = Ok None.
Proof.
  intros H. unfold parse_paf_line.
  now rewrite (proj2 (Nat.ltb_lt _ _) H).
Qed.

(** A list of at least twelve fields, taken apart. *)
Lemma twelve_fields (fields : list string) :
  (12 <= length fields)%nat ->
  exists f0 f1 f2 f3 f4 f5 f6 f7 f8 f9 f10 f11 tags,
    fields = f0 :: f1 :: f2 :: f3 :: f4 :: f5 :: f6 :: f7 :: f8 :: f9 :: f10 :: f11 :: tags.
Proof.
  intros H.
  do 12 (destruct fields as [|? fields]; [simpl in H; lia|]).
  repeat eexists.
Qed.

(** Dropping a rejected line leaves the result of reading the file as it
    is, whatever the other lines are. *)
Lemma read_paf_rejected (before after : list string) (line : string) (m : Z) :
  parse_paf_line line m = Ok None ->
  read_paf (before ++ line :: after) m = read_paf (before ++ after) m.
Proof.
  intros H. induction before as [|l before IH]; simpl.
  - rewrite H. simpl. now destruct (read_paf after m).
  - now rewrite IH.
Qed.

(** When every line parses, reading the file gives the retained records
    in line order. *)
Lemma read_paf_retained (lines : list string) (outs : list (option PafRecord)) (m : Z) :
  Forall2 (fun l o => parse_paf_line l m = Ok o) lines outs ->
  read_paf lines m = Ok (omap id outs).
Proof.
  induction 1 as [|l o lines outs Hl _ IH]; simpl; [reflexivity|].
  rewrite Hl, IH. simpl. now destruct o.
Qed.






End ParsePafFacts.

(** ** The tab-alignment parser, the BED parser and the colour lookup *)

Module ParserFacts.
Import Py AsmPlot Spec PyFacts.

(** *** Tab-alignment lines *)

Lemma parse_tab_line_fields (line : string) (f0 f1 f2 f3 f4 f5 : string)
    (rest : list string) (s e : Z) :
  tab_fields line = f0 :: f1 :: f2 :: f3 :: f4 :: f5 :: rest ->
  int_value f4 = Some s ->
  int_value f5 = Some e ->
  parse_tab_line line = Ok (mkAln f3 s e f0).
Proof.
  intros Hf H4 H5. unfold parse_tab_line. rewrite Hf.
  cbn [index nth_error bind].
  now rewrite (int_of_value _ _ H4), (int_of_value _ _ H5).
Qed.




(** *** BED lines *)

Lemma index_head (p : ascii -> bool) (s : string) :
  index (split_on p s) 0 = Ok (hd EmptyString (split_on p s)).
Proof.
  pose proof (split_on_nonempty p s).
  destruct (split_on p s); [contradiction | reflexivity].
Qed.

Lemma parse_bed_line_fields (line : string)
    (f0 f1 f2 f3 f4 f5 f6 f7 f8 : string) (rest : list string) (s e : Z) :
  tab_fields line = f0 :: f1 :: f2 :: f3 :: f4 :: f5 :: f6 :: f7 :: f8 :: rest ->
  int_value f1 = Some s ->
  int_value f2 = Some e ->
  parse_bed_line line =
    if (e - s <? 100000)%Z then Ok None
    else
      do color <- (if (length (split "," f8) =? 3)%nat
                   then do cs <- channels (split "," f8); Ok (Tuple cs)
                   else Ok (Named "grey"));
      Ok (Some (mkRegion f0 s e
                  (hd EmptyString
                      (split_on (fun c => Ascii.eqb c "_" || Ascii.eqb c "(") f3))
                  color)).
Proof.
  intros Hf H1 H2. unfold parse_bed_line. rewrite Hf.
  cbn [index nth_error bind].
  rewrite (int_of_value _ _ H1), (int_of_value _ _ H2). cbn [bind].
  destruct (e - s <? 100000)%Z; [reflexivity|].
  fold (index (split_on (fun c => Ascii.eqb c "_" || Ascii.eqb c "(") f3) 0).
  now rewrite index_head.
Qed.

Lemma nine_fields (fields : list string) :
  (9 <= length fields)%nat ->
  exists f0 f1 f2 f3 f4 f5 f6 f7 f8 rest,
    fields = f0 :: f1 :: f2 :: f3 :: f4 :: f5 :: f6 :: f7 :: f8 :: rest.
Proof.
  intros H.
  do 9 (destruct fields as [|? fields]; [simpl in H; lia|]).
  repeat eexists.
Qed.

(** One channel that [int] rejects makes the whole tuple fail. *)
Lemma channels_bad (cs : list string) (c : string) :
  In c cs -> int_value c = None ->
  channels cs = Raise ValueError \/ channels cs = Raise OverflowError.
Proof.
  induction cs as [|c' cs IH]; intros Hin Hc; [contradiction|].
  cbn [channels].
  destruct (int_value c') as [n|] eqn:En;
    [rewrite (int_of_value _ _ En) | rewrite (int_of_none _ En); now left].
  cbn [bind]. destruct (float_of_int n) as [x|ex] eqn:Ex; cbn [bind].
  - destruct Hin as [->|Hin]; [congruence|].
    destruct (IH Hin Hc) as [-> | ->]; cbn [bind]; auto.
  - unfold float_of_int in Ex.
    destruct (binary_normalize prec emax n 0 false); inversion Ex; auto.
Qed.

(** Claim C4 fails as stated: a line of nine tab-separated fields whose
    colour field, the last, is empty has no ninth field left once the
    parser has stripped the white space at the ends of the line, its last
    tab included. For a region of at least 100,000 bases the parser then
    raises [IndexError] at the colour field instead of returning the
    default colour. *)
Lemma bed_empty_color_field_raises :
  let line := tabbed ["chr1"; "1000"; "250000"; "sat"; "0"; "."; "1000"; "250000"; EmptyString] in
  (is_ascii line = true /\ (9 <= length (split TAB line))%nat) /\
  (nth_error (split TAB line) 1 = Some "1000" /\ int_value "1000" = Some 1000%Z /\
   within_int_limit "1000" = true) /\
  (nth_error (split TAB line) 2 = Some "250000" /\ int_value "250000" = Some 250000%Z /\
   within_int_limit "250000" = true) /\
  (100000 <= 250000 - 1000)%Z /\
  (nth_error (split TAB line) 8 = Some EmptyString /\ length (split "," EmptyString) <> 3%nat) /\
  length (tab_fields line) = 8%nat /\
  parse_bed_line line = Raise IndexError /\
  parse_bed_line (String.append line (String LF EmptyString)) = Raise IndexError.
Proof.
  cbv zeta. repeat split; try reflexivity; try (vm_compute; lia).
  vm_compute. discriminate.
Qed.

(** Claim C4, amended. For an ASCII BED line that has at least nine fields
    once the white space at its ends is stripped, with integers that [int]
    reads in fields 1 and 2 (numerals within the interpreter's limit on
    digits): the parser returns [None] exactly when [end - start] is below
    100,000; a retained line whose field 8 is ["255,0,0"] has the colour
    [(1.0, 0.0, 0.0)]; and a retained line whose field 8 does not have
    exactly three comma-separated components has the colour ['grey'],
    without failing. *)
Theorem bed_filter_and_color (line f1 f2 f8 : string) (s e : Z) :
  is_ascii line = true ->
  (9 <= length (tab_fields line))%nat ->
  nth_error (tab_fields line) 1 = Some f1 -> int_value f1 = Some s ->
  within_int_limit f1 = true ->
  nth_error (tab_fields line) 2 = Some f2 -> int_value f2 = Some e ->
  within_int_limit f2 = true ->
  nth_error (tab_fields line) 8 = Some f8 ->
  (parse_bed_line line = Ok None <-> (e - s < 100000)%Z) /\
  ((100000 <= e - s)%Z -> f8 = "255,0,0" ->
     exists r : RegionRecord,
       parse_bed_line line = Ok (Some r) /\ rcolor r = Tuple [f_one; f_zero; f_zero]) /\
  ((100000 <= e - s)%Z -> length (split "," f8) <> 3%nat ->
     exists r : RegionRecord,
       parse_bed_line line = Ok (Some r) /\ rcolor r = Named "grey").
Proof.
  intros _ Hlen H1 Hs _ H2 He _ H8.
  destruct (nine_fields _ Hlen)
    as (f0 & g1 & g2 & f3 & f4 & f5 & f6 & f7 & g8 & rest & Hf).
  rewrite Hf in H1, H2, H8. cbn [nth_error] in H1, H2, H8.
  injection H1 as ->. injection H2 as ->. injection H8 as ->.
  rewrite (parse_bed_line_fields _ _ _ _ _ _ _ _ _ _ _ _ _ Hf Hs He).
  split; [|split].
  - destruct (e - s <? 100000)%Z eqn:Esz.
    + apply Z.ltb_lt in Esz. tauto.
    + apply Z.ltb_ge in Esz. split; [|lia].
      intros H. exfalso. revert H.
      destruct (if (length (split "," f8) =? 3)%nat then _ else _);
        cbn [bind]; discriminate.
  - intros Hsz ->. rewrite (proj2 (Z.ltb_ge _ _) Hsz).
    eexists. split; reflexivity.
  - intros Hsz Hn. rewrite (proj2 (Z.ltb_ge _ _) Hsz).
    rewrite (proj2 (Nat.eqb_neq _ _) Hn). cbn [bind].
    eexists. split; reflexivity.
Qed.

Lemma bed_filter_and_color_witness :
  let line := tabbed ["chr1"; "1000"; "250000"; "sat_1(x)"; "0"; "."; "1000"; "250000";
                      "255,0,0"] in
  (is_ascii line = true /\ (9 <= length (tab_fields line))%nat /\
   nth_error (tab_fields line) 1 = Some "1000" /\ int_value "1000" = Some 1000%Z /\
   within_int_limit "1000" = true /\
   nth_error (tab_fields line) 2 = Some "250000" /\ int_value "250000" = Some 250000%Z /\
   within_int_limit "250000" = true /\
   nth_error (tab_fields line) 8 = Some "255,0,0") /\
  exists r : RegionRecord,
    parse_bed_line line = Ok (Some r) /\ rcolor r = Tuple [f_one; f_zero; f_zero].
Proof.
  intros line.
  assert (H0 : (9 <= length (tab_fields line))%nat) by (vm_compute; lia).
  assert (H1 : nth_error (tab_fields line) 1 = Some "1000") by reflexivity.
  assert (H2 : int_value "1000" = Some 1000%Z) by reflexivity.
  assert (H3 : nth_error (tab_fields line) 2 = Some "250000") by reflexivity.
  assert (H4 : int_value "250000" = Some 250000%Z) by reflexivity.
  assert (H5 : nth_error (tab_fields line) 8 = Some "255,0,0") by reflexivity.
  split; [now repeat split|].
  apply (proj1 (proj2 (bed_filter_and_color line "1000" "250000" "255,0,0" 1000 250000
                         eq_refl H0 H1 H2 eq_refl H3 H4 eq_refl H5))); [lia | reflexivity].
Defined.



(** *** The colour lookup *)

Lemma tsv_rows_app (kc vc : nat) (a b : list (list string)) :
  forall acc : gmap string string,
    tsv_rows kc vc acc (a ++ b) = (do m <- tsv_rows kc vc acc a; tsv_rows kc vc m b).
Proof.
  induction a as [|row a IH]; intros acc; simpl; [reflexivity|].
  destruct (vc <=? length row)%nat; [|apply IH].
  destruct (index row kc) as [k|]; cbn [bind]; [|reflexivity].
  destruct (index row vc) as [v|]; cbn [bind]; [apply IH | reflexivity].
Qed.

(** Rows without any column are skipped, and among rows of two or more
    columns the last row of a key decides its value. *)
Lemma tsv_rows_last (rows : list (list string)) :
  Forall (fun row => length row <> 1%nat) rows ->
  forall acc : gmap string string,
  exists m : gmap string string,
    tsv_rows 0 1 acc rows = Ok m /\
    forall key : string,
      m !! key = match last_row_value key rows with
                 | Some v => Some v
                 | None => acc !! key
                 end.
Proof.
  induction 1 as [|row rows Hrow _ IH]; intros acc; simpl.
  - exists acc. split; [reflexivity|]. intros key. reflexivity.
  - destruct row as [|k [|v row]]; simpl.
    + destruct (IH acc) as (m & Hm & Hlook). exists m. split; [exact Hm|].
      intros key. rewrite Hlook. now destruct (last_row_value key rows).
    + now contradiction Hrow.
    + destruct (IH (<[k := v]> acc)) as (m & Hm & Hlook). exists m.
      split; [exact Hm|]. intros key. rewrite Hlook.
      destruct (last_row_value key rows); [reflexivity|].
      destruct (String.eqb k key) eqn:Ek.
      * apply String.eqb_eq in Ek. subst. apply lookup_insert_eq.
      * apply String.eqb_neq in Ek. now apply lookup_insert_ne.
Qed.

(** A row of exactly one column passes the guard [len(rows) >= 1] and
    then fails at [rows[1]]. *)
Lemma tsv_rows_one_column (before after : list (list string)) (k : string)
    (m : gmap string string) :
  read_tsv_to_dict before = Ok m ->
  read_tsv_to_dict (before ++ [k] :: after) = Raise IndexError.
Proof.
  unfold read_tsv_to_dict, read_tsv_to_dict_cols. intros H.
  rewrite tsv_rows_app, H. reflexivity.
Qed.

(** Claim C7, on the code. A colour file whose second row has a single
    column makes the loader raise [IndexError] instead of skipping the row:
    the guard compares the row length with the index of the value column,
    not with the number of columns needed. So any row of exactly one
    column, after rows that load, is fatal; when no row has exactly one
    column the loader succeeds, rows without columns are skipped, and the
    last row of a key gives its value. *)
Theorem one_column_row_raises :
  read_tsv_to_dict [["q1"; "red"]; ["q2"]] = Raise IndexError /\
  (forall (before after : list (list string)) (k : string) (m : gmap string string),
      read_tsv_to_dict before = Ok m ->
      read_tsv_to_dict (before ++ [k] :: after) = Raise IndexError) /\
  (forall rows : list (list string),
      Forall (fun row => length row <> 1%nat) rows ->
      exists m : gmap string string,
        read_tsv_to_dict rows = Ok m /\
        forall key : string, m !! key = last_row_value key rows).
Proof.
  split; [reflexivity|]. split.
  - intros before after k m H. now apply (tsv_rows_one_column before after k m).
  - intros rows Hrows. destruct (tsv_rows_last rows Hrows ∅) as (m & Hm & Hlook).
    exists m. split; [exact Hm|]. intros key. rewrite Hlook.
    now destruct (last_row_value key rows).
Qed.

(** A blank row is skipped and the later of two rows of [q1] wins. *)
Lemma one_column_row_raises_witness :
  let rows := [["q1"; "red"]; []; ["q2"; "blue"; "x"]; ["q1"; "green"]] in
  Forall (fun row => length row <> 1%nat) rows /\
  exists m : gmap string string,
    read_tsv_to_dict rows = Ok m /\
    m !! "q1" = Some "green" /\ m !! "q2" = Some "blue" /\ m !! "q3" = None.
Proof.
  intros rows.
  assert (H : Forall (fun row => length row <> 1%nat) rows)
    by (repeat (apply List.Forall_cons; [cbn; lia|]); apply List.Forall_nil).
  split; [exact H|].
  destruct (proj2 (proj2 one_column_row_raises) rows H) as (m & Hm & Hlook).
  exists m. split; [exact Hm|]. now rewrite !Hlook.
Defined.

End ParserFacts.

(** ** Sorting with a fallible comparison *)

Module SortFacts.
Import Py AsmPlot Spec.

Lemma perm_Forall {T : Type} (P : T -> Prop) (l l' : list T) :
  Permutation l l' -> Forall P l -> Forall P l'.
Proof.
  intros Hp. rewrite !List.Forall_forall. intros H x Hx.
  apply H. apply (Permutation_in _ (Permutation_sym Hp) Hx).
Qed.

Section Universe.
Context {K A : Type} (lt : K -> K -> result bool) (U : list (K * A)).

(** On the elements of [U] the comparison never raises and [not_above]
    is a total order. *)
Hypothesis Hdef : forall x y, In x U -> In y U -> exists b, lt (fst x) (fst y) = Ok b.
Hypothesis Hconn : forall x y, In x U -> In y U -> not_above lt x y \/ not_above lt y x.
Hypothesis Htrans : forall x y z, In x U -> In y U -> In z U ->
  not_above lt x y -> not_above lt y z -> not_above lt x z.
Hypothesis Hanti : forall x y, In x U -> In y U ->
  not_above lt x y -> not_above lt y x -> x = y.

Lemma insert_sorted_ok (x : K * A) (l : list (K * A)) :
  In x U -> Forall (fun x => In x U) l -> StronglySorted (not_above lt) l ->
  exists r, insert_sorted lt x l = Ok r /\
            Permutation r (x :: l) /\
            StronglySorted (not_above lt) r.
Proof.
  intros Hx Hl Hs. induction l as [|y l IH]; simpl.
  - exists [x]. repeat split; auto. constructor; constructor.
  - inversion Hl as [|? ? Hy Hl']; subst.
    apply StronglySorted_inv in Hs. destruct Hs as [Hs Hall].
    destruct (Hdef x y Hx Hy) as [[|] Hb]; rewrite Hb; cbn [bind].
    + exists (x :: y :: l). repeat split; auto.
      assert (Hxy : not_above lt x y).
      { destruct (Hconn x y Hx Hy) as [H|H]; [exact H|].
        unfold not_above in H. congruence. }
      constructor; [constructor; assumption|].
      constructor; [exact Hxy|].
      rewrite List.Forall_forall in Hall, Hl' |- *. intros z Hz.
      apply (Htrans x y z); auto; apply Hl'; auto.
    + destruct (IH Hl' Hs) as (r & Hr & Hperm & Hsr).
      rewrite Hr. cbn [bind]. exists (y :: r). repeat split.
      * rewrite Hperm. apply perm_swap.
      * constructor; [exact Hsr|].
        apply (perm_Forall _ (x :: l)); [now symmetry|].
        constructor; [exact Hb | exact Hall].
Qed.

Lemma insert_sorted_in (x : K * A) (l r : list (K * A)) :
  In x U -> Forall (fun x => In x U) l -> Permutation r (x :: l) -> Forall (fun x => In x U) r.
Proof.
  intros Hx Hl Hp. apply (perm_Forall _ (x :: l)); [now symmetry|].
  now constructor.
Qed.

Lemma sort_into_ok (l : list (K * A)) :
  forall acc, Forall (fun x => In x U) acc -> Forall (fun x => In x U) l -> StronglySorted (not_above lt) acc ->
  exists r, sort_into lt acc l = Ok r /\
            Permutation r (acc ++ l) /\
            StronglySorted (not_above lt) r.
Proof.
  induction l as [|x l IH]; intros acc Hacc Hl Hs; simpl.
  - exists acc. rewrite app_nil_r. auto.
  - inversion Hl as [|? ? Hx Hl']; subst.
    destruct (insert_sorted_ok x acc Hx Hacc Hs) as (a & Ha & Hpa & Hsa).
    rewrite Ha. cbn [bind].
    destruct (IH a (insert_sorted_in x acc a Hx Hacc Hpa) Hl' Hsa)
      as (r & Hr & Hpr & Hsr).
    exists r. repeat split; auto.
    rewrite Hpr, Hpa. simpl. now rewrite Permutation_middle.
Qed.

(** There is one sorted arrangement of a list of elements of [U]. *)
Lemma sorted_unique (l1 : list (K * A)) :
  forall l2, Forall (fun x => In x U) l1 ->
  StronglySorted (not_above lt) l1 -> StronglySorted (not_above lt) l2 ->
  Permutation l1 l2 -> l1 = l2.
Proof.
  induction l1 as [|a l1 IH]; intros l2 HU H1 H2 Hp.
  - now apply Permutation_nil in Hp.
  - destruct l2 as [|b l2]; [now apply Permutation_sym, Permutation_nil in Hp|].
    inversion HU as [|? ? Ha HU1]; subst.
    apply StronglySorted_inv in H1. destruct H1 as [H1 Ha1].
    apply StronglySorted_inv in H2. destruct H2 as [H2 Hb2].
    assert (HU2 : Forall (fun x => In x U) (b :: l2)) by (apply (perm_Forall _ _ _ Hp); auto).
    inversion HU2 as [|? ? Hb HU2']; subst.
    assert (Hab : a = b).
    { assert (Hina : In a (b :: l2)) by (apply (Permutation_in _ Hp); now left).
      assert (Hinb : In b (a :: l1))
        by (apply (Permutation_in _ (Permutation_sym Hp)); now left).
      destruct Hina as [->|Hina]; [reflexivity|].
      destruct Hinb as [->|Hinb]; [reflexivity|].
      rewrite List.Forall_forall in Ha1, Hb2.
      apply Hanti; auto. }
    subst b. f_equal. apply IH; auto.
    now apply Permutation_cons_inv in Hp.
Qed.

(** Sorting does not depend on the order of the input. *)
Lemma sort_into_perm (l1 l2 : list (K * A)) :
  Forall (fun x => In x U) l1 -> Permutation l1 l2 ->
  sort_into lt [] l1 = sort_into lt [] l2.
Proof.
  intros HU Hp.
  assert (HU2 : Forall (fun x => In x U) l2) by (apply (perm_Forall _ _ _ Hp); auto).
  destruct (sort_into_ok l1 [] (List.Forall_nil _) HU (SSorted_nil _))
    as (r1 & Hr1 & Hp1 & Hs1).
  destruct (sort_into_ok l2 [] (List.Forall_nil _) HU2 (SSorted_nil _))
    as (r2 & Hr2 & Hp2 & Hs2).
  rewrite Hr1, Hr2. f_equal.
  apply sorted_unique; auto.
  - apply (perm_Forall _ l1); [now symmetry | exact HU].
  - simpl in Hp1, Hp2. now rewrite Hp1, Hp2.
Qed.

End Universe.

Lemma decorate_map {K A : Type} (key : A -> result K) (kf : A -> K) (l : list A) :
  (forall x, In x l -> key x = Ok (kf x)) ->
  decorate key l = Ok (map (fun x => (kf x, x)) l).
Proof.
  induction l as [|x l IH]; intros H; simpl; [reflexivity|].
  rewrite (H x (or_introl eq_refl)). cbn [bind].
  rewrite IH; [reflexivity|]. intros y Hy. apply H. now right.
Qed.

End SortFacts.

(** ** The natural order of the catalogue *)

Module NaturalSortFacts.
Import Py AsmPlot Spec PyFacts SortFacts.

Lemma catalog_keys (x : string) :
  In x catalog -> natural_sort_key x = Ok (key_of x).
Proof.
  revert x. apply List.Forall_forall.
  unfold catalog. repeat constructor.
Qed.

Lemma not_above_b_spec (x y : list key_part * string) :
  not_above_b x y = true <-> not_above key_lt x y.
Proof.
  unfold not_above_b, not_above.
  destruct (key_lt (fst y) (fst x)) as [[|]|]; split; congruence.
Qed.

Lemma order_checks_hold :
  order_check decorated_catalog key_defined not_above_b same_name = true.
Proof. vm_compute. reflexivity. Qed.

Lemma total_checks_hold :
  total_check catalog natural_defined String.eqb natural_ltb = true.
Proof. vm_compute. reflexivity. Qed.

Lemma slot_checks_hold : pairwise slot_table slot_rel = true.
Proof. vm_compute. reflexivity. Qed.

Lemma greatest_checks_hold : forallb below_chrY catalog = true.
Proof. vm_compute. reflexivity. Qed.

Lemma pairwise_at {T : Type} (L : list T) (f : T -> T -> bool) :
  pairwise L f = true -> forall a b, In a L -> In b L -> f a b = true.
Proof.
  unfold pairwise. intros H a b Ha Hb.
  rewrite List.forallb_forall in H. specialize (H a Ha).
  rewrite List.forallb_forall in H. exact (H b Hb).
Qed.

Section Checks.
Context {T : Type} (L : list T) (defined rel same : T -> T -> bool).

Lemma order_check_at (x y : T) :
  order_check L defined rel same = true -> In x L -> In y L ->
  defined x y = true /\
  (rel x y = true \/ rel y x = true) /\
  (rel x y = true -> rel y x = true -> same x y = true) /\
  (forall z, In z L -> rel x y = true -> rel y z = true -> rel x z = true).
Proof.
  unfold order_check. intros H Hx Hy.
  rewrite List.forallb_forall in H. specialize (H x Hx).
  rewrite List.forallb_forall in H. specialize (H y Hy).
  rewrite !andb_true_iff in H. destruct H as [[[Hd Hc] Ha] Ht].
  split; [exact Hd|]. split; [now apply orb_true_iff|]. split.
  - intros H1 H2. now rewrite H1, H2 in Ha.
  - intros z Hz H1 H2. rewrite H1 in Ht.
    rewrite List.forallb_forall in Ht. specialize (Ht z Hz).
    now rewrite H2 in Ht.
Qed.

Lemma total_check_at (a b : T) :
  total_check L defined same rel = true -> In a L -> In b L ->
  defined a b = true /\
  (same a b = true \/ rel a b = true \/ rel b a = true) /\
  (rel a b = true -> rel b a = false) /\
  (forall c, In c L -> rel a b = true -> rel b c = true -> rel a c = true).
Proof.
  unfold total_check. intros H Ha Hb.
  rewrite List.forallb_forall in H. specialize (H a Ha).
  rewrite List.forallb_forall in H. specialize (H b Hb).
  rewrite !andb_true_iff in H. destruct H as [[[Hd Hc] Hs] Ht].
  split; [exact Hd|]. split; [|split].
  - rewrite !orb_true_iff in Hc. tauto.
  - intros H1. rewrite H1 in Hs. now apply negb_true_iff in Hs.
  - intros c Hc' H1 H2. rewrite H1 in Ht.
    rewrite List.forallb_forall in Ht. specialize (Ht c Hc').
    now rewrite H2 in Ht.
Qed.
End Checks.

(** The four facts of [order_checks] for two and three elements. *)
Lemma order_checks_at (x y : list key_part * string) :
  In x decorated_catalog -> In y decorated_catalog ->
  (exists b, key_lt (fst x) (fst y) = Ok b) /\
  (not_above key_lt x y \/ not_above key_lt y x) /\
  (not_above key_lt x y -> not_above key_lt y x -> snd x = snd y) /\
  (forall z, In z decorated_catalog ->
     not_above key_lt x y -> not_above key_lt y z -> not_above key_lt x z).
Proof.
  intros Hx Hy.
  destruct (order_check_at decorated_catalog key_defined not_above_b same_name
              x y order_checks_hold Hx Hy) as (Hd & Hc & Ha & Ht).
  unfold key_defined in Hd. unfold same_name in Ha.
  split; [|split; [|split]].
  - destruct (key_lt (fst x) (fst y)) as [b|]; [eauto | discriminate].
  - now rewrite <- !not_above_b_spec.
  - rewrite <- !not_above_b_spec. intros H1 H2. now apply String.eqb_eq, Ha.
  - intros z Hz. rewrite <- !not_above_b_spec. now apply Ht.
Qed.

Lemma decorated_eq (x y : list key_part * string) :
  In x decorated_catalog -> In y decorated_catalog -> snd x = snd y -> x = y.
Proof.
  unfold decorated_catalog. rewrite !in_map_iff.
  intros (a & <- & _) (b & <- & _). simpl. now intros ->.
Qed.

(** Sorting any arrangement of the catalogue gives the same list. *)
Lemma sorted_catalog_perm (l : list string) (reverse : bool) :
  Permutation l catalog ->
  sorted key_lt l natural_sort_key reverse
  = sorted key_lt catalog natural_sort_key reverse.
Proof.
  intros Hp. unfold sorted.
  rewrite (decorate_map _ key_of l), (decorate_map _ key_of catalog);
    [ | apply catalog_keys
      | intros x Hx; apply catalog_keys; now apply (Permutation_in _ Hp) ].
  cbn [bind]. fold decorated_catalog.
  set (dl := map (fun x => (key_of x, x)) l).
  assert (Hdl : Permutation dl decorated_catalog) by now apply Permutation_map.
  assert (Hin : Forall (fun x => In x decorated_catalog)
                  (if reverse then rev dl else dl)).
  { apply List.Forall_forall. intros x Hx. apply (Permutation_in _ Hdl).
    destruct reverse; [now apply in_rev|exact Hx]. }
  rewrite (sort_into_perm key_lt decorated_catalog) with
    (l2 := if reverse then rev decorated_catalog else decorated_catalog).
  - reflexivity.
  - intros x y Hx Hy. apply (order_checks_at x y Hx Hy).
  - intros x y Hx Hy. apply (order_checks_at x y Hx Hy).
  - intros x y z Hx Hy Hz. now apply (order_checks_at x y Hx Hy).
  - intros x y Hx Hy H1 H2. apply decorated_eq; auto.
    now apply (order_checks_at x y Hx Hy).
  - exact Hin.
  - destruct reverse; [|exact Hdl].
    now rewrite <- !Permutation_rev.
Qed.

Lemma natural_ltb_spec (a b : string) :
  natural_ltb a b = true <-> natural_lt a b = Ok true.
Proof.
  unfold natural_ltb. destruct (natural_lt a b) as [[|]|]; split; congruence.
Qed.

Lemma total_checks_at (a b : string) :
  In a catalog -> In b catalog ->
  (exists c, natural_lt a b = Ok c) /\
  (a <> b -> natural_lt a b = Ok true \/ natural_lt b a = Ok true) /\
  (natural_lt a b = Ok true -> natural_lt b a = Ok false) /\
  (forall c, In c catalog ->
     natural_lt a b = Ok true -> natural_lt b c = Ok true -> natural_lt a c = Ok true).
Proof.
  intros Ha Hb.
  destruct (total_check_at catalog natural_defined natural_ltb String.eqb
              a b total_checks_hold Ha Hb) as (Hd & Hc & Hs & Ht).
  destruct (total_check_at catalog natural_defined natural_ltb String.eqb
              b a total_checks_hold Hb Ha) as (Hd' & _).
  unfold natural_defined in Hd, Hd'.
  split; [|split; [|split]].
  - destruct (natural_lt a b) as [c|]; [eauto | discriminate].
  - intros Hne. rewrite <- !natural_ltb_spec.
    destruct Hc as [Hc|Hc]; [|exact Hc].
    apply String.eqb_eq in Hc. contradiction.
  - rewrite <- natural_ltb_spec. intros Hlt. specialize (Hs Hlt).
    unfold natural_ltb in Hs.
    destruct (natural_lt b a) as [[|]|]; [discriminate | reflexivity | discriminate].
  - intros c Hc'. rewrite <- !natural_ltb_spec. now apply Ht.
Qed.

Lemma getitem_In {V : Type} (d : list (string * V)) (k : string) (v : V) :
  getitem d k = Ok v -> In (k, v) d.
Proof.
  unfold getitem.
  destruct (find (fun kv => String.eqb (fst kv) k) d) as [[k' v']|] eqn:E;
    [|discriminate].
  intros [= <-]. apply find_some in E. destruct E as [Hin Hk].
  apply String.eqb_eq in Hk. simpl in Hk. now subst.
Qed.

(** *** The key: runs of digits count as integers, letters without case *)

Lemma lower_char_digit (c : ascii) : is_digit (lower_char c) = is_digit c.
Proof. destruct c as [[] [] [] [] [] [] [] []]; reflexivity. Qed.

Lemma lower_char_idem (c : ascii) : lower_char (lower_char c) = lower_char c.
Proof. destruct c as [[] [] [] [] [] [] [] []]; reflexivity. Qed.

Lemma lower_char_of_digit (c : ascii) : is_digit c = true -> lower_char c = c.
Proof. destruct c as [[] [] [] [] [] [] [] []]; intros H; try reflexivity; discriminate H. Qed.

Lemma lower_idem (t : string) : lower (lower t) = lower t.
Proof. induction t as [|c t IH]; cbn; [reflexivity|]. now rewrite lower_char_idem, IH. Qed.

Lemma isdigit_lower (t : string) : isdigit (lower t) = isdigit t.
Proof.
  destruct t as [|c t]; [reflexivity|]. cbn [lower isdigit list_ascii_of_string forallb].
  rewrite lower_char_digit. f_equal.
  induction t as [|d t IH]; cbn; [reflexivity|]. now rewrite lower_char_digit, IH.
Qed.

Lemma lower_all_digits (t : string) :
  forallb is_digit (list_ascii_of_string t) = true -> lower t = t.
Proof.
  induction t as [|c t IH]; cbn; [reflexivity|].
  intros H. apply andb_true_iff in H. destruct H as [Hc Ht].
  now rewrite (lower_char_of_digit _ Hc), (IH Ht).
Qed.

Lemma lower_of_digits (t : string) : isdigit t = true -> lower t = t.
Proof.
  destruct t as [|c t]; [reflexivity|]. unfold isdigit. apply lower_all_digits.
Qed.

Lemma re_split_digits_lower (s : string) :
  re_split_digits (lower s) = map lower (re_split_digits s).
Proof.
  induction s as [|c r IH]; [reflexivity|].
  cbn [lower re_split_digits]. rewrite IH, lower_char_digit.
  destruct (re_split_digits r) as [|t rest]; [reflexivity|]. cbn [map].
  destruct (is_digit c); [|reflexivity].
  destruct r as [|d r']; [reflexivity|]. cbn [lower].
  destruct rest as [|run rest']; [reflexivity|]. cbn [map].
  rewrite lower_char_digit. now destruct (is_digit d).
Qed.

Lemma key_parts_lower (texts : list string) :
  key_parts (map lower texts) = key_parts texts.
Proof.
  induction texts as [|t texts IH]; [reflexivity|].
  cbn [map key_parts]. rewrite IH, isdigit_lower, lower_idem.
  destruct (isdigit t) eqn:Hd; [|reflexivity].
  now rewrite (lower_of_digits _ Hd).
Qed.

(** The key of a name does not depend on the case of its letters. *)
Lemma natural_sort_key_lower (s : string) :
  natural_sort_key (lower s) = natural_sort_key s.
Proof.
  unfold natural_sort_key. now rewrite re_split_digits_lower, key_parts_lower.
Qed.

Lemma re_split_digits_run (ds : string) :
  isdigit ds = true -> re_split_digits ds = [EmptyString; ds; EmptyString].
Proof.
  destruct ds as [|c r]; [discriminate|]. cbn [isdigit list_ascii_of_string].
  revert c. induction r as [|d r IH]; intros c H; cbn [forallb] in H;
    apply andb_true_iff in H; destruct H as [Hc Hr].
  - cbn. now rewrite Hc.
  - cbn [re_split_digits] in *. rewrite (IH d Hr). rewrite Hc.
    cbn [forallb] in Hr. apply andb_true_iff in Hr. destruct Hr as [Hd _].
    now rewrite Hd.
Qed.

Lemma re_split_digits_prefix (p ds : string) :
  digit_free p = true -> isdigit ds = true ->
  re_split_digits (String.append p ds) = [p; ds; EmptyString].
Proof.
  intros Hp Hds. induction p as [|c p IH].
  - now apply re_split_digits_run.
  - unfold digit_free in Hp. cbn [list_ascii_of_string forallb] in Hp.
    apply andb_true_iff in Hp. destruct Hp as [Hc Hp].
    apply negb_true_iff in Hc.
    change (String.append (String c p) ds) with (String c (String.append p ds)).
    cbn [re_split_digits]. rewrite (IH Hp), Hc. reflexivity.
Qed.

Lemma isdigit_digit_free (p : string) : digit_free p = true -> isdigit p = false.
Proof.
  destruct p as [|c p]; [reflexivity|]. unfold digit_free.
  cbn [isdigit list_ascii_of_string forallb]. intros H.
  apply andb_true_iff in H. destruct H as [Hc _]. apply negb_true_iff in Hc.
  now rewrite Hc.
Qed.

Lemma digit_not_space (c : ascii) : is_digit c = true -> isspace c = false.
Proof. destruct c as [[] [] [] [] [] [] [] []]; intros H; try reflexivity; discriminate H. Qed.

Lemma rstrip_all_digits (t : string) :
  forallb is_digit (list_ascii_of_string t) = true -> rstrip t = t.
Proof.
  induction t as [|c t IH]; cbn [list_ascii_of_string forallb rstrip]; [reflexivity|].
  intros H. apply andb_true_iff in H. destruct H as [Hc Ht].
  rewrite (IH Ht), (digit_not_space _ Hc). now destruct t.
Qed.

Lemma int_digits_total (r : string) :
  forallb is_digit (list_ascii_of_string r) = true ->
  forall acc, exists n, int_digits acc false r = Some n.
Proof.
  induction r as [|c r IH]; cbn [list_ascii_of_string forallb int_digits]; intros H acc.
  - eauto.
  - apply andb_true_iff in H. destruct H as [Hc Hr]. rewrite Hc. apply (IH Hr).
Qed.

(** [int] accepts every non-empty run of digits. *)
Lemma int_value_of_digits (ds : string) :
  isdigit ds = true -> exists n, int_value ds = Some n.
Proof.
  destruct ds as [|c r]; [discriminate|]. unfold isdigit. intros H.
  unfold int_value.
  pose proof H as H'. cbn [list_ascii_of_string forallb] in H'.
  apply andb_true_iff in H'. destruct H' as [Hc Hr].
  rewrite (skip_all_digits _ H).
  destruct (int_digits_total r Hr (digit_val c)) as [n Hn].
  exists n.
  destruct c as [[] [] [] [] [] [] [] []]; try discriminate Hc; exact Hn.
Qed.

(** The key function always returns, [int] being without its limit on
    digits here. *)
Lemma natural_sort_key_total (s : string) : exists k, natural_sort_key s = Ok k.
Proof.
  unfold natural_sort_key. induction (re_split_digits s) as [|t texts [k IH]].
  - now exists [].
  - cbn [key_parts]. rewrite IH. destruct (isdigit t) eqn:Hd.
    + destruct (int_value_of_digits _ Hd) as [n Hn].
      rewrite (int_of_value _ _ Hn). cbn [bind]. eauto.
    + cbn [bind]. eauto.
Qed.

(** The key of a digit-free text followed by one run of digits. *)
Lemma natural_sort_key_numbered (p ds : string) (n : Z) :
  digit_free p = true -> isdigit ds = true -> int_value ds = Some n ->
  natural_sort_key (String.append p ds) = Ok [KStr (lower p); KInt n; KStr EmptyString].
Proof.
  intros Hp Hds Hn. unfold natural_sort_key.
  rewrite (re_split_digits_prefix _ _ Hp Hds). cbn [key_parts].
  rewrite (isdigit_digit_free _ Hp), Hds, (int_of_value _ _ Hn). reflexivity.
Qed.

(** Two names that differ in their number only compare as the numbers. *)
Lemma natural_lt_numbered (p ds1 ds2 : string) (n1 n2 : Z) :
  digit_free p = true ->
  isdigit ds1 = true -> int_value ds1 = Some n1 ->
  isdigit ds2 = true -> int_value ds2 = Some n2 ->
  natural_lt (String.append p ds1) (String.append p ds2) = Ok (n1 <? n2)%Z.
Proof.
  intros Hp Hd1 Hn1 Hd2 Hn2. unfold natural_lt.
  rewrite (natural_sort_key_numbered _ _ _ Hp Hd1 Hn1),
          (natural_sort_key_numbered _ _ _ Hp Hd2 Hn2).
  cbn [bind key_lt part_eqb part_lt]. rewrite String.eqb_refl.
  destruct (n1 =? n2)%Z eqn:E; [|reflexivity].
  apply Z.eqb_eq in E. subst. cbn. now rewrite Z.ltb_irrefl.
Qed.

Lemma same_letter_lower (c d : ascii) :
  same_letter c d = true -> lower_char c = lower_char d.
Proof.
  unfold same_letter, lower_char. intros H.
  apply orb_true_iff in H. destruct H as [H | H];
    [apply orb_true_iff in H; destruct H as [H | H]|].
  - apply Ascii.eqb_eq in H. now subst.
  - apply andb_true_iff in H. destruct H as [H Hn].
    apply andb_true_iff in H. destruct H as [Hlo Hhi].
    apply Nat.leb_le in Hlo, Hhi. apply Nat.eqb_eq in Hn.
    rewrite (proj2 (Nat.leb_le _ _) Hlo), (proj2 (Nat.leb_le _ _) Hhi). cbn [andb].
    rewrite <- Hn.
    rewrite (proj2 (Nat.leb_gt (nat_of_ascii d) 90)) by lia.
    rewrite andb_false_r. now rewrite ascii_nat_embedding.
  - apply andb_true_iff in H. destruct H as [H Hn].
    apply andb_true_iff in H. destruct H as [Hlo Hhi].
    apply Nat.leb_le in Hlo, Hhi. apply Nat.eqb_eq in Hn.
    rewrite (proj2 (Nat.leb_le 65 (nat_of_ascii d)) Hlo),
            (proj2 (Nat.leb_le (nat_of_ascii d) 90) Hhi). cbn [andb].
    rewrite <- Hn.
    rewrite (proj2 (Nat.leb_gt (nat_of_ascii c) 90)) by lia.
    rewrite andb_false_r. now rewrite ascii_nat_embedding.
Qed.

Lemma case_variant_lower (a : string) :
  forall b, case_variant a b = true -> lower a = lower b.
Proof.
  induction a as [|c a IH]; intros [|d b] H; cbn [case_variant] in H; try discriminate.
  - reflexivity.
  - apply andb_true_iff in H. destruct H as [Hc Hab].
    cbn [lower]. now rewrite (same_letter_lower _ _ Hc), (IH b Hab).
Qed.

(** Names that differ in the case of their letters only have the same
    key. *)
Lemma natural_sort_key_case (a b : string) :
  case_variant a b = true -> natural_sort_key a = natural_sort_key b.
Proof.
  intros H. rewrite <- (natural_sort_key_lower a), <- (natural_sort_key_lower b).
  now rewrite (case_variant_lower a b H).
Qed.



End NaturalSortFacts.


(** ** The layout *)

Module LayoutFacts.
Import Py AsmPlot Spec PyFacts ParserFacts NaturalSortFacts.

Lemma bind_ret {A : Type} (m : result A) : (do x <- m; Ok x) = m.
Proof. now destruct m. Qed.

Lemma chroms_sorted :
  sorted key_lt (keys REFERENCE_CHROMOSOMES) natural_sort_key true = Ok (rev expected_order).
Proof. vm_compute. reflexivity. Qed.

Lemma reference_tracks_catalog :
  reference_tracks slot_table = Ok reference_rects /\ length reference_rects = 25%nat.
Proof. vm_compute. split; reflexivity. Qed.

Lemma float_two : float_of_int 2 = Ok f_two.
Proof. reflexivity. Qed.

(** The literals are the floats nearest to their decimal values: each is
    the correctly rounded quotient of two small integers. *)
Lemma float_literals :
  ratio 10 100 = ref_height /\ ratio 5 100 = asm_height /\
  ratio 15 100 = asm_spacing /\ ratio 6 10 = alpha_ref /\
  ratio 255 1 = f255 /\ ratio 1 1 = f_one /\ ratio 2 1 = f_two.
Proof. repeat split; reflexivity. Qed.

(** [plot_data] after its closed first part: the slot table and the
    reference tracks do not depend on the input. *)
Lemma plot_data_loops (files : list (list string)) (colors : list (list (list string)))
    (regions : list RegionRecord) :
  plot_data files colors regions =
    (do overlays <- place_regions slot_table regions;
     do alignments <- place_sources slot_table files colors (seq 0 (length files))
                        asm_spacing;
     Ok (reference_rects ++ overlays ++ alignments)).
Proof.
  unfold plot_data. rewrite chroms_sorted. cbn [bind]. fold slot_table.
  rewrite (proj1 reference_tracks_catalog). reflexivity.
Qed.

Lemma in_catalog_In (c : string) : in_catalog c = true -> In c catalog.
Proof.
  unfold in_catalog, contains, catalog, keys. rewrite existsb_exists.
  intros ([k v] & Hin & Hk). apply String.eqb_eq in Hk. simpl in Hk. subst k.
  apply in_map_iff. now exists (c, v).
Qed.

Lemma slots_defined : forallb slot_defined catalog = true.
Proof. vm_compute. reflexivity. Qed.

(** A catalogue name has a slot, and the slot converts to a float. *)
Lemma slot_lookup (c : string) :
  in_catalog c = true ->
  getitem slot_table c = Ok (slot_of c) /\ float_of_int (slot_of c) = Ok (slot_y c).
Proof.
  intros Hc. apply in_catalog_In in Hc.
  pose proof (proj1 (List.forallb_forall slot_defined catalog) slots_defined c Hc) as H.
  unfold slot_defined in H. unfold slot_y, slot_of.
  destruct (getitem slot_table c) as [s|]; [|discriminate].
  destruct (float_of_int s); [split; reflexivity | discriminate].
Qed.

(** The regions loop keeps the regions of the catalogue, in input order,
    and never raises. *)
Lemma place_regions_catalog (regions : list RegionRecord) :
  place_regions slot_table regions
  = Ok (map region_rect (List.filter (fun r => in_catalog (rchrom r)) regions)).
Proof.
  induction regions as [|r regions IH]; [reflexivity|].
  cbn [place_regions List.filter]. fold (in_catalog (rchrom r)). rewrite IH.
  destruct (in_catalog (rchrom r)) eqn:Hc; [|reflexivity].
  destruct (slot_lookup _ Hc) as [-> Hy]. cbn [bind]. rewrite Hy, float_two.
  reflexivity.
Qed.

Lemma place_alignments_skip (slots : list (string * Z)) (lookup : gmap string string)
    (off : float) (d : AlignmentRecord) (rest : list AlignmentRecord) :
  in_catalog (chrom d) = false ->
  place_alignments slots lookup off (d :: rest) = place_alignments slots lookup off rest.
Proof.
  intros Hc. cbn [place_alignments]. fold (in_catalog (chrom d)). rewrite Hc.
  cbn [bind app]. apply bind_ret.
Qed.

Lemma place_alignments_keep (lookup : gmap string string) (off : float)
    (d : AlignmentRecord) (rest : list AlignmentRecord) (c : string) :
  in_catalog (chrom d) = true -> lookup !! query d = Some c ->
  place_alignments slot_table lookup off (d :: rest)
  = (do more <- place_alignments slot_table lookup off rest;
     Ok (alignment_rect c off d :: more)).
Proof.
  intros Hc Hq. cbn [place_alignments]. fold (in_catalog (chrom d)).
  rewrite Hc, Hq. cbn [bind].
  destruct (slot_lookup _ Hc) as [-> Hy]. cbn [bind]. rewrite Hy. reflexivity.
Qed.

Lemma place_alignments_unknown_query (lookup : gmap string string) (off : float)
    (d : AlignmentRecord) (rest : list AlignmentRecord) :
  in_catalog (chrom d) = true -> lookup !! query d = None ->
  place_alignments slot_table lookup off (d :: rest) = Raise KeyError.
Proof.
  intros Hc Hq. cbn [place_alignments]. fold (in_catalog (chrom d)).
  now rewrite Hc, Hq.
Qed.

(** The outer loop reaches source [i] with the offset [offset_at i]. *)
Lemma place_sources_seq (files : list (list string)) (colors : list (list (list string)))
    (n : nat) :
  forall i,
    place_sources slot_table files colors (seq i n) (offset_at i)
    = collect (map (source_rects files colors) (seq i n)).
Proof.
  induction n as [|n IH]; intros i; [reflexivity|].
  cbn [seq map collect place_sources]. unfold source_rects at 1.
  destruct (index files i) as [file|]; cbn [bind]; [|reflexivity].
  destruct (read_tab_file file) as [data|]; cbn [bind]; [|reflexivity].
  destruct (index colors i) as [rows|]; cbn [bind]; [|reflexivity].
  destruct (read_tsv_to_dict rows) as [lookup|]; cbn [bind]; [|reflexivity].
  destruct (place_alignments slot_table lookup (offset_at i) data); cbn [bind];
    [|reflexivity].
  change (fadd (offset_at i) asm_spacing) with (offset_at (S i)).
  now rewrite IH.
Qed.

(** [plot_data] as the three groups it emits. *)
Lemma plot_data_groups (files : list (list string)) (colors : list (list (list string)))
    (regions : list RegionRecord) :
  plot_data files colors regions =
    (do alignments <- collect (map (source_rects files colors) (seq 0 (length files)));
     Ok (reference_rects
         ++ map region_rect (List.filter (fun r => in_catalog (rchrom r)) regions)
         ++ alignments)).
Proof.
  rewrite plot_data_loops, place_regions_catalog. cbn [bind].
  change asm_spacing with (offset_at 0) at 1.
  now rewrite place_sources_seq.
Qed.

Lemma rstrip_head (c : ascii) (r : string) :
  isspace c = false -> exists r', rstrip (String c r) = String c r'.
Proof.
  intros H. cbn [rstrip]. rewrite H. destruct (rstrip r); eauto.
Qed.

Lemma split_on_head (p : ascii -> bool) (c : ascii) (r : string) :
  p c = false -> exists f fs, split_on p (String c r) = String c f :: fs.
Proof.
  intros H. cbn [split_on]. rewrite H. destruct (split_on p r); eauto.
Qed.

(** A line whose first field is not empty and does not start with [#] is a
    data line: it is not blank and is not a comment. *)
Lemma data_line_of_fields (line f0 : string) (rest : list string) :
  tab_fields line = f0 :: rest ->
  f0 <> EmptyString -> startswith "#" f0 = false ->
  is_data_line line = true.
Proof.
  unfold tab_fields, is_data_line. intros Hf Hne Hhash.
  apply andb_true_iff. split; apply negb_true_iff.
  - apply String.eqb_neq. intros Hs. rewrite Hs in Hf. cbn in Hf. congruence.
  - destruct line as [|c r]; [reflexivity|]. cbn [startswith].
    destruct (Ascii.eqb c "#") eqn:Ec; [|reflexivity]. exfalso.
    apply Ascii.eqb_eq in Ec. subst c.
    unfold strip in Hf.
    change (lstrip (String "#" r)) with (String "#" r) in Hf.
    destruct (rstrip_head "#" r eq_refl) as [r' Hr]. rewrite Hr in Hf.
    destruct (split_on_head (Ascii.eqb TAB) "#" r' eq_refl) as (f & fs & Hsp).
    unfold split in Hf. rewrite Hsp in Hf. injection Hf as <- _.
    cbn in Hhash. discriminate.
Qed.

(** Claim C3. A tab-alignment file made of a header line and one data line
    whose fields 0, 3, 4 and 5 are [q1], [chr1], [1000] and [2000],
    together with a colour file that maps [q1] to [red]: [plot_data] emits,
    after the 25 reference tracks, exactly one rectangle, at [x = 1000],
    of width 1000 and colour [red], on the slot of chr1 (slot 25) raised by
    the spacing of the first source. *)
Theorem one_alignment_end_to_end (header line f1 f2 : string) (rest : list string)
    (rows : list (list string)) (lookup : gmap string string) :
  tab_fields line = "q1" :: f1 :: f2 :: "chr1" :: "1000" :: "2000" :: rest ->
  read_tsv_to_dict rows = Ok lookup ->
  lookup !! "q1" = Some "red" ->
  plot_data [[header; line]] [rows] []
  = Ok (reference_rects
        ++ [mkRect 1000 (fadd (slot_y "chr1") asm_spacing) 1000 asm_height
                   (Named "red") None]) /\
  length reference_rects = 25%nat /\
  getitem slot_table "chr1" = Ok 25%Z /\
  float_of_int 25 = Ok (slot_y "chr1").
Proof.
  intros Hf Hrows Hq.
  split; [|split; [apply reference_tracks_catalog | split; reflexivity]].
  rewrite plot_data_groups.
  cbn [length seq map collect List.filter app]. unfold source_rects.
  cbn [index nth_error bind read_tab_file read_tab_lines].
  rewrite (data_line_of_fields _ _ _ Hf) by (try discriminate; reflexivity).
  rewrite (parse_tab_line_fields _ _ _ _ _ _ _ _ 1000 2000 Hf) by reflexivity.
  cbn [bind]. rewrite Hrows. cbn [bind offset_at].
  rewrite (place_alignments_keep lookup asm_spacing _ [] "red") by (auto; reflexivity).
  reflexivity.
Qed.

(** The seven-field line the specification prints as its example has the
    chromosome in field 4, where the parser reads an integer. *)
Lemma printed_example_line_raises :
  parse_tab_line (tabbed ["q1"; "0"; "100"; "200"; "chr1"; "1000"; "2000"])
  = Raise ValueError.
Proof. reflexivity. Qed.

Lemma one_alignment_end_to_end_witness :
  let line := String.append (tabbed ["q1"; "0"; "100"; "chr1"; "1000"; "2000"])
                            (String LF EmptyString) in
  let rows := [["q1"; "red"]] in
  (tab_fields line = ["q1"; "0"; "100"; "chr1"; "1000"; "2000"] /\
   read_tsv_to_dict rows = Ok {["q1" := "red"]} /\
   ({["q1" := "red"]} : gmap string string) !! "q1" = Some "red") /\
  plot_data [["query_name"; line]] [rows] []
  = Ok (reference_rects
        ++ [mkRect 1000 (fadd (slot_y "chr1") asm_spacing) 1000 asm_height
                   (Named "red") None]).
Proof.
  intros line rows.
  assert (H1 : tab_fields line = ["q1"; "0"; "100"; "chr1"; "1000"; "2000"])
    by reflexivity.
  assert (H2 : read_tsv_to_dict rows = Ok {["q1" := "red"]}) by reflexivity.
  assert (H3 : ({["q1" := "red"]} : gmap string string) !! "q1" = Some "red")
    by reflexivity.
  split; [now repeat split|].
  exact (proj1 (one_alignment_end_to_end "query_name" line "0" "100" [] rows
                  {["q1" := "red"]} H1 H2 H3)).
Defined.

(** *** Stacking of the sources *)

Lemma offsets_equal_5 : offsets_equal 5 = true.
Proof. vm_compute. reflexivity. Qed.

Lemma positions_agree_10 : positions_agree 10 = true.
Proof. vm_compute. reflexivity. Qed.

Lemma first_two_apart_all : forallb first_two_apart catalog = true.
Proof. vm_compute. reflexivity. Qed.

Lemma in_seq_0 (i n : nat) : (i < n)%nat -> In i (seq 0 n).
Proof. intros H. apply in_seq. lia. Qed.

(** Claim C6 fails as stated for its general clause. The running offset of
    the sixth source (i = 5) is not [6 * asm_spacing], and with eleven
    sources that each hold one record on chrY the rectangle of the last
    source (i = 10) is not at the height [slot + 11 * asm_spacing]. *)
Lemma running_offset_is_not_the_product :
  let line := tabbed ["q1"; "0"; "100"; "chrY"; "1000"; "2000"] in
  let files := repeat ["query_name"; line] 11 in
  let colors := repeat [["q1"; "red"]] 11 in
  offset_at 5 <> offset_product 5 /\
  exists (before : list Rectangle) (r : Rectangle),
    plot_data files colors [] = Ok (before ++ [r]) /\
    length before = (25 + 10)%nat /\
    rect_x r = 1000%Z /\ rect_width r = 1000%Z /\
    rect_y r = fadd (slot_y "chrY") (offset_at 10) /\
    rect_y r <> fadd (slot_y "chrY") (offset_product 10).
Proof.
  cbv zeta. split; [vm_compute; discriminate|].
  match goal with
  | |- context [plot_data ?f ?c ?r] =>
      let v := eval vm_compute in (plot_data f c r) in
      match v with
      | Ok ?l =>
          let b := eval vm_compute in (List.removelast l) in
          let x := eval vm_compute in
                     (List.last l (mkRect 0 f_zero 0 f_zero (Named "") None)) in
          exists b, x
      end
  end.
  vm_compute. repeat split; try reflexivity. discriminate.
Qed.

(** Claim C6, amended. Two alignment files with one record each, on the
    same catalogue chromosome and at the same coordinates, with their
    queries in the colour lookups: [plot_data] emits, after the reference
    tracks and the regions, two rectangles with the same [x] and width, the
    first at the slot plus [asm_spacing], the second at the slot plus
    [2 * asm_spacing], at different heights, in the order of the files. In
    general source [i] is placed with the running offset [offset_at i],
    the spacing added [i] times to itself; it is [(i + 1) * asm_spacing]
    for the first five sources, and for the first ten it places every
    rectangle where [(i + 1) * asm_spacing] would. *)
Theorem sources_stack_by_running_offset :
  (forall (f1 f2 : list string) (c1 c2 : list (list string)) (regions : list RegionRecord)
          (d1 d2 : AlignmentRecord) (m1 m2 : gmap string string) (col1 col2 : string),
      read_tab_file f1 = Ok [d1] -> read_tab_file f2 = Ok [d2] ->
      in_catalog (chrom d1) = true ->
      chrom d2 = chrom d1 -> start d2 = start d1 -> end_ d2 = end_ d1 ->
      read_tsv_to_dict c1 = Ok m1 -> m1 !! query d1 = Some col1 ->
      read_tsv_to_dict c2 = Ok m2 -> m2 !! query d2 = Some col2 ->
      let y := slot_y (chrom d1) in
      let x := start d1 in
      let w := (end_ d1 - start d1)%Z in
      plot_data [f1; f2] [c1; c2] regions
      = Ok (reference_rects
            ++ map region_rect (List.filter (fun r => in_catalog (rchrom r)) regions)
            ++ [mkRect x (fadd y asm_spacing) w asm_height (Named col1) None;
                mkRect x (fadd y (fmul f_two asm_spacing)) w asm_height (Named col2) None]) /\
      fadd y asm_spacing <> fadd y (fmul f_two asm_spacing)) /\
  (forall (files : list (list string)) (colors : list (list (list string)))
          (regions : list RegionRecord),
      plot_data files colors regions =
        (do alignments <- collect (map (source_rects files colors) (seq 0 (length files)));
         Ok (reference_rects
             ++ map region_rect (List.filter (fun r => in_catalog (rchrom r)) regions)
             ++ alignments))) /\
  (forall i : nat, (i < 5)%nat -> offset_at i = offset_product i) /\
  (forall (i : nat) (c : string), (i < 10)%nat -> in_catalog c = true ->
      fadd (slot_y c) (offset_at i) = fadd (slot_y c) (offset_product i)).
Proof.
  split; [|split; [|split]].
  - intros f1 f2 c1 c2 regions d1 d2 m1 m2 col1 col2
      Hf1 Hf2 Hc Hchr Hst Hen Hm1 Hq1 Hm2 Hq2 y x w.
    split.
    + rewrite plot_data_groups.
      cbn [length seq map collect]. unfold source_rects.
      cbn [index nth_error bind]. rewrite Hf1, Hf2, Hm1, Hm2. cbn [bind offset_at].
      rewrite (place_alignments_keep m1 _ d1 [] col1 Hc Hq1).
      rewrite (place_alignments_keep m2 _ d2 [] col2) by (rewrite ?Hchr; assumption).
      cbn [place_alignments bind app]. unfold alignment_rect.
      rewrite Hchr, Hst, Hen.
      change (fadd asm_spacing asm_spacing) with (fmul f_two asm_spacing).
      reflexivity.
    + apply in_catalog_In in Hc.
      pose proof (proj1 (List.forallb_forall first_two_apart catalog)
                    first_two_apart_all _ Hc) as H.
      unfold first_two_apart in H. apply negb_true_iff in H.
      now apply bool_decide_eq_false in H.
  - apply plot_data_groups.
  - intros i Hi.
    pose proof (proj1 (List.forallb_forall _ _) offsets_equal_5 i (in_seq_0 i 5 Hi)) as H.
    now apply bool_decide_eq_true in H.
  - intros i c Hi Hc. apply in_catalog_In in Hc.
    pose proof (proj1 (List.forallb_forall _ _) positions_agree_10 i (in_seq_0 i 10 Hi)) as H.
    cbv beta in H.
    pose proof (proj1 (List.forallb_forall _ _) H c Hc) as H'.
    now apply bool_decide_eq_true in H'.
Qed.

Lemma sources_stack_by_running_offset_witness :
  let line := tabbed ["q1"; "0"; "100"; "chr1"; "1000"; "2000"] in
  let file := ["query_name"; line] in
  let d := mkAln "chr1" 1000 2000 "q1" in
  let m1 : gmap string string := {["q1" := "red"]} in
  let m2 : gmap string string := {["q1" := "blue"]} in
  (read_tab_file file = Ok [d] /\ in_catalog (chrom d) = true /\
   read_tsv_to_dict [["q1"; "red"]] = Ok m1 /\ m1 !! query d = Some "red" /\
   read_tsv_to_dict [["q1"; "blue"]] = Ok m2 /\ m2 !! query d = Some "blue") /\
  plot_data [file; file] [[["q1"; "red"]]; [["q1"; "blue"]]] []
  = Ok (reference_rects
        ++ [mkRect 1000 (fadd (slot_y "chr1") asm_spacing) 1000 asm_height
                   (Named "red") None;
            mkRect 1000 (fadd (slot_y "chr1") (fmul f_two asm_spacing)) 1000 asm_height
                   (Named "blue") None]).
Proof.
  intros line file d m1 m2.
  assert (H1 : read_tab_file file = Ok [d]) by reflexivity.
  assert (H2 : in_catalog (chrom d) = true) by reflexivity.
  assert (H3 : read_tsv_to_dict [["q1"; "red"]] = Ok m1) by reflexivity.
  assert (H4 : m1 !! query d = Some "red") by reflexivity.
  assert (H5 : read_tsv_to_dict [["q1"; "blue"]] = Ok m2) by reflexivity.
  assert (H6 : m2 !! query d = Some "blue") by reflexivity.
  split; [now repeat split|].
  exact (proj1 (proj1 sources_stack_by_running_offset file file _ _ [] d d m1 m2
                  "red" "blue" H1 H1 H2 eq_refl eq_refl eq_refl H3 H4 H5 H6)).
Defined.

(** *** Names outside the catalogue *)

Lemma place_alignments_drop (slots : list (string * Z)) (lookup : gmap string string)
    (off : float) (d1 d2 : list AlignmentRecord) (d : AlignmentRecord) :
  in_catalog (chrom d) = false ->
  place_alignments slots lookup off (d1 ++ d :: d2)
  = place_alignments slots lookup off (d1 ++ d2).
Proof.
  intros Hc. induction d1 as [|e d1 IH]; cbn [app].
  - now apply place_alignments_skip.
  - cbn [place_alignments]. now rewrite IH.
Qed.

Lemma filter_drop {T : Type} (f : T -> bool) (l1 l2 : list T) (x : T) :
  f x = false -> List.filter f (l1 ++ x :: l2) = List.filter f (l1 ++ l2).
Proof.
  intros H. rewrite !List.filter_app. cbn [List.filter]. now rewrite H.
Qed.

Lemma read_tab_lines_app (a b : list string) :
  read_tab_lines (a ++ b)
  = (do x <- read_tab_lines a; do y <- read_tab_lines b; Ok (x ++ y)).
Proof.
  induction a as [|l a IH]; cbn [app read_tab_lines bind].
  - symmetry. apply bind_ret.
  - destruct (is_data_line l); [|exact IH].
    destruct (parse_tab_line l); cbn [bind]; [|reflexivity].
    rewrite IH. destruct (read_tab_lines a); cbn [bind]; [|reflexivity].
    destruct (read_tab_lines b); reflexivity.
Qed.

Lemma index_middle {T : Type} (l1 l2 : list T) (x : T) :
  index (l1 ++ x :: l2) (length l1) = Ok x.
Proof.
  unfold index. rewrite nth_error_app2 by lia. now rewrite Nat.sub_diag.
Qed.

Lemma index_other {T : Type} (l1 l2 : list T) (x y : T) (i : nat) :
  i <> length l1 -> index (l1 ++ x :: l2) i = index (l1 ++ y :: l2) i.
Proof.
  unfold index. revert i.
  induction l1 as [|a l1 IH]; intros [|i] H; cbn in *; try congruence.
  apply IH. congruence.
Qed.

(** Taking a line of an unknown chromosome out of a file changes nothing
    in what the source contributes. *)
Lemma source_rects_drop_line (fs1 fs2 : list (list string)) (header line : string)
    (l1 l2 : list string) (colors : list (list (list string))) (d : AlignmentRecord)
    (i : nat) :
  is_data_line line = true -> parse_tab_line line = Ok d ->
  in_catalog (chrom d) = false ->
  source_rects (fs1 ++ (header :: l1 ++ line :: l2) :: fs2) colors i
  = source_rects (fs1 ++ (header :: l1 ++ l2) :: fs2) colors i.
Proof.
  intros Hdata Hparse Hc. unfold source_rects.
  destruct (Nat.eq_dec i (length fs1)) as [->|Hi].
  - rewrite !index_middle. cbn [bind read_tab_file].
    rewrite !read_tab_lines_app. cbn [read_tab_lines]. rewrite Hdata, Hparse.
    destruct (read_tab_lines l1) as [a|]; cbn [bind]; [|reflexivity].
    destruct (read_tab_lines l2) as [b|]; cbn [bind]; [|reflexivity].
    destruct (index colors (length fs1)); cbn [bind]; [|reflexivity].
    destruct (read_tsv_to_dict _); cbn [bind]; [|reflexivity].
    now apply place_alignments_drop.
  - now rewrite (index_other fs1 fs2 _ (header :: l1 ++ l2) i Hi).
Qed.

(** Claim C8. A region or an alignment record whose chromosome is not a key
    of the reference catalogue is left out at placement: alone it gives no
    rectangle and no error (whatever the colour lookup holds), and a layout
    with it equals the layout without it, for regions, for the records of a
    source, and for the line of an alignment file it comes from. *)
Theorem unknown_chromosomes_are_excluded :
  (forall (slots : list (string * Z)) (r : RegionRecord),
      in_catalog (rchrom r) = false -> place_regions slots [r] = Ok []) /\
  (forall (slots : list (string * Z)) (lookup : gmap string string) (off : float)
          (d : AlignmentRecord),
      in_catalog (chrom d) = false -> place_alignments slots lookup off [d] = Ok []) /\
  (forall (files : list (list string)) (colors : list (list (list string)))
          (rs1 rs2 : list RegionRecord) (r : RegionRecord),
      in_catalog (rchrom r) = false ->
      plot_data files colors (rs1 ++ r :: rs2) = plot_data files colors (rs1 ++ rs2)) /\
  (forall (slots : list (string * Z)) (lookup : gmap string string) (off : float)
          (d1 d2 : list AlignmentRecord) (d : AlignmentRecord),
      in_catalog (chrom d) = false ->
      place_alignments slots lookup off (d1 ++ d :: d2)
      = place_alignments slots lookup off (d1 ++ d2)) /\
  (forall (fs1 fs2 : list (list string)) (header line : string) (l1 l2 : list string)
          (colors : list (list (list string))) (regions : list RegionRecord)
          (d : AlignmentRecord),
      is_data_line line = true -> parse_tab_line line = Ok d ->
      in_catalog (chrom d) = false ->
      plot_data (fs1 ++ (header :: l1 ++ line :: l2) :: fs2) colors regions
      = plot_data (fs1 ++ (header :: l1 ++ l2) :: fs2) colors regions).
Proof.
  split; [|split; [|split; [|split]]].
  - intros slots r Hc. cbn [place_regions]. fold (in_catalog (rchrom r)).
    now rewrite Hc.
  - intros slots lookup off d Hc. now rewrite place_alignments_skip.
  - intros files colors rs1 rs2 r Hc. rewrite !plot_data_groups.
    now rewrite (filter_drop (fun r => in_catalog (rchrom r)) rs1 rs2 r Hc).
  - intros slots lookup off d1 d2 d Hc. now apply place_alignments_drop.
  - intros fs1 fs2 header line l1 l2 colors regions d Hdata Hparse Hc.
    rewrite !plot_data_groups.
    replace (length (fs1 ++ (header :: l1 ++ l2) :: fs2))
      with (length (fs1 ++ (header :: l1 ++ line :: l2) :: fs2))
      by (rewrite !length_app; reflexivity).
    rewrite (map_ext _ _ (fun i => source_rects_drop_line fs1 fs2 header line l1 l2
                                     colors d i Hdata Hparse Hc)).
    reflexivity.
Qed.

(** A record on an unplaced contig, with a query the colour file lacks. *)
Lemma unknown_chromosomes_are_excluded_witness :
  let line := tabbed ["q9"; "0"; "100"; "chrUn_1"; "1000"; "2000"] in
  let kept := tabbed ["q1"; "0"; "100"; "chr1"; "1000"; "2000"] in
  let d := mkAln "chrUn_1" 1000 2000 "q9" in
  (is_data_line line = true /\ parse_tab_line line = Ok d /\
   in_catalog (chrom d) = false) /\
  plot_data [["query_name"; kept; line]] [[["q1"; "red"]]] []
  = plot_data [["query_name"; kept]] [[["q1"; "red"]]] [].
Proof.
  intros line kept d.
  assert (H1 : is_data_line line = true) by reflexivity.
  assert (H2 : parse_tab_line line = Ok d) by reflexivity.
  assert (H3 : in_catalog (chrom d) = false) by reflexivity.
  split; [now repeat split|].
  exact (proj2 (proj2 (proj2 (proj2 unknown_chromosomes_are_excluded)))
           [] [] "query_name" line [kept] [] [[["q1"; "red"]]] [] d H1 H2 H3).
Defined.

End LayoutFacts.


(** * Further properties of the code *)

(** ** [parse_paf.py]: outcomes, invariants of a record, reading and writing *)

Module PafFileFacts.
Import Py ParsePaf PyText PafOutput Spec PyFacts ParsePafFacts.

(** The parser on a line of at least twelve fields, whatever they hold. *)
Lemma parse_paf_line_twelve (line : string) (m : Z)
    (f0 f1 f2 f3 f4 f5 f6 f7 f8 f9 f10 f11 : string) (tags : list string) :
  tab_fields line = f0 :: f1 :: f2 :: f3 :: f4 :: f5 :: f6 :: f7 :: f8 :: f9 :: f10 :: f11 :: tags ->
  parse_paf_line line m =
    match int_value f9 with
    | None => Raise ValueError
    | Some n =>
        if (n <? m)%Z then Ok None
        else
          do tg <- scan_tags (None, None) tags;
          if tp_not_primary (fst tg) || is_none (snd tg) then Ok None
          else Ok (Some (mkPaf f0 f2 f3 f5 f7 f8 f6 (fst tg) (snd tg)))
    end.
Proof.
  intros Hf. unfold parse_paf_line. rewrite Hf.
  cbn [length Nat.ltb Nat.leb index nth_error bind skipn].
  change (skipn 0 tags) with tags. unfold int.
  destruct (int_value f9) as [n|]; [|reflexivity]. cbn [bind].
  destruct (n <? m)%Z; reflexivity.
Qed.

Lemma well_formed_tag_dec (f : string) : {well_formed_tag f} + {~ well_formed_tag f}.
Proof. unfold well_formed_tag. apply Nat.eq_dec. Qed.

(** The scanning loop either sees only well-formed tags and ends with the
    last [tp] and [de] values, or meets a malformed one and raises. *)
Lemma scan_tags_cases (tags : list string) :
  (Forall well_formed_tag tags /\
   scan_tags (None, None) tags = Ok (last_tag "tp" tags, last_tag "de" tags)) \/
  (Exists (fun f => ~ well_formed_tag f) tags /\
   scan_tags (None, None) tags = Raise ValueError).
Proof.
  destruct (List.Forall_Exists_dec well_formed_tag well_formed_tag_dec tags) as [H|H].
  - left. split; [exact H|]. rewrite (scan_tags_last _ H). cbn [fst snd].
    now destruct (last_tag "tp" tags), (last_tag "de" tags).
  - right. split; [exact H|]. now apply scan_tags_malformed.
Qed.

(** *** Pieces of a split contain no separator *)

Lemma split_on_sep_free (p : ascii -> bool) (s : string) :
  Forall (fun f => forallb (fun c => negb (p c)) (list_ascii_of_string f) = true)
         (split_on p s).
Proof.
  induction s as [|c r IH]; cbn [split_on].
  - repeat constructor.
  - destruct (p c) eqn:Hc.
    + constructor; [reflexivity | exact IH].
    + destruct (split_on p r) as [|f fs]; inversion IH; subst.
      * repeat constructor. cbn. now rewrite Hc.
      * constructor; [|assumption]. cbn. now rewrite Hc.
Qed.

Lemma split_on_pieces_free (p q : ascii -> bool) (s : string) :
  forallb (fun c => negb (q c)) (list_ascii_of_string s) = true ->
  Forall (fun f => forallb (fun c => negb (q c)) (list_ascii_of_string f) = true)
         (split_on p s).
Proof.
  induction s as [|c r IH]; cbn [split_on list_ascii_of_string forallb]; intros H.
  - repeat constructor.
  - apply andb_true_iff in H. destruct H as [Hc Hr]. specialize (IH Hr).
    destruct (p c).
    + constructor; [reflexivity | exact IH].
    + destruct (split_on p r) as [|f fs]; inversion IH; subst.
      * repeat constructor. cbn. now rewrite Hc.
      * constructor; [|assumption]. cbn. now rewrite Hc.
Qed.

Lemma tab_fields_tab_free (line : string) :
  Forall (fun f => tab_free f = true) (tab_fields line).
Proof. unfold tab_fields, split, tab_free. apply split_on_sep_free. Qed.

Lemma tag_named_tab_free (name field v : string) :
  tab_free field = true -> tag_named name field = Some v -> tab_free v = true.
Proof.
  unfold tag_named, tab_free. intros Hf.
  pose proof (split_on_pieces_free (Ascii.eqb ":") (Ascii.eqb TAB) field Hf) as H.
  fold (split ":" field) in H.
  destruct (split ":" field) as [|tag [|ty [|value [|? ?]]]]; try discriminate.
  destruct (String.eqb tag name); [|discriminate]. intros [= <-].
  apply List.Forall_cons_iff in H. destruct H as [_ H].
  apply List.Forall_cons_iff in H. destruct H as [_ H].
  apply List.Forall_cons_iff in H. now destruct H as [H _].
Qed.

Lemma last_tag_tab_free (name : string) (tags : list string) (v : string) :
  Forall (fun f => tab_free f = true) tags ->
  last_tag name tags = Some v -> tab_free v = true.
Proof.
  induction 1 as [|f tags Hf _ IH]; cbn [last_tag]; [discriminate|].
  destruct (last_tag name tags) as [w|].
  - intros [= <-]. now apply IH.
  - now apply tag_named_tab_free.
Qed.

(** What holds of a line and of the record the parser returns for it. *)
Lemma parse_paf_line_retained (line : string) (m : Z) (r : PafRecord) :
  parse_paf_line line m = Ok (Some r) ->
  exists f0 f1 f2 f3 f4 f5 f6 f7 f8 f9 f10 f11 tags n,
    tab_fields line
    = f0 :: f1 :: f2 :: f3 :: f4 :: f5 :: f6 :: f7 :: f8 :: f9 :: f10 :: f11 :: tags /\
    int_value f9 = Some n /\ (m <= n)%Z /\
    Forall well_formed_tag tags /\
    primary (last_tag "tp" tags) /\ (exists d, last_tag "de" tags = Some d) /\
    r = mkPaf f0 f2 f3 f5 f7 f8 f6 (last_tag "tp" tags) (last_tag "de" tags).
Proof.
  intros H.
  destruct (Nat.lt_ge_cases (length (tab_fields line)) 12) as [Hs|Hl].
  - rewrite (parse_paf_line_short _ _ Hs) in H. discriminate.
  - destruct (twelve_fields _ Hl)
      as (f0 & f1 & f2 & f3 & f4 & f5 & f6 & f7 & f8 & f9 & f10 & f11 & tags & Hf).
    rewrite (parse_paf_line_twelve _ m _ _ _ _ _ _ _ _ _ _ _ _ _ Hf) in H.
    destruct (int_value f9) as [n|] eqn:Hn; [|discriminate].
    destruct (n <? m)%Z eqn:Hlt; [discriminate|]. apply Z.ltb_ge in Hlt.
    destruct (scan_tags_cases tags) as [[Hwf Hs] | [_ Hs]]; rewrite Hs in H;
      cbn [bind fst snd] in H; [|discriminate].
    destruct (tp_not_primary (last_tag "tp" tags)) eqn:Htp; [discriminate|].
    destruct (last_tag "de" tags) as [d|] eqn:Hde; [|discriminate].
    cbn [orb is_none] in H. injection H as Hr.
    exists f0, f1, f2, f3, f4, f5, f6, f7, f8, f9, f10, f11, tags, n.
    split; [exact Hf|]. split; [exact Hn|]. split; [exact Hlt|].
    split; [exact Hwf|]. split; [now apply tp_not_primary_false|].
    split; [now exists d | congruence].
Qed.

(** The nine values of a returned record contain no tab. *)
Lemma retained_values_tab_free (line : string) (m : Z) (r : PafRecord) :
  parse_paf_line line m = Ok (Some r) ->
  Forall (fun v => tab_free v = true) (paf_values r).
Proof.
  intros H. destruct (parse_paf_line_retained _ _ _ H)
    as (f0 & f1 & f2 & f3 & f4 & f5 & f6 & f7 & f8 & f9 & f10 & f11 & tags & n
        & Hf & _ & _ & _ & Hp & [d Hd] & ->).
  pose proof (tab_fields_tab_free line) as Hfree. rewrite Hf in Hfree.
  repeat match goal with
         | H : Forall _ (_ :: _) |- _ => apply List.Forall_cons_iff in H; destruct H
         end.
  assert (Htags : Forall (fun f => tab_free f = true) tags) by assumption.
  unfold paf_values. cbn [query_name query_start query_end target_name ref_pos_start
                          ref_pos_end ref_seq_len tp de].
  destruct Hp as [Hp|Hp]; rewrite Hp, Hd; cbn [str_value];
    repeat (apply List.Forall_cons; [try assumption; try reflexivity|]);
    try apply List.Forall_nil;
    now apply (last_tag_tab_free "de" tags).
Qed.

Lemma parse_paf_line_only_ValueError (line : string) (m : Z) (e : exn) :
  parse_paf_line line m = Raise e -> e = ValueError.
Proof.
  intros H.
  destruct (Nat.lt_ge_cases (length (tab_fields line)) 12) as [Hs|Hl].
  - rewrite (parse_paf_line_short _ _ Hs) in H. discriminate.
  - destruct (twelve_fields _ Hl)
      as (f0 & f1 & f2 & f3 & f4 & f5 & f6 & f7 & f8 & f9 & f10 & f11 & tags & Hf).
    rewrite (parse_paf_line_twelve _ m _ _ _ _ _ _ _ _ _ _ _ _ _ Hf) in H.
    destruct (int_value f9) as [n|]; [|congruence].
    destruct (n <? m)%Z; [discriminate|].
    destruct (scan_tags_cases tags) as [[_ Hs] | [_ Hs]]; rewrite Hs in H;
      cbn [bind] in H; [|congruence].
    destruct (tp_not_primary _ || is_none _); discriminate.
Qed.



(** Whatever the line, a record the parser returns comes from at least
    twelve fields with an integer in field 9 that reaches the threshold, has
    a [tp] of ['P'] or ['I'] and a [de], and none of its nine values
    contains a tab. *)
Theorem paf_record_invariants (line : string) (min_length : Z) (r : PafRecord) :
  parse_paf_line line min_length = Ok (Some r) ->
  (12 <= length (tab_fields line))%nat /\
  (exists (f9 : string) (n : Z),
      nth_error (tab_fields line) 9 = Some f9 /\ int_value f9 = Some n /\
      (min_length <= n)%Z) /\
  (tp r = Some "P" \/ tp r = Some "I") /\
  (exists d : string, de r = Some d) /\
  Forall (fun v => tab_free v = true) (paf_values r).
Proof.
  intros H. pose proof (retained_values_tab_free _ _ _ H) as Hfree.
  destruct (parse_paf_line_retained _ _ _ H)
    as (f0 & f1 & f2 & f3 & f4 & f5 & f6 & f7 & f8 & f9 & f10 & f11 & tags & n
        & Hf & Hn & Hm & _ & Hp & Hd & ->).
  rewrite Hf. split; [cbn; lia|]. split; [exists f9, n; now repeat split|].
  split; [exact Hp|]. split; [exact Hd | exact Hfree].
Qed.

Lemma paf_record_invariants_witness :
  let line := tabbed ["q1"; "1000"; "0"; "900"; "+"; "chr1"; "248387328"; "100"; "1000";
                      "900"; "900"; "60"; "tp:A:P"; "de:f:0.01"] in
  let r := mkPaf "q1" "0" "900" "chr1" "100" "1000" "248387328" (Some "P") (Some "0.01") in
  parse_paf_line line 100 = Ok (Some r) /\
  Forall (fun v => tab_free v = true) (paf_values r).
Proof.
  intros line r.
  assert (H : parse_paf_line line 100 = Ok (Some r)) by reflexivity.
  split; [exact H|].
  exact (proj2 (proj2 (proj2 (proj2 (paf_record_invariants line 100 r H))))).
Defined.

(** *** Reading a file *)

Lemma parse_paf_line_raise_threshold (line : string) (m1 m2 : Z) (o : option PafRecord) :
  (m1 <= m2)%Z -> parse_paf_line line m1 = Ok o ->
  parse_paf_line line m2 = Ok None \/ parse_paf_line line m2 = Ok o.
Proof.
  intros Hm H.
  destruct (Nat.lt_ge_cases (length (tab_fields line)) 12) as [Hs|Hl].
  - left. now apply parse_paf_line_short.
  - destruct (twelve_fields _ Hl)
      as (f0 & f1 & f2 & f3 & f4 & f5 & f6 & f7 & f8 & f9 & f10 & f11 & tags & Hf).
    rewrite (parse_paf_line_twelve _ m1 _ _ _ _ _ _ _ _ _ _ _ _ _ Hf) in H.
    rewrite (parse_paf_line_twelve _ m2 _ _ _ _ _ _ _ _ _ _ _ _ _ Hf).
    destruct (int_value f9) as [n|]; [|discriminate].
    destruct (n <? m2)%Z eqn:H2; [now left|]. right.
    apply Z.ltb_ge in H2.
    now rewrite (proj2 (Z.ltb_ge n m1)) in H by lia.
Qed.

(** Raising the threshold never makes a readable file unreadable, and only
    removes records: what is read is a sublist of what was read before. *)
Theorem read_paf_threshold_monotone (lines : list string) (m1 m2 : Z)
    (l1 : list PafRecord) :
  (m1 <= m2)%Z -> read_paf lines m1 = Ok l1 ->
  exists l2 : list PafRecord, read_paf lines m2 = Ok l2 /\ sublist l2 l1.
Proof.
  intros Hm. revert l1.
  induction lines as [|line lines IH]; cbn [read_paf]; intros l1 H.
  - injection H as <-. now exists [].
  - destruct (parse_paf_line line m1) as [o|] eqn:Ho; cbn [bind] in H; [|discriminate].
    destruct (read_paf lines m1) as [t1|]; cbn [bind] in H; [|discriminate].
    injection H as <-. destruct (IH t1 eq_refl) as (t2 & -> & Hsub).
    destruct (parse_paf_line_raise_threshold _ _ _ _ Hm Ho) as [-> | ->]; cbn [bind].
    + exists t2. split; [reflexivity|].
      destruct o; [now apply sublist_cons | exact Hsub].
    + exists (match o with Some r => r :: t2 | None => t2 end).
      split; [reflexivity|]. destruct o; [now apply sublist_skip | exact Hsub].
Qed.

Lemma read_paf_threshold_monotone_witness :
  let keep := tabbed ["q1"; "1000"; "0"; "900"; "+"; "chr1"; "248387328"; "100"; "1000";
                      "900"; "900"; "60"; "tp:A:P"; "de:f:0.01"] in
  let bad := tabbed ["q2"; "1000"; "0"; "50"; "+"; "chr1"; "248387328"; "100"; "150";
                     "50"; "50"; "60"; "tp:A:P"; "de:f:0.01"; "zd"] in
  let r := mkPaf "q1" "0" "900" "chr1" "100" "1000" "248387328" (Some "P") (Some "0.01") in
  ((100 <= 1000)%Z /\ read_paf [keep; bad] 100 = Ok [r]) /\
  exists l2, read_paf [keep; bad] 1000 = Ok l2 /\ sublist l2 [r].
Proof.
  intros keep bad r.
  assert (H1 : (100 <= 1000)%Z) by lia.
  assert (H2 : read_paf [keep; bad] 100 = Ok [r]) by reflexivity.
  split; [now split|].
  exact (read_paf_threshold_monotone [keep; bad] 100 1000 [r] H1 H2).
Defined.

Lemma read_paf_raise (lines : list string) (m : Z) (e : exn) :
  read_paf lines m = Raise e ->
  exists before bad after,
    lines = before ++ bad :: after /\
    Forall (fun l => exists o, parse_paf_line l m = Ok o) before /\
    parse_paf_line bad m = Raise e.
Proof.
  induction lines as [|line lines IH]; cbn [read_paf]; [discriminate|].
  destruct (parse_paf_line line m) as [o|e'] eqn:Ho; cbn [bind].
  - destruct (read_paf lines m) as [rs|e'']; cbn [bind]; [discriminate|].
    intros [= ->]. destruct (IH eq_refl) as (before & bad & after & -> & Hb & Hbad).
    exists (line :: before), bad, after. repeat split; auto.
    constructor; [eauto | exact Hb].
  - intros [= ->]. exists [], line, lines. repeat split; auto.
Qed.

Lemma read_paf_first_raise (before after : list string) (bad : string) (m : Z) (e : exn) :
  Forall (fun l => exists o, parse_paf_line l m = Ok o) before ->
  parse_paf_line bad m = Raise e ->
  read_paf (before ++ bad :: after) m = Raise e.
Proof.
  intros Hb Hbad. induction Hb as [|l before [o Ho] _ IH]; cbn [app read_paf].
  - now rewrite Hbad.
  - now rewrite Ho, IH.
Qed.

(** Reading a file fails exactly when a line fails, with the exception of
    the first such line, which is a [ValueError]; the lines after it are
    not reached. *)
Theorem read_paf_fails_at_first_bad_line (lines : list string) (min_length : Z) (e : exn) :
  read_paf lines min_length = Raise e <->
  e = ValueError /\
  exists (before : list string) (bad : string) (after : list string),
    lines = before ++ bad :: after /\
    Forall (fun l => exists o, parse_paf_line l min_length = Ok o) before /\
    parse_paf_line bad min_length = Raise ValueError.
Proof.
  split.
  - intros H. destruct (read_paf_raise _ _ _ H) as (before & bad & after & Hl & Hb & Hbad).
    pose proof (parse_paf_line_only_ValueError _ _ _ Hbad) as ->.
    split; [reflexivity|]. now exists before, bad, after.
  - intros (-> & before & bad & after & -> & Hb & Hbad).
    now apply read_paf_first_raise.
Qed.

Lemma read_paf_fails_at_first_bad_line_witness :
  let good := tabbed ["q1"; "1000"; "0"; "900"; "+"; "chr1"; "248387328"; "100"; "1000";
                      "900"; "900"; "60"; "tp:A:P"; "de:f:0.01"] in
  let bad := tabbed ["q2"; "1000"; "0"; "900"; "+"; "chr1"; "248387328"; "100"; "1000";
                     "many"; "900"; "60"] in
  read_paf ["short line"; good; bad; "not reached"] 100 = Raise ValueError.
Proof.
  intros good bad.
  apply (proj2 (read_paf_fails_at_first_bad_line _ 100 ValueError)).
  split; [reflexivity|]. exists ["short line"; good], bad, ["not reached"].
  split; [reflexivity|]. split; [|reflexivity].
  repeat (apply List.Forall_cons; [eexists; reflexivity|]). apply List.Forall_nil.
Defined.

(** *** Writing the table *)

Lemma read_paf_records (lines : list string) (m : Z) (rs : list PafRecord) :
  read_paf lines m = Ok rs ->
  Forall (fun r => exists line, In line lines /\ parse_paf_line line m = Ok (Some r)) rs.
Proof.
  revert rs. induction lines as [|line lines IH]; cbn [read_paf]; intros rs H.
  - injection H as <-. constructor.
  - destruct (parse_paf_line line m) as [o|] eqn:Ho; cbn [bind] in H; [|discriminate].
    destruct (read_paf lines m) as [t|]; cbn [bind] in H; [|discriminate].
    injection H as <-.
    assert (Ht : Forall (fun r => exists l, In l (line :: lines) /\
                                   parse_paf_line l m = Ok (Some r)) t).
    { eapply List.Forall_impl; [|exact (IH t eq_refl)].
      intros r (l & Hin & Hl). exists l. split; [now right | exact Hl]. }
    destruct o as [r|]; [|exact Ht].
    constructor; [|exact Ht]. exists line. split; [now left | exact Ho].
Qed.

Lemma join_tab_split (vals : list string) :
  vals <> [] -> Forall (fun v => tab_free v = true) vals ->
  split TAB (join tab vals) = vals.
Proof. apply split_tabbed. Qed.

(** What [main] writes is a table: nothing at all when no record is
    retained, otherwise the header followed by one row per record, in
    order; and each written line, before its newline, splits on tabs into
    exactly nine fields, the column names for the header and the values of
    the record for a row. *)
Theorem paf_table_round_trip (lines : list string) (min_length : Z) (out : list string) :
  main lines min_length = Ok out ->
  exists rs : list PafRecord,
    read_paf lines min_length = Ok rs /\
    (rs = [] -> out = []) /\
    (rs <> [] ->
       exists rows : list string,
         out = String.append (join tab paf_keys) newline :: rows /\
         Forall2 (fun row r =>
                    row = String.append (join tab (paf_values r)) newline /\
                    split TAB (join tab (paf_values r)) = paf_values r /\
                    length (paf_values r) = 9%nat)
                 rows rs) /\
    split TAB (join tab paf_keys) = paf_keys /\ length paf_keys = 9%nat.
Proof.
  unfold main. intros H.
  destruct (read_paf lines min_length) as [rs|] eqn:Hrs; cbn [bind] in H; [|discriminate].
  injection H as <-. exists rs. split; [reflexivity|].
  split; [now intros ->|]. split; [|split; reflexivity].
  intros Hne. destruct rs as [|r0 rs0] eqn:E; [contradiction|]. rewrite <- E in *.
  exists (map (fun a => String.append (join tab (paf_values a)) newline) rs).
  split; [now rewrite E|].
  pose proof (read_paf_records _ _ _ Hrs) as Hrec. clear E Hne Hrs.
  induction Hrec as [|r rs' (line & _ & Hline) _ IH]; cbn [map]; constructor; [|exact IH].
  split; [reflexivity|]. split; [|reflexivity].
  apply join_tab_split; [discriminate|].
  exact (retained_values_tab_free _ _ _ Hline).
Qed.

Lemma paf_table_round_trip_witness :
  let good := tabbed ["q1"; "1000"; "0"; "900"; "+"; "chr1"; "248387328"; "100"; "1000";
                      "900"; "900"; "60"; "tp:A:P"; "de:f:"] in
  let out := [String.append (join tab paf_keys) newline;
              String.append
                (join tab ["q1"; "0"; "900"; "chr1"; "100"; "1000"; "248387328"; "P"; ""])
                newline] in
  main ["short line"; good] 100 = Ok out /\
  exists rs : list PafRecord, read_paf ["short line"; good] 100 = Ok rs /\ length rs = 1%nat.
Proof.
  intros good out.
  assert (H : main ["short line"; good] 100 = Ok out) by reflexivity.
  split; [exact H|].
  destruct (paf_table_round_trip _ _ _ H) as (rs & Hrs & _).
  exists rs. split; [exact Hrs|].
  vm_compute in Hrs. now injection Hrs as <-.
Defined.

End PafFileFacts.


(** ** [find_scaffolds.py]: the runs of N *)

Module ScaffoldFacts.
Import Py PyText FindScaffolds ScaffoldNotions Spec PyFacts.

Lemma skipn_cons_inv {T : Type} (l : list T) (pos : nat) (c : T) (r : list T) :
  skipn pos l = c :: r -> nth_error l pos = Some c /\ skipn (S pos) l = r.
Proof.
  revert l. induction pos as [|pos IH]; intros [|x l] H; cbn in *; try discriminate.
  - injection H as -> ->. auto.
  - now apply IH.
Qed.

Lemma skipn_nil_inv {T : Type} (l : list T) (pos : nat) :
  skipn pos l = [] -> (length l <= pos)%nat.
Proof.
  revert l. induction pos as [|pos IH]; intros [|x l] H; cbn in *; try discriminate; try lia.
  apply IH in H. lia.
Qed.

Lemma N_at_beyond (l : list ascii) (i : nat) : (length l <= i)%nat -> N_at l i = false.
Proof. intros H. unfold N_at. now rewrite (proj2 (nth_error_None l i) H). Qed.

(** Every run the scan reports is a maximal run of N. *)
Lemma finditer_N_sound (l : list ascii) (r : list ascii) :
  forall pos run,
    skipn pos l = r -> (pos <= length l)%nat -> scan_state l pos run ->
    Forall (maximal_run l) (finditer_N r pos run).
Proof.
  induction r as [|c r IH]; intros pos run Hr Hpos Hst; cbn [finditer_N].
  - apply skipn_nil_inv in Hr.
    destruct run as [st|]; [|constructor].
    destruct Hst as (Hlt & Hall & Hleft).
    constructor; [|constructor]. unfold maximal_run. cbn [fst snd].
    repeat split; auto; try lia. apply N_at_beyond. lia.
  - apply skipn_cons_inv in Hr. destruct Hr as [Hc Hr].
    assert (Hlen : (S pos <= length l)%nat).
    { apply Nat.le_succ_l. apply nth_error_Some. congruence. }
    assert (HN : N_at l pos = is_N c) by (unfold N_at; now rewrite Hc).
    destruct (is_N c) eqn:Ec.
    + apply IH; auto. destruct run as [st|]; cbn [scan_state] in *.
      * destruct Hst as (Hlt & Hall & Hleft). repeat split; auto.
        intros i Hi. destruct (Nat.eq_dec i pos) as [->|]; [exact HN|]. apply Hall. lia.
      * repeat split; auto. intros i Hi. now replace i with pos by lia.
    + assert (Hnext : scan_state l (S pos) None).
      { right. now replace (S pos - 1)%nat with pos by lia. }
      destruct run as [st|]; [|now apply IH].
      destruct Hst as (Hlt & Hall & Hleft).
      constructor; [|now apply IH].
      unfold maximal_run. cbn [fst snd]. repeat split; auto; lia.
Qed.

(** Runs start where the scan stands, or where the open run started. *)
Lemma finditer_N_starts (r : list ascii) :
  forall pos run,
    Forall (fun m => match run with
                     | None => (pos <= fst m)%nat
                     | Some st => fst m = st \/ (pos < fst m)%nat
                     end)
           (finditer_N r pos run).
Proof.
  induction r as [|c r IH]; intros pos run; cbn [finditer_N].
  - destruct run; repeat constructor.
  - destruct (is_N c).
    + specialize (IH (S pos) (Some (match run with Some st => st | None => pos end))).
      eapply List.Forall_impl; [|exact IH]. cbn beta.
      intros m Hm. destruct run; cbn in Hm |- *; lia.
    + assert (Ht : Forall (fun m => (pos < fst m)%nat) (finditer_N r (S pos) None)).
      { eapply List.Forall_impl; [|exact (IH (S pos) None)]. intros m Hm; cbn in Hm; lia. }
      destruct run as [st|].
      * constructor; [now left|].
        eapply List.Forall_impl; [|exact Ht]. cbn beta. intros; now right.
      * eapply List.Forall_impl; [|exact Ht]. cbn beta. intros; lia.
Qed.

(** Consecutive runs are separated by at least one character. *)
Lemma finditer_N_separated (r : list ascii) :
  forall pos run,
    StronglySorted (fun a b => (snd a < fst b)%nat) (finditer_N r pos run).
Proof.
  induction r as [|c r IH]; intros pos run; cbn [finditer_N].
  - destruct run; repeat constructor.
  - destruct (is_N c); [apply IH|].
    destruct run as [st|]; [|apply IH].
    constructor; [apply IH|].
    eapply List.Forall_impl; [|exact (finditer_N_starts r (S pos) None)].
    cbn [fst snd]. intros; lia.
Qed.

(** Every N the scan has read or will read lies in a reported run. *)
Lemma finditer_N_complete (l : list ascii) (r : list ascii) :
  forall pos run,
    skipn pos l = r ->
    (forall st, run = Some st -> (st <= pos)%nat) ->
    forall i,
      N_at l i = true ->
      ((pos <= i)%nat \/ exists st, run = Some st /\ (st <= i)%nat) ->
      exists m, In m (finditer_N r pos run) /\ (fst m <= i < snd m)%nat.
Proof.
  induction r as [|c r IH]; intros pos run Hr Hrun i Hi Hrange; cbn [finditer_N].
  - apply skipn_nil_inv in Hr.
    assert (Hlt : (i < pos)%nat).
    { destruct (Nat.lt_ge_cases i pos); [assumption|].
      rewrite N_at_beyond in Hi by lia. discriminate. }
    destruct Hrange as [Hge | (st & -> & Hst)]; [lia|].
    exists (st, pos). split; [now left | cbn; lia].
  - apply skipn_cons_inv in Hr. destruct Hr as [Hc Hr].
    assert (HN : N_at l pos = is_N c) by (unfold N_at; now rewrite Hc).
    destruct (is_N c) eqn:Ec.
    + apply (IH _ _ Hr); [| exact Hi |].
      * intros st' [= <-]. destruct run as [st|]; [specialize (Hrun st eq_refl)|]; lia.
      * destruct Hrange as [Hge | (st & -> & Hst)].
        -- destruct (Nat.eq_dec i pos) as [->|]; [|left; lia].
           right. eexists. split; [reflexivity|].
           destruct run as [st|]; [exact (Hrun st eq_refl) | lia].
        -- right. exists st. now split.
    + assert (Hne : i <> pos) by (intros ->; congruence).
      assert (Hnone : forall st, @None nat = Some st -> (st <= S pos)%nat) by discriminate.
      destruct run as [st|].
      * destruct (Nat.lt_ge_cases i pos) as [Hlt|Hge].
        -- destruct Hrange as [Hge | (st' & [= <-] & Hst)]; [lia|].
           exists (st, pos). split; [now left | cbn; lia].
        -- destruct (IH _ None Hr Hnone i Hi) as (m & Hm & Hin); [left; lia|].
           exists m. split; [now right | exact Hin].
      * destruct Hrange as [Hge | (st' & Hst & _)]; [|discriminate].
        apply (IH _ None Hr Hnone i Hi). left. lia.
Qed.

(** The runs span as many characters as there are N's. *)
Lemma finditer_N_span (r : list ascii) :
  forall pos run,
    (forall st, run = Some st -> (st <= pos)%nat) ->
    fold_right (fun m acc => (snd m - fst m + acc)%nat) 0%nat (finditer_N r pos run)
    = (length (List.filter is_N r)
       + match run with Some st => pos - st | None => 0 end)%nat.
Proof.
  induction r as [|c r IH]; intros pos run Hrun; cbn [finditer_N List.filter].
  - destruct run as [st|]; cbn; lia.
  - destruct (is_N c).
    + rewrite IH.
      * cbn [length]. destruct run as [st|]; [specialize (Hrun st eq_refl)|]; lia.
      * intros st' [= <-]. destruct run as [st|]; [specialize (Hrun st eq_refl)|]; lia.
    + destruct run as [st|]; cbn [fold_right fst snd]; rewrite IH by discriminate; lia.
Qed.

Lemma length_list_ascii (s : string) :
  length (list_ascii_of_string s) = String.length s.
Proof. induction s as [|c s IH]; cbn; congruence. Qed.

(** Two maximal runs that share a position are the same run. *)
Lemma maximal_run_unique (l : list ascii) (m1 m2 : nat * nat) (i : nat) :
  maximal_run l m1 -> maximal_run l m2 ->
  (fst m1 <= i < snd m1)%nat -> (fst m2 <= i < snd m2)%nat -> m1 = m2.
Proof.
  destruct m1 as [a1 b1], m2 as [a2 b2]. unfold maximal_run. cbn [fst snd].
  intros (Hlt1 & Hlen1 & Hall1 & Hleft1 & Hright1) (Hlt2 & Hlen2 & Hall2 & Hleft2 & Hright2)
         Hi1 Hi2.
  assert (Ha : a1 = a2).
  { destruct (Nat.lt_trichotomy a1 a2) as [Hc | [Hc | Hc]]; [|assumption|].
    - destruct Hleft2 as [Hz | Hf]; [lia|].
      rewrite Hall1 in Hf by lia. discriminate.
    - destruct Hleft1 as [Hz | Hf]; [lia|].
      rewrite Hall2 in Hf by lia. discriminate. }
  assert (Hb : b1 = b2).
  { destruct (Nat.lt_trichotomy b1 b2) as [Hc | [Hc | Hc]]; [|assumption|].
    - rewrite Hall2 in Hright1 by lia. discriminate.
    - rewrite Hall1 in Hright2 by lia. discriminate. }
  congruence.
Qed.

Lemma finditer_N_runs (l : list ascii) : Forall (maximal_run l) (finditer_N l 0 None).
Proof. apply finditer_N_sound; [reflexivity | lia | now left]. Qed.

Lemma finditer_N_covers (l : list ascii) (i : nat) :
  N_at l i = true -> exists m, In m (finditer_N l 0 None) /\ (fst m <= i < snd m)%nat.
Proof.
  intros Hi. apply (finditer_N_complete l l 0 None); [reflexivity | discriminate | exact Hi |].
  left. lia.
Qed.

(** The scan reports exactly the maximal runs. *)
Lemma finditer_N_exact (l : list ascii) (m : nat * nat) :
  In m (finditer_N l 0 None) <-> maximal_run l m.
Proof.
  split.
  - intros Hin. exact (proj1 (List.Forall_forall _ _) (finditer_N_runs l) m Hin).
  - intros Hm.
    assert (Hfst : N_at l (fst m) = true).
    { destruct Hm as (Hlt & _ & Hall & _). apply Hall. lia. }
    destruct (finditer_N_covers l (fst m) Hfst) as (m' & Hin & Hr).
    assert (Hm' : maximal_run l m')
      by exact (proj1 (List.Forall_forall _ _) (finditer_N_runs l) m' Hin).
    assert (Heq : m' = m).
    { apply (maximal_run_unique l m' m (fst m) Hm' Hm Hr). destruct Hm as (Hlt & _). lia. }
    now rewrite <- Heq.
Qed.

Lemma base_is_N_of_nat (sequence : string) (i : nat) :
  base_is_N sequence (Z.of_nat i) = N_at (list_ascii_of_string sequence) i.
Proof.
  unfold base_is_N. rewrite Nat2Z.id.
  now rewrite (proj2 (Z.leb_le 0 (Z.of_nat i)) (Nat2Z.is_nonneg i)).
Qed.

Lemma base_is_N_before (sequence : string) (a : nat) :
  base_is_N sequence (Z.of_nat a - 1) = false <->
  a = 0%nat \/ N_at (list_ascii_of_string sequence) (a - 1) = false.
Proof.
  destruct a as [|a].
  - split; [now left | reflexivity].
  - replace (Z.of_nat (S a) - 1)%Z with (Z.of_nat a) by lia.
    rewrite base_is_N_of_nat. replace (S a - 1)%nat with a by lia.
    split; [now right | intros [H|H]; [discriminate | exact H]].
Qed.

(** A stretch of the sequence is a maximal run of its characters. *)
Lemma N_stretch_run (sequence : string) (a b : nat) :
  N_stretch sequence (Z.of_nat a) (Z.of_nat b)
  <-> maximal_run (list_ascii_of_string sequence) (a, b).
Proof.
  unfold N_stretch, maximal_run. cbn [fst snd].
  rewrite length_list_ascii, base_is_N_before, base_is_N_of_nat.
  split.
  - intros (Hlt & Hlen & Hall & Hleft & Hright).
    repeat split; try lia; try assumption.
    intros i Hi. rewrite <- base_is_N_of_nat. apply Hall. lia.
  - intros (Hlt & Hlen & Hall & Hleft & Hright).
    repeat split; try lia; try assumption.
    intros i Hi. rewrite <- (Z2Nat.id i) by lia. rewrite base_is_N_of_nat. apply Hall. lia.
Qed.

Lemma StronglySorted_map {T U : Type} (R : T -> T -> Prop) (Q : U -> U -> Prop)
    (f : T -> U) (l : list T) :
  (forall x y, R x y -> Q (f x) (f y)) ->
  StronglySorted R l -> StronglySorted Q (map f l).
Proof.
  intros Hf Hs. induction Hs as [|x l Hs IH Hx]; cbn [map]; constructor; [exact IH|].
  apply List.Forall_forall. intros u Hu. apply in_map_iff in Hu.
  destruct Hu as (y & <- & Hy). apply Hf.
  exact (proj1 (List.Forall_forall _ _) Hx y Hy).
Qed.

Lemma spanned_runs (chrom_name : string) (runs : list (nat * nat)) :
  Forall (fun m => (fst m < snd m)%nat) runs ->
  spanned (map (fun m => (chrom_name, Z.of_nat (fst m), Z.of_nat (snd m))) runs)
  = Z.of_nat (fold_right (fun m acc => (snd m - fst m + acc)%nat) 0%nat runs).
Proof.
  induction 1 as [|m runs Hm _ IH]; [reflexivity|].
  cbn [map spanned fold_right]. rewrite IH. lia.
Qed.

Lemma finditer_N_ext (l1 : list ascii) :
  forall l2 pos run,
    map is_N l1 = map is_N l2 -> finditer_N l1 pos run = finditer_N l2 pos run.
Proof.
  induction l1 as [|c l1 IH]; intros [|d l2] pos run H; cbn in H; try discriminate.
  - reflexivity.
  - injection H as Hc Hl. cbn [finditer_N]. rewrite Hc.
    destruct (is_N d); [now apply IH|].
    destruct run; now rewrite (IH l2 (S pos) None Hl).
Qed.

Lemma is_N_lower_char (c : ascii) : is_N (AsmPlot.lower_char c) = is_N c.
Proof. destruct c as [[] [] [] [] [] [] [] []]; reflexivity. Qed.

Lemma list_ascii_lower (s : string) :
  list_ascii_of_string (AsmPlot.lower s) = map AsmPlot.lower_char (list_ascii_of_string s).
Proof. induction s as [|c s IH]; cbn; congruence. Qed.

Lemma find_scaffolds_exact (sequence chrom_name c : string) (st en : Z) :
  In (c, st, en) (find_scaffolds sequence chrom_name)
  <-> c = chrom_name /\ N_stretch sequence st en.
Proof.
  unfold find_scaffolds. rewrite in_map_iff. split.
  - intros ([a b] & Heq & Hin). cbn [fst snd] in Heq. injection Heq as <- <- <-.
    split; [reflexivity|]. apply N_stretch_run. now apply finditer_N_exact.
  - intros (-> & Hs).
    assert (Hst : (0 <= st)%Z /\ (0 <= en)%Z) by (destruct Hs as (H & _); lia).
    exists (Z.to_nat st, Z.to_nat en). cbn [fst snd].
    rewrite !Z2Nat.id by lia. split; [reflexivity|].
    apply finditer_N_exact. apply N_stretch_run. now rewrite !Z2Nat.id by lia.
Qed.

Lemma find_scaffolds_span (sequence chrom_name : string) :
  spanned (find_scaffolds sequence chrom_name) = count_N sequence.
Proof.
  assert (Hpos : Forall (fun m => (fst m < snd m)%nat)
                        (finditer_N (list_ascii_of_string sequence) 0 None)).
  { eapply List.Forall_impl; [|apply finditer_N_runs]. intros m Hm. exact (proj1 Hm). }
  unfold find_scaffolds, count_N. rewrite (spanned_runs _ _ Hpos).
  rewrite finditer_N_span by discriminate. f_equal. lia.
Qed.

Lemma find_scaffolds_nil (sequence chrom_name : string) :
  find_scaffolds sequence chrom_name = [] <-> count_N sequence = 0%Z.
Proof.
  assert (Hpos : Forall (fun m => (fst m < snd m)%nat)
                        (finditer_N (list_ascii_of_string sequence) 0 None)).
  { eapply List.Forall_impl; [|apply finditer_N_runs]. intros m Hm. exact (proj1 Hm). }
  pose proof (find_scaffolds_span sequence chrom_name) as Hspan.
  split.
  - intros He. rewrite <- Hspan, He. reflexivity.
  - intros Hz. rewrite <- Hspan in Hz. unfold find_scaffolds in *.
    destruct (finditer_N (list_ascii_of_string sequence) 0 None) as [|m runs]; [reflexivity|].
    exfalso. rewrite spanned_runs in Hz by exact Hpos.
    apply List.Forall_cons_iff in Hpos. destruct Hpos as [Hm _].
    cbn [fold_right] in Hz. lia.
Qed.

(** A scaffold is reported exactly for each stretch of N, upper or lower
    case, that cannot be extended: it lies within the sequence, holds only N,
    and the bases before its start and at its end, if any, are not N. *)
Theorem scaffolds_are_the_N_stretches (sequence chrom_name c : string) (st en : Z) :
  In (c, st, en) (find_scaffolds sequence chrom_name)
  <-> c = chrom_name /\ N_stretch sequence st en.
Proof.
  unfold find_scaffolds. rewrite in_map_iff. split.
  - intros ([a b] & Heq & Hin). cbn [fst snd] in Heq. injection Heq as <- <- <-.
    split; [reflexivity|]. apply N_stretch_run. now apply finditer_N_exact.
  - intros (-> & Hs).
    assert (Hst : (0 <= st)%Z /\ (0 <= en)%Z) by (destruct Hs as (H & _); lia).
    exists (Z.to_nat st, Z.to_nat en). cbn [fst snd].
    rewrite !Z2Nat.id by lia. split; [reflexivity|].
    apply finditer_N_exact. apply N_stretch_run. now rewrite !Z2Nat.id by lia.
Qed.

Lemma scaffolds_are_the_N_stretches_witness :
  In ("ctg1", 2%Z, 5%Z) (find_scaffolds "ACnNNGT" "ctg1") /\
  N_stretch "ACnNNGT" 2 5.
Proof.
  assert (H : In ("ctg1", 2%Z, 5%Z) (find_scaffolds "ACnNNGT" "ctg1")) by (now left).
  split; [exact H|].
  exact (proj2 (proj1 (scaffolds_are_the_N_stretches "ACnNNGT" "ctg1" "ctg1" 2 5) H)).
Defined.

(** Every N of the sequence lies in one reported scaffold, and the
    scaffolds come in ascending order with at least one other base between
    two of them, so that no position is reported twice. *)
Theorem scaffolds_cover_and_ascend (sequence chrom_name : string) :
  (forall i : Z, base_is_N sequence i = true ->
     exists st en : Z,
       In (chrom_name, st, en) (find_scaffolds sequence chrom_name) /\ (st <= i < en)%Z) /\
  StronglySorted apart (find_scaffolds sequence chrom_name) /\
  (forall (st1 en1 st2 en2 i : Z),
     In (chrom_name, st1, en1) (find_scaffolds sequence chrom_name) ->
     In (chrom_name, st2, en2) (find_scaffolds sequence chrom_name) ->
     (st1 <= i < en1)%Z -> (st2 <= i < en2)%Z -> st1 = st2 /\ en1 = en2).
Proof.
  split; [|split].
  - intros i Hi. unfold base_is_N in Hi. apply andb_true_iff in Hi. destruct Hi as [H0 Hi].
    apply Z.leb_le in H0.
    destruct (finditer_N_covers _ _ Hi) as ([a b] & Hin & Hr). cbn [fst snd] in Hr.
    exists (Z.of_nat a), (Z.of_nat b). split; [|lia].
    unfold find_scaffolds. apply in_map_iff. now exists (a, b).
  - unfold find_scaffolds.
    apply (StronglySorted_map (fun a b => (snd a < fst b)%nat)); [|apply finditer_N_separated].
    intros x y Hxy. unfold apart. cbn [fst snd]. lia.
  - intros st1 en1 st2 en2 i H1 H2 Hi1 Hi2.
    apply find_scaffolds_exact in H1, H2.
    destruct H1 as [_ H1], H2 as [_ H2].
    assert (Hn1 : (0 <= st1)%Z /\ (0 <= en1)%Z) by (destruct H1 as (H & _); lia).
    assert (Hn2 : (0 <= st2)%Z /\ (0 <= en2)%Z) by (destruct H2 as (H & _); lia).
    rewrite <- (Z2Nat.id st1), <- (Z2Nat.id en1) in H1 by lia.
    rewrite <- (Z2Nat.id st2), <- (Z2Nat.id en2) in H2 by lia.
    apply N_stretch_run in H1, H2.
    assert (Heq : (Z.to_nat st1, Z.to_nat en1) = (Z.to_nat st2, Z.to_nat en2)).
    { apply (maximal_run_unique _ _ _ (Z.to_nat i) H1 H2); cbn [fst snd]; lia. }
    injection Heq as Ha Hb. split; lia.
Qed.

Lemma scaffolds_cover_and_ascend_witness :
  base_is_N "NNacgtnNnACGTN" 7 = true /\
  exists st en : Z,
    In ("ctg1", st, en) (find_scaffolds "NNacgtnNnACGTN" "ctg1") /\ (st <= 7 < en)%Z.
Proof.
  split; [reflexivity|].
  exact (proj1 (scaffolds_cover_and_ascend "NNacgtnNnACGTN" "ctg1") 7%Z eq_refl).
Defined.

(** The scaffolds span exactly as many positions as the sequence has N's;
    a sequence without N gives no scaffold, and only such a sequence. *)
Theorem scaffolds_span_the_N_count (sequence chrom_name : string) :
  spanned (find_scaffolds sequence chrom_name) = count_N sequence /\
  (find_scaffolds sequence chrom_name = [] <-> count_N sequence = 0%Z).
Proof.
  split; [apply find_scaffolds_span | apply find_scaffolds_nil].
Qed.

(** The scaffolds depend only on which positions hold an N of either case;
    in particular lower-casing the sequence changes nothing. *)
Theorem scaffolds_ignore_letter_case (chrom_name : string) :
  (forall s1 s2 : string,
     map is_N (list_ascii_of_string s1) = map is_N (list_ascii_of_string s2) ->
     find_scaffolds s1 chrom_name = find_scaffolds s2 chrom_name) /\
  (forall sequence : string,
     find_scaffolds (AsmPlot.lower sequence) chrom_name = find_scaffolds sequence chrom_name).
Proof.
  assert (Hext : forall s1 s2 : string,
             map is_N (list_ascii_of_string s1) = map is_N (list_ascii_of_string s2) ->
             find_scaffolds s1 chrom_name = find_scaffolds s2 chrom_name).
  { intros s1 s2 H. unfold find_scaffolds. now rewrite (finditer_N_ext _ _ 0%nat None H). }
  split; [exact Hext|].
  intros sequence. apply Hext. rewrite list_ascii_lower, map_map.
  apply map_ext. intros c. apply is_N_lower_char.
Qed.

Lemma scaffolds_ignore_letter_case_witness :
  map is_N (list_ascii_of_string "acgNnT") = map is_N (list_ascii_of_string "TTTnNA") /\
  find_scaffolds "acgNnT" "ctg1" = find_scaffolds "TTTnNA" "ctg1".
Proof.
  split; [reflexivity|].
  exact (proj1 (scaffolds_ignore_letter_case "ctg1") "acgNnT" "TTTnNA" eq_refl).
Defined.

End ScaffoldFacts.

(** ** The text of an integer reads back *)

Module TextFacts.
Import Py PyText Spec PyFacts NaturalSortFacts.

Lemma append_assoc_str (a b c : string) :
  String.append (String.append a b) c = String.append a (String.append b c).
Proof. induction a as [|x a IH]; [reflexivity|]. rewrite !append_cons. now rewrite IH. Qed.

Lemma rstrip_nonspace_head (c : ascii) (r : string) :
  isspace c = false -> rstrip (String c r) = String c (rstrip r).
Proof. intros H. cbn [rstrip]. rewrite H. now destruct (rstrip r). Qed.

(** White space is only taken from the end: what precedes a text that does
    not vanish is kept. *)
Lemma rstrip_app_keep (a s : string) :
  rstrip s <> EmptyString -> rstrip (String.append a s) = String.append a (rstrip s).
Proof.
  intros Hs. induction a as [|x a IH]; [reflexivity|].
  rewrite !append_cons. cbn [rstrip]. rewrite IH.
  destruct (String.append a (rstrip s)) eqn:E; [|reflexivity].
  destruct a; [cbn in E; contradiction | discriminate E].
Qed.

Lemma uint_digits (d : Decimal.uint) :
  forallb is_digit (list_ascii_of_string (NilEmpty.string_of_uint d)) = true.
Proof. induction d; cbn [NilEmpty.string_of_uint list_ascii_of_string forallb]; auto. Qed.

Lemma int_digits_step (c : ascii) (acc : Z) (r : string) :
  is_digit c = true ->
  int_digits acc false (String c r) = int_digits (10 * acc + digit_val c) false r.
Proof. intros H. cbn [int_digits]. now rewrite H. Qed.

Lemma int_digits_acc_pos (d : Decimal.uint) :
  forall p : positive,
    int_digits (Z.pos p) false (NilEmpty.string_of_uint d)
    = Some (Z.pos (Pos.of_uint_acc d p)).
Proof.
  induction d; intros p; cbn [NilEmpty.string_of_uint Pos.of_uint_acc];
    [reflexivity | ..];
    (rewrite int_digits_step by reflexivity; rewrite <- IHd; f_equal;
     match goal with
     | |- context [digit_val ?c] =>
         let v := eval vm_compute in (digit_val c) in change (digit_val c) with v
     end; lia).
Qed.

Lemma int_digits_acc_zero (d : Decimal.uint) :
  int_digits 0 false (NilEmpty.string_of_uint d) = Some (Z.of_N (Pos.of_uint d)).
Proof.
  induction d; cbn [NilEmpty.string_of_uint Pos.of_uint]; [reflexivity | exact IHd | ..];
    exact (int_digits_acc_pos d _).
Qed.

Lemma int_unsigned_uint (d : Decimal.uint) :
  d <> Decimal.Nil ->
  int_unsigned (NilEmpty.string_of_uint d) = Some (Z.of_N (Pos.of_uint d)).
Proof.
  destruct d; intros Hd; [contradiction | exact (int_digits_acc_zero d) | ..];
    exact (int_digits_acc_pos d _).
Qed.

Lemma strip_digits (t : string) :
  forallb is_digit (list_ascii_of_string t) = true -> strip t = t.
Proof.
  intros H. unfold strip.
  assert (Hl : lstrip t = t).
  { destruct t as [|c r]; [reflexivity|]. cbn [list_ascii_of_string forallb] in H.
    apply andb_true_iff in H. cbn [lstrip]. now rewrite (digit_not_space _ (proj1 H)). }
  rewrite Hl. now apply rstrip_all_digits.
Qed.

Lemma int_value_digits (t : string) :
  forallb is_digit (list_ascii_of_string t) = true -> int_value t = int_unsigned t.
Proof.
  intros H. unfold int_value. rewrite (skip_all_digits _ H).
  destruct t as [|c r]; [reflexivity|]. cbn [list_ascii_of_string forallb] in H.
  apply andb_true_iff in H. destruct H as [Hc _].
  destruct c as [[] [] [] [] [] [] [] []]; try discriminate Hc; reflexivity.
Qed.

Lemma int_value_minus (t : string) :
  t <> EmptyString -> forallb is_digit (list_ascii_of_string t) = true ->
  int_value (String "-" t) = Z.opp <$> int_unsigned t.
Proof.
  intros Hne H. unfold int_value.
  change (lskip (String "-" t)) with (String "-" t).
  cbn [rskip]. rewrite (rskip_all_digits _ H).
  destruct t; [contradiction | reflexivity].
Qed.

(** [int(str(n)) == n] *)
Lemma int_value_str_int (z : Z) : int_value (str_int z) = Some z.
Proof.
  destruct z as [|p|p]; [reflexivity | |].
  - unfold str_int. cbn [Z.to_int NilZero.string_of_int].
    pose proof (DecimalPos.Unsigned.to_uint_nonnil p) as Hn.
    pose proof (DecimalPos.Unsigned.of_to p) as Hp.
    replace (NilZero.string_of_uint (Pos.to_uint p))
      with (NilEmpty.string_of_uint (Pos.to_uint p))
      by (destruct (Pos.to_uint p); [contradiction | reflexivity ..]).
    rewrite (int_value_digits _ (uint_digits _)), (int_unsigned_uint _ Hn), Hp.
    reflexivity.
  - unfold str_int. cbn [Z.to_int NilZero.string_of_int].
    pose proof (DecimalPos.Unsigned.to_uint_nonnil p) as Hn.
    pose proof (DecimalPos.Unsigned.of_to p) as Hp.
    replace (NilZero.string_of_uint (Pos.to_uint p))
      with (NilEmpty.string_of_uint (Pos.to_uint p))
      by (destruct (Pos.to_uint p); [contradiction | reflexivity ..]).
    rewrite int_value_minus.
    + rewrite (int_unsigned_uint _ Hn), Hp. reflexivity.
    + destruct (Pos.to_uint p); [contradiction | discriminate ..].
    + apply uint_digits.
Qed.

Lemma digits_tab_free (t : string) :
  forallb is_digit (list_ascii_of_string t) = true -> tab_free t = true.
Proof.
  unfold tab_free. induction t as [|c t IH]; cbn [list_ascii_of_string forallb]; [reflexivity|].
  intros H. apply andb_true_iff in H. destruct H as [Hc Ht]. rewrite (IH Ht), andb_true_r.
  destruct c as [[] [] [] [] [] [] [] []]; try discriminate Hc; reflexivity.
Qed.

Lemma str_int_tab_free (z : Z) : tab_free (str_int z) = true.
Proof.
  assert (Hu : forall d, tab_free (NilZero.string_of_uint d) = true).
  { intros d. destruct d; [reflexivity | ..]; apply digits_tab_free;
      apply (uint_digits (_ d)). }
  destruct z as [|p|p]; [reflexivity | apply Hu |].
  unfold str_int. cbn [Z.to_int NilZero.string_of_int].
  unfold tab_free. cbn [list_ascii_of_string forallb]. exact (Hu _).
Qed.

End TextFacts.

(** ** [find_scaffolds.py]: the BED file written *)

Module BedOutputFacts.
Import Py PyText FindScaffolds ScaffoldNotions Spec PyFacts TextFacts ScaffoldFacts.

Lemma read_fasta_file_app (r1 r2 : list (string * string)) :
  read_fasta_file (r1 ++ r2) = read_fasta_file r1 ++ read_fasta_file r2.
Proof.
  induction r1 as [|record r1 IH]; [reflexivity|].
  cbn [read_fasta_file app]. rewrite IH. now rewrite List.app_assoc.
Qed.

Lemma read_fasta_file_In (records : list (string * string)) (x : string * Z * Z) :
  In x (read_fasta_file records)
  <-> exists record, In record records /\ In x (find_scaffolds (snd record) (fst record)).
Proof.
  induction records as [|record records IH]; cbn [read_fasta_file].
  - split; [contradiction | intros (? & [] & _)].
  - rewrite in_app_iff, IH. split.
    + intros [H | (rec' & Hin & H)]; [exists record | exists rec']; split; auto;
        [now left | now right].
    + intros (rec' & [<- | Hin] & H); [now left | right; now exists rec'].
Qed.

Lemma read_fasta_file_nil (records : list (string * string)) :
  read_fasta_file records = []
  <-> Forall (fun record => count_N (snd record) = 0%Z) records.
Proof.
  induction records as [|record records IH]; cbn [read_fasta_file].
  - split; [constructor | reflexivity].
  - rewrite List.Forall_cons_iff, <- IH.
    rewrite <- (find_scaffolds_nil (snd record) (fst record)).
    split.
    + intros H. apply app_eq_nil in H. exact H.
    + intros [H1 H2]. now rewrite H1, H2.
Qed.

Lemma bed_line_tabbed (chrom : string) (st en : Z) :
  bed_line (chrom, st, en)
  = String.append (tabbed [chrom; str_int st; str_int en; "N_stretch"])
                  (String LF EmptyString).
Proof.
  unfold bed_line, tabbed, tab, newline. cbn [String.concat].
  now rewrite !append_assoc_str.
Qed.

Lemma strip_scaffold_line (c : ascii) (r : string) (st en : Z) :
  isspace c = false ->
  strip (tabbed [String c r; str_int st; str_int en; "N_stretch"])
  = tabbed [String c r; str_int st; str_int en; "N_stretch"].
Proof.
  intros Hc. unfold strip, tabbed. cbn [String.concat].
  rewrite append_cons. cbn [lstrip]. rewrite Hc. rewrite <- append_cons.
  rewrite <- !append_assoc_str.
  rewrite rstrip_app_keep by discriminate. reflexivity.
Qed.

Lemma scaffold_line_fields (c : ascii) (r : string) (st en : Z) :
  isspace c = false -> tab_free (String c r) = true ->
  tab_fields (bed_line (String c r, st, en))
  = [String c r; str_int st; str_int en; "N_stretch"].
Proof.
  intros Hc Ht. rewrite bed_line_tabbed.
  apply tab_fields_tabbed; [discriminate | | now apply strip_scaffold_line].
  repeat (apply List.Forall_cons; [first [exact Ht | apply str_int_tab_free | reflexivity]|]).
  constructor.
Qed.

(** The lines written are those of the records in file order; a line is
    written exactly for each stretch of N of a record, under the record's
    name, so a file whose sequences hold no N gives an empty BED file. *)
Theorem fasta_lines_by_record :
  (forall r1 r2 : list (string * string), main (r1 ++ r2) = main r1 ++ main r2) /\
  (forall (records : list (string * string)) (line : string),
     In line (main records) <->
     exists (id sequence : string) (st en : Z),
       In (id, sequence) records /\ N_stretch sequence st en /\
       line = bed_line (id, st, en)) /\
  (forall records : list (string * string),
     main records = []
     <-> Forall (fun record => count_N (snd record) = 0%Z) records).
Proof.
  split; [|split].
  - intros r1 r2. unfold main, write_bed_file.
    now rewrite read_fasta_file_app, map_app.
  - intros records line. unfold main, write_bed_file. rewrite in_map_iff. split.
    + intros ([[c st] en] & <- & Hin). apply read_fasta_file_In in Hin.
      destruct Hin as ([id sequence] & Hrec & Hin). cbn [fst snd] in Hin.
      apply find_scaffolds_exact in Hin. destruct Hin as [-> Hs].
      now exists id, sequence, st, en.
    + intros (id & sequence & st & en & Hrec & Hs & ->).
      exists (id, st, en). split; [reflexivity|].
      apply read_fasta_file_In. exists (id, sequence). split; [exact Hrec|].
      cbn [fst snd]. now apply find_scaffolds_exact.
  - intros records. rewrite <- read_fasta_file_nil. unfold main, write_bed_file.
    destruct (read_fasta_file records); cbn [map]; split; intros H;
      try reflexivity; discriminate H.
Qed.

Lemma fasta_lines_by_record_witness :
  let records := [("ctg1", "ACGT"); ("ctg2", "NNACnT")] in
  In (bed_line ("ctg2", 4%Z, 5%Z)) (main records) /\
  exists (id sequence : string) (st en : Z),
    In (id, sequence) records /\ N_stretch sequence st en /\
    bed_line ("ctg2", 4%Z, 5%Z) = bed_line (id, st, en).
Proof.
  assert (H : In (bed_line ("ctg2", 4%Z, 5%Z)) (main [("ctg1", "ACGT"); ("ctg2", "NNACnT")]))
    by (right; now left).
  split; [exact H|].
  exact (proj1 (proj1 (proj2 fasta_lines_by_record) _ _) H).
Defined.





End BedOutputFacts.

(** ** From [parse_paf.py] to [asm_plot.py]

    The table [parse_paf.py] writes has the columns [parse_tab_line] of
    [asm_plot.py] reads: the query name first, the target name fourth, the
    reference positions fifth and sixth. *)

Module PipelineFacts.
Import Py ParsePaf PyText PafOutput FileNotions Spec.
Import PyFacts ParsePafFacts PafFileFacts TextFacts.

Lemma lstrip_head (s : string) :
  lstrip s = EmptyString \/ exists c r, lstrip s = String c r /\ isspace c = false.
Proof.
  induction s as [|c s IH]; [now left|]. cbn [lstrip].
  destruct (isspace c) eqn:Hc; [exact IH|]. right. now exists c, s.
Qed.

(** The first of several fields of a line starts with a character other
    than white space. *)
Lemma first_field_head (line f0 f1 : string) (rest : list string) :
  tab_fields line = f0 :: f1 :: rest ->
  exists c r, f0 = String c r /\ isspace c = false.
Proof.
  unfold tab_fields, strip, split.
  destruct (lstrip_head line) as [-> | (c & r & -> & Hc)]; [discriminate|].
  destruct (LayoutFacts.rstrip_head c r Hc) as (r' & ->).
  assert (Ht : Ascii.eqb TAB c = false).
  { destruct (Ascii.eqb_spec TAB c) as [<-|]; [discriminate Hc | reflexivity]. }
  destruct (LayoutFacts.split_on_head (Ascii.eqb TAB) c r' Ht) as (f & fs & ->).
  intros [= <- _]. now exists c, f.
Qed.

Lemma rstrip_glued (pre : list string) (t : string) :
  rstrip t <> EmptyString ->
  rstrip (fold_right (fun f acc => String.append f (String TAB acc)) t pre)
  = fold_right (fun f acc => String.append f (String TAB acc)) (rstrip t) pre /\
  rstrip (fold_right (fun f acc => String.append f (String TAB acc)) t pre) <> EmptyString.
Proof.
  intros Ht. induction pre as [|f pre [IH Hne]]; cbn [fold_right]; [now split|].
  assert (Hs : rstrip (String TAB (fold_right (fun f acc => String.append f (String TAB acc))
                                              t pre))
               = String TAB (fold_right (fun f acc => String.append f (String TAB acc))
                                        (rstrip t) pre)).
  { cbn [rstrip]. rewrite <- IH.
    destruct (rstrip (fold_right (fun f acc => String.append f (String TAB acc)) t pre));
      [contradiction | reflexivity]. }
  rewrite rstrip_app_keep by (rewrite Hs; discriminate).
  rewrite Hs. split; [reflexivity|]. destruct f; discriminate.
Qed.

Lemma split_glued (pre : list string) (t : string) :
  Forall (fun f => tab_free f = true) pre ->
  split TAB (fold_right (fun f acc => String.append f (String TAB acc)) t pre)
  = pre ++ split TAB t.
Proof.
  induction 1 as [|f pre Hf _ IH]; cbn [fold_right app]; [reflexivity|].
  now rewrite (split_tab_app _ _ Hf), IH.
Qed.

(** The fields of a line glued from tab-free fields and a last part that
    white-space stripping does not remove. *)
Lemma tab_fields_glued (c : ascii) (r0 : string) (pre : list string) (t : string) :
  isspace c = false -> Forall (fun f => tab_free f = true) (String c r0 :: pre) ->
  rstrip t <> EmptyString ->
  strip (fold_right (fun f acc => String.append f (String TAB acc)) t (String c r0 :: pre))
  = fold_right (fun f acc => String.append f (String TAB acc)) (rstrip t)
               (String c r0 :: pre) /\
  tab_fields (fold_right (fun f acc => String.append f (String TAB acc)) t
                         (String c r0 :: pre))
  = (String c r0 :: pre) ++ split TAB (rstrip t).
Proof.
  intros Hc Hfree Ht.
  assert (Hs : strip (fold_right (fun f acc => String.append f (String TAB acc)) t
                                 (String c r0 :: pre))
               = fold_right (fun f acc => String.append f (String TAB acc)) (rstrip t)
                            (String c r0 :: pre)).
  { unfold strip.
    assert (Hl : forall g, lstrip (fold_right (fun f acc => String.append f (String TAB acc))
                                              g (String c r0 :: pre))
                           = fold_right (fun f acc => String.append f (String TAB acc))
                                        g (String c r0 :: pre)).
    { intros g. cbn [fold_right]. rewrite append_cons. cbn [lstrip]. now rewrite Hc. }
    rewrite Hl. exact (proj1 (rstrip_glued _ _ Ht)). }
  split; [exact Hs|]. unfold tab_fields. rewrite Hs. now apply split_glued.
Qed.

(** A written row, as the glueing of its first seven values and the rest. *)
Lemma row_glued (a : PafRecord) :
  String.append (join tab (paf_values a)) newline
  = fold_right (fun f acc => String.append f (String TAB acc))
      (String.append (str_value (tp a))
         (String TAB (String.append (str_value (de a)) newline)))
      [query_name a; query_start a; query_end a; target_name a; ref_pos_start a;
       ref_pos_end a; ref_seq_len a].
Proof.
  unfold join, paf_values, tab. cbn [String.concat fold_right].
  now rewrite !append_assoc_str.
Qed.

Lemma row_fields (line : string) (m : Z) (a : PafRecord) :
  parse_paf_line line m = Ok (Some a) ->
  (exists c r, query_name a = String c r /\ isspace c = false) /\
  (exists c r, strip (String.append (join tab (paf_values a)) newline) = String c r /\
               query_name a <> EmptyString) /\
  exists rest : list string,
    tab_fields (String.append (join tab (paf_values a)) newline)
    = query_name a :: query_start a :: query_end a :: target_name a :: ref_pos_start a
      :: ref_pos_end a :: ref_seq_len a :: rest.
Proof.
  intros H.
  pose proof (retained_values_tab_free _ _ _ H) as Hfree.
  destruct (parse_paf_line_retained _ _ _ H)
    as (f0 & f1 & f2 & f3 & f4 & f5 & f6 & f7 & f8 & f9 & f10 & f11 & tags & n
        & Hf & Hn & Hmn & Hwf & Hprim & (d & Hd) & ->).
  destruct (first_field_head _ _ _ _ Hf) as (c & r & -> & Hc).
  cbn [query_name query_start query_end target_name ref_pos_start ref_pos_end ref_seq_len
       tp de] in *.
  rewrite row_glued.
  cbn [query_name query_start query_end target_name ref_pos_start ref_pos_end ref_seq_len
       tp de].
  assert (Hpre : Forall (fun f => tab_free f = true) [String c r; f2; f3; f5; f7; f8; f6]).
  { unfold paf_values in Hfree. cbn [query_name query_start query_end target_name
      ref_pos_start ref_pos_end ref_seq_len] in Hfree.
    repeat (apply List.Forall_cons_iff in Hfree; destruct Hfree as [?Hv Hfree]).
    repeat (apply List.Forall_cons; [assumption|]). constructor. }
  assert (Ht : rstrip (String.append (str_value (last_tag "tp" tags))
                         (String TAB (String.append (str_value (last_tag "de" tags)) newline)))
               <> EmptyString).
  { destruct Hprim as [-> | ->]; cbn [str_value]; rewrite append_cons;
      rewrite rstrip_nonspace_head by reflexivity; discriminate. }
  destruct (tab_fields_glued c r _ _ Hc Hpre Ht) as [Hs Hfields].
  split; [now exists c, r|]. split.
  - rewrite Hs. cbn [fold_right]. rewrite append_cons. eexists _, _. split; [reflexivity|].
    discriminate.
  - rewrite Hfields. cbn [app]. eauto.
Qed.

(** A row written for a record retained from an ASCII line is an alignment
    line for the plot: [parse_tab_line] reads from it the target name, the
    query name and the two reference positions of the record, and raises
    [ValueError] when one of the positions, which [parse_paf.py] copies
    unread, is not an integer that [int] reads. The positions are within
    the interpreter's limit on digits. The reader of the plot skips the row
    if the query name starts with [#]. *)
Theorem paf_row_in_alignment_reader (line : string) (min_length : Z) (a : PafRecord) :
  is_ascii line = true ->
  parse_paf_line line min_length = Ok (Some a) ->
  within_int_limit (ref_pos_start a) = true ->
  within_int_limit (ref_pos_end a) = true ->
  let row := String.append (join tab (paf_values a)) newline in
  AsmPlot.parse_tab_line row
  = match int_value (ref_pos_start a), int_value (ref_pos_end a) with
    | Some s, Some e => Ok (AsmPlot.mkAln (target_name a) s e (query_name a))
    | _, _ => Raise ValueError
    end /\
  AsmPlot.is_data_line row = negb (startswith "#" (query_name a)).
Proof.
  intros _ H _ _ row. subst row.
  destruct (row_fields _ _ _ H) as ((c & r & Hq & Hc) & (c' & r' & Hs & _) & (rest & Hf)).
  split.
  - unfold AsmPlot.parse_tab_line. rewrite Hf. cbn [index nth_error bind].
    unfold int.
    destruct (int_value (ref_pos_start a)) as [s|]; cbn [bind]; [|reflexivity].
    destruct (int_value (ref_pos_end a)) as [e|]; reflexivity.
  - unfold AsmPlot.is_data_line. rewrite Hs. cbn [String.eqb negb andb].
    rewrite row_glued. cbn [fold_right]. rewrite Hq. rewrite append_cons. reflexivity.
Qed.

Lemma paf_row_in_alignment_reader_witness :
  let line := tabbed ["q1"; "1000"; "0"; "900"; "+"; "chr1"; "248387328"; "100"; "1000";
                      "900"; "900"; "60"; "tp:A:P"; "de:f:0.01"] in
  let a := mkPaf "q1" "0" "900" "chr1" "100" "1000" "248387328" (Some "P") (Some "0.01") in
  (is_ascii line = true /\ parse_paf_line line 100 = Ok (Some a) /\
   within_int_limit (ref_pos_start a) = true /\ within_int_limit (ref_pos_end a) = true) /\
  AsmPlot.parse_tab_line (String.append (join tab (paf_values a)) newline)
  = Ok (AsmPlot.mkAln "chr1" 100 1000 "q1").
Proof.
  intros line a.
  assert (H : parse_paf_line line 100 = Ok (Some a)) by reflexivity.
  split; [repeat split; reflexivity|].
  exact (proj1 (paf_row_in_alignment_reader line 100 a eq_refl H eq_refl eq_refl)).
Defined.

Lemma read_rows (m : Z) (rs : list PafRecord) (data : list AsmPlot.AlignmentRecord) :
  Forall (fun a => exists line, parse_paf_line line m = Ok (Some a)) rs ->
  Forall (fun a => startswith "#" (query_name a) = false) rs ->
  Forall2 (fun a d =>
             int_value (ref_pos_start a) = Some (AsmPlot.start d) /\
             int_value (ref_pos_end a) = Some (AsmPlot.end_ d) /\
             AsmPlot.chrom d = target_name a /\ AsmPlot.query d = query_name a)
          rs data ->
  AsmPlot.read_tab_lines
    (map (fun a => String.append (join tab (paf_values a)) newline) rs)
  = Ok data.
Proof.
  intros Hlines Hhash Hdata. revert Hlines Hhash.
  induction Hdata as [|a d rs data (Hs & He & Hc & Hq) _ IH]; intros Hlines Hhash;
    [reflexivity|].
  apply List.Forall_cons_iff in Hlines, Hhash.
  destruct Hlines as [(line & Hline) Hlines], Hhash as [Hh Hhash].
  cbn [map AsmPlot.read_tab_lines].
  destruct (row_fields _ _ _ Hline) as ((c & r & Hqn & Hc0) & (c' & r' & Hstrip & _)
                                        & (rest & Hf)).
  assert (Hd : AsmPlot.is_data_line (String.append (join tab (paf_values a)) newline)
               = true).
  { unfold AsmPlot.is_data_line. rewrite Hstrip. cbn [String.eqb negb andb].
    rewrite row_glued. cbn [fold_right]. rewrite Hqn, append_cons.
    rewrite Hqn in Hh. cbn [startswith] in Hh |- *. now rewrite Hh. }
  rewrite Hd.
  assert (Hp : AsmPlot.parse_tab_line (String.append (join tab (paf_values a)) newline)
               = Ok d).
  { unfold AsmPlot.parse_tab_line. rewrite Hf. cbn [index nth_error bind].
    rewrite (int_of_value _ _ Hs), (int_of_value _ _ He). cbn [bind].
    rewrite <- Hc, <- Hq. now destruct d. }
  rewrite Hp, (IH Hlines Hhash). reflexivity.
Qed.

Lemma one_line_app (a b : string) :
  one_line a = true -> one_line b = true -> one_line (String.append a b) = true.
Proof.
  unfold one_line. intros Ha Hb. induction a as [|c a IH]; [exact Hb|].
  rewrite append_cons. cbn [list_ascii_of_string forallb] in Ha |- *.
  apply andb_true_iff in Ha. destruct Ha as [Hc Ha]. now rewrite Hc, (IH Ha).
Qed.

Lemma one_line_join (vals : list string) :
  Forall (fun v => one_line v = true) vals -> one_line (join tab vals) = true.
Proof.
  unfold join. induction 1 as [|v vals Hv Hvals IH]; [reflexivity|].
  cbn [String.concat]. destruct vals as [|w vals]; [exact Hv|].
  apply one_line_app; [exact Hv|]. now apply one_line_app.
Qed.

(** The table written for an ASCII PAF file is an alignment file for the
    plot. When no record is retained nothing is written, and the reader of
    the plot, which skips a header line first, raises [StopIteration] on the
    empty file. Otherwise, when no value written holds a line break, each
    string written is one line of the file; the header is skipped and the
    rows give the retained records in order, provided the reference
    positions are integers that [int] reads, within the interpreter's limit
    on digits, and no query name starts with [#]. *)
Theorem paf_table_in_alignment_reader (lines : list string) (min_length : Z)
    (out : list string) :
  Forall (fun line => is_ascii line = true) lines ->
  main lines min_length = Ok out ->
  exists rs : list PafRecord,
    read_paf lines min_length = Ok rs /\
    (rs = [] -> AsmPlot.read_tab_file out = Raise StopIteration) /\
    (rs <> [] ->
     Forall (fun a => Forall (fun v => one_line v = true) (paf_values a)) rs ->
     Forall (fun a => startswith "#" (query_name a) = false) rs ->
     forall data : list AsmPlot.AlignmentRecord,
       Forall2 (fun a d =>
                  (int_value (ref_pos_start a) = Some (AsmPlot.start d) /\
                   within_int_limit (ref_pos_start a) = true) /\
                  (int_value (ref_pos_end a) = Some (AsmPlot.end_ d) /\
                   within_int_limit (ref_pos_end a) = true) /\
                  AsmPlot.chrom d = target_name a /\ AsmPlot.query d = query_name a)
               rs data ->
       Forall file_line out /\ AsmPlot.read_tab_file out = Ok data).
Proof.
  unfold main. intros _ H.
  destruct (read_paf lines min_length) as [rs|] eqn:Hrs; cbn [bind] in H; [|discriminate].
  injection H as <-. exists rs. split; [reflexivity|]. split; [now intros ->|].
  intros Hne Hone Hhash data Hdata.
  destruct rs as [|a0 rs0] eqn:E; [contradiction|]. rewrite <- E in *.
  replace (print_lines_to_file rs)
    with (String.append (join tab paf_keys) newline
          :: map (fun a => String.append (join tab (paf_values a)) newline) rs)
    by (now rewrite E).
  split.
  - constructor; [now exists (join tab paf_keys)|].
    apply List.Forall_forall. intros row Hrow. apply in_map_iff in Hrow.
    destruct Hrow as (a & <- & Ha). exists (join tab (paf_values a)).
    split; [reflexivity|]. apply one_line_join.
    exact (proj1 (List.Forall_forall _ _) Hone a Ha).
  - cbn [AsmPlot.read_tab_file]. apply (read_rows min_length); [|exact Hhash |].
    + eapply List.Forall_impl; [|exact (read_paf_records _ _ _ Hrs)].
      intros a (line & _ & Hl). now exists line.
    + eapply List.Forall2_impl; [|exact Hdata].
      intros a d ((H1 & _) & (H2 & _) & H3 & H4). repeat split; assumption.
Qed.

Lemma paf_table_in_alignment_reader_witness :
  let good := tabbed ["q1"; "1000"; "0"; "900"; "+"; "chr1"; "248387328"; "100"; "1000";
                      "900"; "900"; "60"; "tp:A:P"; "de:f:"] in
  let out := [String.append (join tab paf_keys) newline;
              String.append
                (join tab ["q1"; "0"; "900"; "chr1"; "100"; "1000"; "248387328"; "P"; ""])
                newline] in
  (Forall (fun line => is_ascii line = true) ["short line"; good] /\
   main ["short line"; good] 100 = Ok out) /\
  AsmPlot.read_tab_file out = Ok [AsmPlot.mkAln "chr1" 100 1000 "q1"].
Proof.
  intros good out.
  assert (Ha : Forall (fun line => is_ascii line = true) ["short line"; good])
    by (repeat constructor).
  assert (H : main ["short line"; good] 100 = Ok out) by reflexivity.
  split; [split; [exact Ha | exact H]|].
  destruct (paf_table_in_alignment_reader _ _ _ Ha H) as (rs & Hrs & _ & Hok).
  vm_compute in Hrs. injection Hrs as <-.
  apply Hok; [discriminate | repeat constructor | repeat constructor | repeat constructor].
Defined.

End PipelineFacts.

(** ** [asm_plot.py]: reading the alignment and region files *)

Module ReaderFacts.
Import Py AsmPlot Spec PlotNotions PyFacts ParserFacts LayoutFacts.

Lemma read_tab_lines_skip (a b : list string) (line : string) :
  is_data_line line = false -> read_tab_lines (a ++ line :: b) = read_tab_lines (a ++ b).
Proof.
  intros H. rewrite !read_tab_lines_app. cbn [read_tab_lines]. now rewrite H.
Qed.

(** The records read are the parses of the data lines, in order. *)
Lemma read_tab_lines_data (lines : list string) (data : list AlignmentRecord) :
  read_tab_lines lines = Ok data
  <-> Forall2 (fun l d => parse_tab_line l = Ok d) (List.filter is_data_line lines) data.
Proof.
  revert data. induction lines as [|line lines IH]; intros data;
    cbn [read_tab_lines List.filter].
  - split; [intros [= <-]; constructor | intros H; inversion H; reflexivity].
  - destruct (is_data_line line); [|apply IH]. split.
    + intros H. destruct (parse_tab_line line) as [d|] eqn:Hd; cbn [bind] in H; [|discriminate].
      destruct (read_tab_lines lines) as [ds|] eqn:Hds; cbn [bind] in H; [|discriminate].
      injection H as <-. constructor; [exact Hd | now apply IH].
    + intros H. inversion H as [|l d ls ds Hd Hds]; subst.
      rewrite Hd. cbn [bind]. now rewrite (proj2 (IH ds) Hds).
Qed.

Lemma read_tab_lines_first_error (before after : list string) (bad : string) (e : exn) :
  Forall (fun l => is_data_line l = true -> exists d, parse_tab_line l = Ok d) before ->
  is_data_line bad = true -> parse_tab_line bad = Raise e ->
  read_tab_lines (before ++ bad :: after) = Raise e.
Proof.
  intros Hb Hd He. induction Hb as [|l before Hl _ IH]; cbn [app read_tab_lines].
  - now rewrite Hd, He.
  - destruct (is_data_line l); [|exact IH].
    destruct (Hl eq_refl) as [d ->]. cbn [bind]. now rewrite IH.
Qed.

Lemma space_not_hash (c : ascii) : isspace c = true -> Ascii.eqb c "#" = false.
Proof. destruct c as [[] [] [] [] [] [] [] []]; intros H; try reflexivity; discriminate H. Qed.



Lemma parse_tab_line_errors (line : string) :
  ((length (tab_fields line) < 5)%nat -> parse_tab_line line = Raise IndexError) /\
  (forall f4 : string,
     nth_error (tab_fields line) 4 = Some f4 -> int_value f4 = None ->
     parse_tab_line line = Raise ValueError) /\
  (forall (f4 : string) (s : Z),
     length (tab_fields line) = 5%nat ->
     nth_error (tab_fields line) 4 = Some f4 -> int_value f4 = Some s ->
     parse_tab_line line = Raise IndexError) /\
  (forall (f4 f5 : string) (s : Z),
     nth_error (tab_fields line) 4 = Some f4 -> int_value f4 = Some s ->
     nth_error (tab_fields line) 5 = Some f5 -> int_value f5 = None ->
     parse_tab_line line = Raise ValueError) /\
  (forall e : exn, parse_tab_line line = Raise e -> e = IndexError \/ e = ValueError).
Proof.
  unfold parse_tab_line.
  destruct (tab_fields line) as [|f0 [|f1 [|f2 [|f3 [|g4 [|g5 rest]]]]]];
    cbn [length index nth_error bind].
  1-5: (split; [reflexivity|]; split; [discriminate|]; split; [discriminate|];
        split; [discriminate|]; intros e [= <-]; now left).
  - split; [intros Hlt; exfalso; lia|].
    split; [intros f4 [= <-] H; now rewrite (int_of_none _ H)|].
    split; [intros f4 s _ [= <-] H; now rewrite (int_of_value _ _ H)|].
    split; [discriminate|].
    intros e. unfold int. destruct (int_value g4); cbn [bind]; intros [= <-]; auto.
  - split; [intros Hlt; exfalso; lia|].
    split; [intros f4 [= <-] H; now rewrite (int_of_none _ H)|].
    split; [discriminate|].
    split; [intros f4 f5 s [= <-] H4 [= <-] H5;
            now rewrite (int_of_value _ _ H4), (int_of_none _ H5)|].
    intros e. unfold int. destruct (int_value g4); cbn [bind]; [|intros [= <-]; auto].
    destruct (int_value g5); cbn [bind]; [discriminate | intros [= <-]; auto].
Qed.



End ReaderFacts.

(** ** [asm_plot.py]: the regions of the BED file *)

Module RegionFacts.
Import Py AsmPlot Spec PlotNotions PyFacts ParserFacts LayoutFacts.

Lemma channels_length (cs : list string) :
  forall xs, channels cs = Ok xs -> length xs = length cs.
Proof.
  induction cs as [|c cs IH]; cbn [channels]; intros xs H.
  - now injection H as <-.
  - destruct (int c) as [n|]; cbn [bind] in H; [|discriminate].
    destruct (float_of_int n) as [x|]; cbn [bind] in H; [|discriminate].
    destruct (channels cs) as [ys|]; cbn [bind] in H; [|discriminate].
    injection H as <-. cbn [length]. now rewrite (IH ys eq_refl).
Qed.

Lemma channels_exn (cs : list string) (e : exn) :
  channels cs = Raise e -> e = ValueError \/ e = OverflowError.
Proof.
  induction cs as [|c cs IH]; cbn [channels]; [discriminate|].
  unfold int, float_of_int. destruct (int_value c) as [n|]; cbn [bind]; [|intros [= <-]; auto].
  destruct (binary_normalize prec emax n 0 false); cbn [bind];
    try (intros [= <-]; now right);
    (destruct (channels cs); cbn [bind]; [discriminate | exact IH]).
Qed.

Lemma type_separator_free (name : string) :
  separator_free (hd EmptyString (split_on (fun c => Ascii.eqb c "_" || Ascii.eqb c "(") name))
  = true.
Proof.
  pose proof (PafFileFacts.split_on_sep_free
                (fun c => Ascii.eqb c "_" || Ascii.eqb c "(") name) as H.
  destruct (split_on _ name) as [|t ts]; [reflexivity|].
  apply List.Forall_cons_iff in H. exact (proj1 H).
Qed.

(** What a region returned by [parse_bed_line] is made of. *)
Lemma parse_bed_line_region (line : string) (r : RegionRecord) :
  parse_bed_line line = Ok (Some r) ->
  (9 <= length (tab_fields line))%nat /\
  nth_error (tab_fields line) 0 = Some (rchrom r) /\
  (exists f1, nth_error (tab_fields line) 1 = Some f1 /\ int_value f1 = Some (rstart r)) /\
  (exists f2, nth_error (tab_fields line) 2 = Some f2 /\ int_value f2 = Some (rend r)) /\
  (100000 <= rend r - rstart r)%Z /\
  separator_free (rtype r) = true /\
  (rcolor r = Named "grey" \/ exists a b c : float, rcolor r = Tuple [a; b; c]).
Proof.
  unfold parse_bed_line.
  destruct (tab_fields line) as [|f0 [|f1 [|f2 [|f3 fs]]]]; cbn [index nth_error bind];
    try discriminate.
  - unfold int. destruct (int_value f1); discriminate.
  - unfold int. destruct (int_value f1); cbn [bind]; [|discriminate].
    destruct (int_value f2); discriminate.
  - unfold int. destruct (int_value f1) as [s|] eqn:H1; cbn [bind]; [|discriminate].
    destruct (int_value f2) as [e|] eqn:H2; cbn [bind]; [|discriminate].
    destruct (e - s <? 100000)%Z eqn:Hsz; [discriminate|]. apply Z.ltb_ge in Hsz.
    rewrite index_head. cbn [bind].
    destruct fs as [|f4 [|f5 [|f6 [|f7 [|f8 rest]]]]]; cbn [index nth_error bind];
      try discriminate.
    intros H.
    assert (Hcol : forall col,
               (if (length (split "," f8) =? 3)%nat
                then do cs <- channels (split "," f8); Ok (Tuple cs)
                else Ok (Named "grey")) = Ok col ->
               col = Named "grey" \/ exists a b c : float, col = Tuple [a; b; c]).
    { intros col Hc. destruct (length (split "," f8) =? 3)%nat eqn:Hl.
      - apply Nat.eqb_eq in Hl.
        destruct (channels (split "," f8)) as [xs|] eqn:Hxs; cbn [bind] in Hc; [|discriminate].
        injection Hc as <-. right. apply channels_length in Hxs. rewrite Hl in Hxs.
        destruct xs as [|a [|b [|c [|]]]]; try discriminate Hxs. now exists a, b, c.
      - injection Hc as <-. now left. }
    destruct (if (length (split "," f8) =? 3)%nat
              then do cs <- channels (split "," f8); Ok (Tuple cs)
              else Ok (Named "grey")) as [col|] eqn:Hc; cbn [bind] in H; [|discriminate].
    injection H as <-. cbn [rchrom rstart rend rtype rcolor length].
    split; [lia|]. split; [reflexivity|]. split; [now exists f1|]. split; [now exists f2|].
    split; [exact Hsz|]. split; [apply type_separator_free | now apply Hcol].
Qed.

Lemma read_bed_lines_regions (lines : list string) (regions : list RegionRecord) :
  read_bed_lines lines = Ok regions ->
  Forall (fun r => exists line, In line lines /\ is_data_line line = true /\
                                parse_bed_line line = Ok (Some r)) regions.
Proof.
  revert regions. induction lines as [|line lines IH]; cbn [read_bed_lines]; intros regions H.
  - injection H as <-. constructor.
  - assert (Hw : forall rs, Forall (fun r => exists l, In l lines /\ is_data_line l = true /\
                                        parse_bed_line l = Ok (Some r)) rs ->
                   Forall (fun r => exists l, In l (line :: lines) /\ is_data_line l = true /\
                                        parse_bed_line l = Ok (Some r)) rs).
    { intros rs Hrs. eapply List.Forall_impl; [|exact Hrs].
      intros r (l & Hin & Hl). exists l. split; [now right | exact Hl]. }
    destruct (is_data_line line) eqn:Hd; [|exact (Hw _ (IH _ H))].
    destruct (parse_bed_line line) as [o|] eqn:Ho; cbn [bind] in H; [|discriminate].
    destruct (read_bed_lines lines) as [rs|]; cbn [bind] in H; [|discriminate].
    injection H as <-. specialize (Hw rs (IH rs eq_refl)).
    destruct o as [r|]; [|exact Hw].
    constructor; [|exact Hw]. exists line. split; [now left | now split].
Qed.

Lemma read_bed_lines_none (lines : list string) :
  Forall (fun l => is_data_line l = false \/ parse_bed_line l = Ok None) lines ->
  read_bed_lines lines = Ok [].
Proof.
  induction 1 as [|l lines Hl _ IH]; cbn [read_bed_lines]; [reflexivity|].
  destruct (is_data_line l); [|exact IH].
  destruct Hl as [Hl | ->]; [discriminate|]. cbn [bind]. now rewrite IH.
Qed.

(** Every region [read_bed_file] returns comes from a data line after the
    header: it spans at least 100,000 bases, its type holds neither [_] nor
    [(], and its colour is grey or a tuple of exactly three channels. *)
Theorem bed_regions_invariants (file : list string) (regions : list RegionRecord) :
  read_bed_file file = Ok regions ->
  Forall (fun r =>
            (100000 <= rend r - rstart r)%Z /\
            separator_free (rtype r) = true /\
            (rcolor r = Named "grey" \/ exists a b c : float, rcolor r = Tuple [a; b; c]) /\
            exists line : string,
              In line (tl file) /\ is_data_line line = true /\
              parse_bed_line line = Ok (Some r) /\
              (9 <= length (tab_fields line))%nat /\
              nth_error (tab_fields line) 0 = Some (rchrom r))
         regions.
Proof.
  destruct file as [|header lines]; cbn [read_bed_file tl]; [discriminate|].
  intros H. eapply List.Forall_impl; [|exact (read_bed_lines_regions _ _ H)].
  intros r (line & Hin & Hd & Hp).
  destruct (parse_bed_line_region _ _ Hp) as (H9 & H0 & _ & _ & Hsz & Hty & Hcol).
  split; [exact Hsz|]. split; [exact Hty|]. split; [exact Hcol|].
  exists line. repeat split; assumption.
Qed.

Lemma bed_regions_invariants_witness :
  let big := tabbed ["chr1"; "1000"; "250000"; "sat_1(x)"; "0"; "."; "1000"; "250000";
                     "255,0,0"] in
  let small := tabbed ["chr2"; "1000"; "2000"; "gap"] in
  let r := mkRegion "chr1" 1000 250000 "sat" (Tuple [f_one; f_zero; f_zero]) in
  read_bed_file ["track"; small; "# note"; big] = Ok [r] /\
  (100000 <= rend r - rstart r)%Z /\ separator_free (rtype r) = true.
Proof.
  intros big small r.
  assert (H : read_bed_file ["track"; small; "# note"; big] = Ok [r]) by reflexivity.
  split; [exact H|].
  pose proof (bed_regions_invariants _ _ H) as Hall.
  apply List.Forall_cons_iff in Hall. destruct Hall as [(Hsz & Hty & _) _].
  now split.
Defined.



(** The BED file is optional, yet an empty one is fatal: [main] raises
    [StopIteration]. A BED file from which no region on a chromosome of the
    catalogue is read, for instance one that holds only a header, comments,
    blank lines and regions under 100,000 bases, gives the plot that no BED
    file gives. *)
Theorem bed_file_without_regions (files : list (list string))
    (colors : list (list (list string))) :
  main files colors (Some []) = Raise StopIteration /\
  (forall (header : string) (lines : list string),
     Forall (fun l => is_data_line l = false \/ parse_bed_line l = Ok None) lines ->
     main files colors (Some (header :: lines)) = main files colors None) /\
  (forall (file : list string) (regions : list RegionRecord),
     read_bed_file file = Ok regions ->
     Forall (fun r => in_catalog (rchrom r) = false) regions ->
     main files colors (Some file) = main files colors None).
Proof.
  split; [reflexivity|]. split.
  - intros header lines H. unfold main. cbn [read_bed_file].
    now rewrite (read_bed_lines_none _ H).
  - intros file regions Hr Hall. unfold main. rewrite Hr. cbn [bind].
    rewrite !plot_data_groups.
    replace (List.filter (fun r => in_catalog (rchrom r)) regions) with (@nil RegionRecord);
      [reflexivity|].
    clear Hr. induction Hall as [|r regions Hr _ IH]; cbn [List.filter]; [reflexivity|].
    now rewrite Hr.
Qed.

Lemma bed_file_without_regions_witness :
  let small := tabbed ["chr2"; "1000"; "2000"; "gap"] in
  let kept := tabbed ["q1"; "0"; "100"; "chr1"; "1000"; "2000"] in
  Forall (fun l => is_data_line l = false \/ parse_bed_line l = Ok None)
         [small; "# note"; ""] /\
  main [["query_name"; kept]] [[["q1"; "red"]]] (Some ["track"; small; "# note"; ""])
  = main [["query_name"; kept]] [[["q1"; "red"]]] None.
Proof.
  intros small kept.
  assert (H : Forall (fun l => is_data_line l = false \/ parse_bed_line l = Ok None)
                     [small; "# note"; ""]).
  { apply List.Forall_cons; [now right|]. apply List.Forall_cons; [now left|].
    apply List.Forall_cons; [now left | constructor]. }
  split; [exact H|].
  exact (proj1 (proj2 (bed_file_without_regions _ _)) "track" _ H).
Defined.

End RegionFacts.

(** ** [asm_plot.py]: the natural order of any names *)

Module NaturalOrderFacts.
Import Py AsmPlot Spec PlotNotions PyFacts NaturalSortFacts.

Lemma digit_free_cons (c : ascii) (t : string) :
  digit_free (String c t) = negb (is_digit c) && digit_free t.
Proof. reflexivity. Qed.

Lemma isdigit_cons (c : ascii) (t : string) :
  isdigit (String c t) = is_digit c && forallb is_digit (list_ascii_of_string t).
Proof. reflexivity. Qed.

Lemma isdigit_all (t : string) :
  isdigit t = true -> forallb is_digit (list_ascii_of_string t) = true.
Proof. destruct t; [discriminate | exact id]. Qed.

(** [re.split] with the digit pattern yields alternating texts. *)
Lemma re_split_digits_pieces (s : string) : pieces true (re_split_digits s) = true.
Proof.
  induction s as [|c r IH]; [reflexivity|]. cbn [re_split_digits].
  destruct (re_split_digits r) as [|t rest] eqn:E; [discriminate IH|].
  cbn [pieces] in IH. apply andb_true_iff in IH. destruct IH as [Ht Hrest].
  destruct (is_digit c) eqn:Hc.
  - assert (Hsingle : pieces true (EmptyString :: String c EmptyString :: t :: rest) = true).
    { cbn [pieces]. rewrite isdigit_cons, Hc, Ht, Hrest. reflexivity. }
    destruct r as [|d r']; [exact Hsingle|].
    destruct rest as [|run rest']; [exact Hsingle|].
    destruct (is_digit d); [|exact Hsingle].
    cbn [pieces] in Hrest |- *. apply andb_true_iff in Hrest. destruct Hrest as [Hrun Hrest].
    rewrite isdigit_cons, Hc, (isdigit_all _ Hrun), Hrest. reflexivity.
  - cbn [pieces]. rewrite digit_free_cons, Hc, Ht, Hrest. reflexivity.
Qed.

Lemma key_parts_shaped (texts : list string) :
  forall (flag : bool) (k : list key_part),
    pieces flag texts = true -> key_parts texts = Ok k -> shaped flag k = true.
Proof.
  induction texts as [|t texts IH]; intros flag k Hp Hk.
  - injection Hk as <-. exact Hp.
  - cbn [pieces] in Hp. cbn [key_parts] in Hk. destruct flag.
    + apply andb_true_iff in Hp. destruct Hp as [Ht Hrest].
      rewrite (isdigit_digit_free _ Ht) in Hk. cbn [bind] in Hk.
      destruct (key_parts texts) as [ps|] eqn:Hps; cbn [bind] in Hk; [|discriminate].
      injection Hk as <-. cbn [shaped]. exact (IH false ps Hrest eq_refl).
    + apply andb_true_iff in Hp. destruct Hp as [Ht Hrest].
      rewrite Ht in Hk. destruct (int t) as [n|]; cbn [bind] in Hk; [|discriminate].
      destruct (key_parts texts) as [ps|] eqn:Hps; cbn [bind] in Hk; [|discriminate].
      injection Hk as <-. cbn [shaped]. exact (IH true ps Hrest eq_refl).
Qed.

Lemma natural_sort_key_shaped (s : string) (k : list key_part) :
  natural_sort_key s = Ok k -> shaped true k = true.
Proof. apply key_parts_shaped, re_split_digits_pieces. Qed.

(** Two keys of the same shape compare without a [TypeError]. *)
Lemma key_lt_shaped (a : list key_part) :
  forall (flag : bool) (b : list key_part),
    shaped flag a = true -> shaped flag b = true -> exists c, key_lt a b = Ok c.
Proof.
  induction a as [|x a IH]; intros flag [|y b] Ha Hb; cbn [key_lt]; eauto.
  destruct x as [m|s], y as [n|t], flag; cbn [shaped] in Ha, Hb; try discriminate;
    cbn [part_eqb part_lt].
  - destruct (m =? n)%Z; [exact (IH true b Ha Hb) | eauto].
  - destruct (String.eqb s t); [exact (IH false b Ha Hb) | eauto].
Qed.

Lemma part_eqb_refl (x : key_part) : part_eqb x x = true.
Proof. destruct x; cbn; [apply Z.eqb_refl | apply String.eqb_refl]. Qed.

Lemma key_lt_irrefl (k : list key_part) : key_lt k k = Ok false.
Proof. induction k as [|x k IH]; cbn [key_lt]; [reflexivity|]. now rewrite part_eqb_refl. Qed.

Lemma natural_lt_total (a b : string) : exists c, natural_lt a b = Ok c.
Proof.
  unfold natural_lt.
  destruct (natural_sort_key_total a) as [ka Ha], (natural_sort_key_total b) as [kb Hb].
  rewrite Ha, Hb. cbn [bind].
  exact (key_lt_shaped ka true kb (natural_sort_key_shaped _ _ Ha)
           (natural_sort_key_shaped _ _ Hb)).
Qed.

Lemma decorate_shaped (l : list string) :
  exists kl, decorate natural_sort_key l = Ok kl /\
             Forall (fun kx => shaped true (fst kx) = true) kl /\ map snd kl = l.
Proof.
  induction l as [|x l (kl & Hkl & Hall & Hmap)]; cbn [decorate].
  - exists []. repeat split. constructor.
  - destruct (natural_sort_key_total x) as [k Hk]. rewrite Hk, Hkl. cbn [bind].
    exists ((k, x) :: kl). split; [reflexivity|]. split.
    + constructor; [exact (natural_sort_key_shaped _ _ Hk) | exact Hall].
    + cbn [map snd]. now rewrite Hmap.
Qed.

Lemma insert_sorted_shaped (x : list key_part * string) (l : list (list key_part * string)) :
  shaped true (fst x) = true -> Forall (fun kx => shaped true (fst kx) = true) l ->
  exists r, insert_sorted key_lt x l = Ok r /\
            Forall (fun kx => shaped true (fst kx) = true) r /\
            length r = S (length l).
Proof.
  intros Hx Hl. induction Hl as [|y l Hy Hl IH]; cbn [insert_sorted].
  - exists [x]. repeat split. now constructor.
  - destruct (key_lt_shaped _ true _ Hx Hy) as [b ->]. cbn [bind]. destruct b.
    + exists (x :: y :: l). repeat split. now repeat constructor.
    + destruct IH as (r & -> & Hr & Hlen). cbn [bind]. exists (y :: r).
      split; [reflexivity|]. split; [now constructor | cbn [length]; now rewrite Hlen].
Qed.

Lemma sort_into_shaped (l : list (list key_part * string)) :
  forall acc,
    Forall (fun kx => shaped true (fst kx) = true) acc ->
    Forall (fun kx => shaped true (fst kx) = true) l ->
    exists r, sort_into key_lt acc l = Ok r /\ length r = (length acc + length l)%nat.
Proof.
  induction l as [|x l IH]; intros acc Hacc Hl; cbn [sort_into].
  - exists acc. split; [reflexivity | cbn [length]; lia].
  - apply List.Forall_cons_iff in Hl. destruct Hl as [Hx Hl].
    destruct (insert_sorted_shaped x acc Hx Hacc) as (acc' & -> & Hacc' & Hlen).
    cbn [bind]. destruct (IH acc' Hacc' Hl) as (r & -> & Hr).
    exists r. split; [reflexivity|]. cbn [length]. lia.
Qed.

Lemma sorted_names_total (l : list string) (reverse : bool) :
  exists out, sorted key_lt l natural_sort_key reverse = Ok out /\ length out = length l.
Proof.
  unfold sorted. destruct (decorate_shaped l) as (kl & -> & Hall & Hmap). cbn [bind].
  assert (Hin : Forall (fun kx => shaped true (fst kx) = true)
                       (if reverse then rev kl else kl)).
  { destruct reverse; [|exact Hall]. apply List.Forall_forall. intros x Hx.
    apply in_rev in Hx. exact (proj1 (List.Forall_forall _ _) Hall x Hx). }
  destruct (sort_into_shaped _ [] (List.Forall_nil _) Hin) as (r & -> & Hlen).
  cbn [bind]. eexists. split; [reflexivity|].
  rewrite length_map. cbn [length] in Hlen.
  assert (Hl : length l = length kl) by (now rewrite <- Hmap, length_map).
  destruct reverse; rewrite ?length_rev in *; lia.
Qed.

(** The natural comparison is defined on all ASCII names whose digits the
    interpreter's limit admits: the key of such a name starts with a text
    and alternates between texts and numbers, so two keys never set a number
    against a text and no [TypeError] is raised. No name is below itself, a
    name compares as any name that differs from it in the case of its
    letters only, and sorting any list of such names by the key, in either
    direction, returns a list of the same length. *)
Theorem natural_order_never_raises :
  (forall s : string,
     is_ascii s = true -> within_int_limit s = true ->
     exists k : list key_part, natural_sort_key s = Ok k /\ shaped true k = true) /\
  (forall a b : string,
     is_ascii a = true -> within_int_limit a = true ->
     is_ascii b = true -> within_int_limit b = true ->
     exists c : bool, natural_lt a b = Ok c) /\
  (forall a : string,
     is_ascii a = true -> within_int_limit a = true -> natural_lt a a = Ok false) /\
  (forall a a' b : string,
     is_ascii a = true -> within_int_limit a = true ->
     is_ascii b = true -> within_int_limit b = true ->
     case_variant a a' = true ->
     natural_lt a' b = natural_lt a b /\ natural_lt b a' = natural_lt b a) /\
  (forall (l : list string) (reverse : bool),
     Forall (fun s => is_ascii s = true /\ within_int_limit s = true) l ->
     exists out : list string,
       sorted key_lt l natural_sort_key reverse = Ok out /\ length out = length l).
Proof.
  split; [|split; [|split; [|split]]].
  - intros s _ _. destruct (natural_sort_key_total s) as [k Hk].
    exists k. split; [exact Hk | exact (natural_sort_key_shaped _ _ Hk)].
  - intros a b _ _ _ _. apply natural_lt_total.
  - intros a _ _. unfold natural_lt. destruct (natural_sort_key_total a) as [k ->].
    cbn [bind]. apply key_lt_irrefl.
  - intros a a' b _ _ _ _ H. unfold natural_lt.
    now rewrite (natural_sort_key_case a a' H).
  - intros l reverse _. apply sorted_names_total.
Qed.

Lemma natural_order_never_raises_witness :
  (is_ascii "chr10_alt2" = true /\ within_int_limit "chr10_alt2" = true) /\
  exists k : list key_part,
    natural_sort_key "chr10_alt2" = Ok k /\ shaped true k = true.
Proof.
  split; [split; reflexivity|].
  exact (proj1 natural_order_never_raises "chr10_alt2" eq_refl eq_refl).
Defined.

End NaturalOrderFacts.

(** ** [asm_plot.py]: colours, lanes and tracks *)

Module PlotFacts.
Import Py AsmPlot Spec PlotNotions PyFacts ParserFacts NaturalSortFacts LayoutFacts.

Lemma channels_in_range_hold : forallb channel_in_range bytes = true.
Proof. vm_compute. reflexivity. Qed.

Lemma byte_in_bytes (n : Z) : (0 <= n <= 255)%Z -> In n bytes.
Proof.
  intros H. unfold bytes. apply in_map_iff. exists (Z.to_nat n).
  split; [lia|]. apply in_seq. lia.
Qed.

Lemma float_of_int_ok (n : Z) :
  raises (float_of_int n) = false ->
  float_of_int n = Ok (binary_normalize prec emax n 0 false).
Proof.
  unfold float_of_int. now destruct (binary_normalize prec emax n 0 false).
Qed.

Lemma channel_in_range_at (n : Z) :
  (0 <= n <= 255)%Z ->
  float_of_int n = Ok (binary_normalize prec emax n 0 false) /\
  fle f_zero (channel_of n) = true /\ fle (channel_of n) f_one = true /\
  ((n < 255)%Z -> flt (channel_of n) (channel_of (n + 1)) = true).
Proof.
  intros H.
  pose proof (proj1 (forallb_forall _ _) channels_in_range_hold n (byte_in_bytes n H)) as Hc.
  unfold channel_in_range in Hc.
  apply andb_true_iff in Hc. destruct Hc as [Hc Hnext].
  apply andb_true_iff in Hc. destruct Hc as [Hc Hconv].
  apply andb_true_iff in Hc. destruct Hc as [Hlo Hhi].
  apply negb_true_iff in Hconv.
  split; [now apply float_of_int_ok|]. split; [exact Hlo|]. split; [exact Hhi|].
  intros Hlt. now rewrite (proj2 (Z.ltb_lt _ _) Hlt) in Hnext.
Qed.

(** A colour component that [int] reads as an integer from 0 to 255 (a
    numeral within the interpreter's limit on digits) gives the channel
    [n / 255.0], which lies between 0.0 and 1.0 and grows with the integer;
    0 gives 0.0 and 255 gives 1.0. Integers outside the range are not
    rejected: 256 gives a channel above 1.0 and -1 one below 0.0. *)
Theorem color_channels_in_range :
  (forall (c : string) (n : Z),
     int_value c = Some n -> within_int_limit c = true -> (0 <= n <= 255)%Z ->
     channels [c] = Ok [channel_of n] /\
     fle f_zero (channel_of n) = true /\ fle (channel_of n) f_one = true /\
     ((n < 255)%Z -> flt (channel_of n) (channel_of (n + 1)) = true)) /\
  channel_of 0 = f_zero /\ channel_of 255 = f_one /\
  (forall c : string,
     int_value c = Some 256%Z -> within_int_limit c = true ->
     channels [c] = Ok [channel_of 256] /\ flt f_one (channel_of 256) = true) /\
  (forall c : string,
     int_value c = Some (-1)%Z -> within_int_limit c = true ->
     channels [c] = Ok [channel_of (-1)] /\ flt (channel_of (-1)) f_zero = true).
Proof.
  split; [|split; [reflexivity|]; split; [reflexivity|]; split].
  - intros c n Hc _ Hn. destruct (channel_in_range_at n Hn) as (Hf & Hlo & Hhi & Hnext).
    split; [|now repeat split].
    cbn [channels]. rewrite (int_of_value _ _ Hc). cbn [bind]. rewrite Hf. reflexivity.
  - intros c Hc _. split; [|reflexivity].
    cbn [channels]. rewrite (int_of_value _ _ Hc). reflexivity.
  - intros c Hc _. split; [|reflexivity].
    cbn [channels]. rewrite (int_of_value _ _ Hc). reflexivity.
Qed.

Lemma color_channels_in_range_witness :
  (int_value "128" = Some 128%Z /\ within_int_limit "128" = true /\
   (0 <= 128 <= 255)%Z) /\
  channels ["128"] = Ok [channel_of 128] /\
  fle f_zero (channel_of 128) = true /\ fle (channel_of 128) f_one = true.
Proof.
  split; [split; [reflexivity | split; [reflexivity | lia]]|].
  destruct (proj1 color_channels_in_range "128" 128%Z eq_refl eq_refl ltac:(lia))
    as (H1 & H2 & H3 & _).
  now repeat split.
Defined.

(** *** Colour lookup of the alignments *)

Lemma checked_alignment_skip (accepts : color -> bool) (slots : list (string * Z))
    (lookup : gmap string string) (off : float) (d : AlignmentRecord)
    (rest : list AlignmentRecord) :
  in_catalog (chrom d) = false ->
  Renderer.place_alignments accepts slots lookup off (d :: rest)
  = Renderer.place_alignments accepts slots lookup off rest.
Proof.
  intros Hc. cbn [Renderer.place_alignments]. fold (in_catalog (chrom d)). rewrite Hc.
  cbn [bind app]. apply bind_ret.
Qed.

Lemma checked_alignment_keep (accepts : color -> bool) (lookup : gmap string string)
    (off : float) (d : AlignmentRecord) (rest : list AlignmentRecord) (c : string) :
  in_catalog (chrom d) = true -> lookup !! query d = Some c ->
  accepts (Named c) = true ->
  Renderer.place_alignments accepts slot_table lookup off (d :: rest)
  = (do more <- Renderer.place_alignments accepts slot_table lookup off rest;
     Ok (alignment_rect c off d :: more)).
Proof.
  intros Hc Hq Ha. cbn [Renderer.place_alignments]. fold (in_catalog (chrom d)).
  rewrite Hc, Hq. cbn [bind].
  destruct (slot_lookup _ Hc) as [-> Hy]. cbn [bind]. rewrite Hy. cbn [bind].
  unfold Renderer.new_rectangle. rewrite Ha. reflexivity.
Qed.

Lemma checked_alignment_missing (accepts : color -> bool) (lookup : gmap string string)
    (off : float) (d : AlignmentRecord) (rest : list AlignmentRecord) :
  in_catalog (chrom d) = true -> lookup !! query d = None ->
  Renderer.place_alignments accepts slot_table lookup off (d :: rest) = Raise KeyError.
Proof.
  intros Hc Hq. cbn [Renderer.place_alignments]. fold (in_catalog (chrom d)).
  now rewrite Hc, Hq.
Qed.

Lemma checked_alignment_refused (accepts : color -> bool) (lookup : gmap string string)
    (off : float) (d : AlignmentRecord) (rest : list AlignmentRecord) (c : string) :
  in_catalog (chrom d) = true -> lookup !! query d = Some c ->
  accepts (Named c) = false ->
  Renderer.place_alignments accepts slot_table lookup off (d :: rest) = Raise ValueError.
Proof.
  intros Hc Hq Ha. cbn [Renderer.place_alignments]. fold (in_catalog (chrom d)).
  rewrite Hc, Hq. cbn [bind].
  destruct (slot_lookup _ Hc) as [-> Hy]. cbn [bind]. rewrite Hy. cbn [bind].
  unfold Renderer.new_rectangle. now rewrite Ha.
Qed.

Lemma checked_alignments_all (accepts : color -> bool) (lookup : gmap string string)
    (off : float) (data : list AlignmentRecord) :
  Forall (colored accepts lookup) data ->
  Renderer.place_alignments accepts slot_table lookup off data
  = Ok (map (fun d => alignment_rect (color_of lookup d) off d) (List.filter drawn data)).
Proof.
  induction 1 as [|d data Hd _ IH]; [reflexivity|]. cbn [List.filter].
  unfold colored, drawn in *. destruct (in_catalog (chrom d)) eqn:Hc.
  - destruct (Hd eq_refl) as (c & Hl & Ha).
    assert (Hcol : color_of lookup d = c) by (unfold color_of; now rewrite Hl).
    rewrite (checked_alignment_keep _ _ _ _ _ _ Hc Hl Ha), IH. cbn [bind map].
    now rewrite Hcol.
  - now rewrite (checked_alignment_skip _ _ _ _ _ _ Hc).
Qed.

Lemma checked_alignments_prefix (accepts : color -> bool) (lookup : gmap string string)
    (off : float) (before rest : list AlignmentRecord) (e : exn) :
  Forall (colored accepts lookup) before ->
  Renderer.place_alignments accepts slot_table lookup off rest = Raise e ->
  Renderer.place_alignments accepts slot_table lookup off (before ++ rest) = Raise e.
Proof.
  intros Hb He. induction Hb as [|d before Hd _ IH]; [exact He|]. cbn [app].
  unfold colored, drawn in Hd. destruct (in_catalog (chrom d)) eqn:Hc.
  - destruct (Hd eq_refl) as (c & Hl & Ha).
    now rewrite (checked_alignment_keep _ _ _ _ _ _ Hc Hl Ha), IH.
  - now rewrite (checked_alignment_skip _ _ _ _ _ _ Hc).
Qed.

(** The inner loop of [plot_data] over the records of one alignment file,
    for any colours the renderer takes. Records on a chromosome outside the
    catalogue are passed over and need no colour. When every other record
    has its query name in the colour lookup, with a colour the renderer
    takes, the loop gives one rectangle per such record, in order, in the
    colour looked up. The first record that breaks this ends the loop: with
    [KeyError] when its query name is not in the lookup, with [ValueError]
    when the renderer does not take its colour. *)
Theorem alignment_colors_are_required (accepts : color -> bool)
    (lookup : gmap string string) (off : float) (data : list AlignmentRecord) :
  (Forall (colored accepts lookup) data ->
   Renderer.place_alignments accepts slot_table lookup off data
   = Ok (map (fun d => alignment_rect (color_of lookup d) off d)
             (List.filter drawn data))) /\
  (forall (before after : list AlignmentRecord) (d : AlignmentRecord),
     data = before ++ d :: after ->
     Forall (colored accepts lookup) before -> drawn d = true ->
     (lookup !! query d = None ->
      Renderer.place_alignments accepts slot_table lookup off data = Raise KeyError) /\
     (forall c : string,
        lookup !! query d = Some c -> accepts (Named c) = false ->
        Renderer.place_alignments accepts slot_table lookup off data
        = Raise ValueError)).
Proof.
  split; [apply checked_alignments_all|].
  intros before after d -> Hb Hd. unfold drawn in Hd. split.
  - intros Hq. apply checked_alignments_prefix; [exact Hb|].
    now apply checked_alignment_missing.
  - intros c Hq Ha. apply checked_alignments_prefix; [exact Hb|].
    now apply (checked_alignment_refused _ _ _ _ _ c).
Qed.

Lemma alignment_colors_are_required_witness :
  let accepts := fun c : color => bool_decide (c = Named "red") in
  let lookup : gmap string string := {["q1" := "red"; "q2" := "rot"]} in
  let d1 := mkAln "chr1" 1000 2000 "q1" in
  let d2 := mkAln "chrUn" 5 10 "q7" in
  let d3 := mkAln "chr2" 0 500 "q2" in
  (Forall (colored accepts lookup) [d1; d2] /\ drawn d3 = true /\
   lookup !! query d3 = Some "rot" /\ accepts (Named "rot") = false) /\
  Renderer.place_alignments accepts slot_table lookup asm_spacing [d1; d2; d3]
  = Raise ValueError.
Proof.
  intros accepts lookup d1 d2 d3.
  assert (Hb : Forall (colored accepts lookup) [d1; d2]).
  { apply List.Forall_cons; [intros _; now exists "red"|].
    apply List.Forall_cons; [intros H; discriminate H | constructor]. }
  split; [repeat split; [exact Hb | reflexivity ..]|].
  exact (proj2 (proj2 (alignment_colors_are_required accepts lookup asm_spacing [d1; d2; d3])
                  [d1; d2] [] d3 eq_refl Hb eq_refl)
               "rot" eq_refl eq_refl).
Defined.

(** *** Colour files by position *)

Lemma collect_app (a b : list (result (list Rectangle))) :
  collect (a ++ b) = (do x <- collect a; do y <- collect b; Ok (x ++ y)).
Proof.
  induction a as [|m a IH]; cbn [app collect].
  - cbn [bind]. now rewrite bind_ret.
  - destruct m as [r|e]; cbn [bind]; [|reflexivity]. rewrite IH.
    destruct (collect a) as [x|]; cbn [bind]; [|reflexivity].
    destruct (collect b) as [y|]; cbn [bind]; [|reflexivity].
    now rewrite List.app_assoc.
Qed.

Lemma collect_all_ok (ms : list (result (list Rectangle))) :
  Forall (fun m => exists r, m = Ok r) ms -> exists r, collect ms = Ok r.
Proof.
  induction 1 as [|m ms [r ->] _ [rs IH]]; cbn [collect]; [eauto|].
  rewrite IH. cbn [bind]. eauto.
Qed.

Lemma source_rects_surplus (files : list (list string))
    (colors surplus : list (list (list string))) (i : nat) :
  (i < length colors)%nat ->
  source_rects files (colors ++ surplus) i = source_rects files colors i.
Proof.
  intros Hi. unfold source_rects, index. now rewrite (nth_error_app1 _ _ Hi).
Qed.

(** The colour file of a source is the one at the same position. Colour
    files beyond the number of alignment files are never read. When there
    are fewer colour files than alignment files, the plot fails with
    [IndexError] at the first alignment file without one, after that file
    has been read. *)
Theorem color_files_by_position (files : list (list string))
    (colors : list (list (list string))) (regions : list RegionRecord) :
  (forall surplus : list (list (list string)),
     (length files <= length colors)%nat ->
     plot_data files (colors ++ surplus) regions = plot_data files colors regions) /\
  (forall (file : list string) (data : list AlignmentRecord),
     (forall i : nat, (i < length colors)%nat ->
        exists rects, source_rects files colors i = Ok rects) ->
     nth_error files (length colors) = Some file ->
     read_tab_file file = Ok data ->
     plot_data files colors regions = Raise IndexError).
Proof.
  split.
  - intros surplus Hlen. rewrite !plot_data_groups.
    replace (map (source_rects files (colors ++ surplus)) (seq 0 (length files)))
      with (map (source_rects files colors) (seq 0 (length files))); [reflexivity|].
    apply map_ext_in. intros i Hi. apply in_seq in Hi.
    symmetry. apply source_rects_surplus. lia.
  - intros file data Hok Hfile Hdata. rewrite plot_data_groups.
    assert (Hlt : (length colors < length files)%nat).
    { apply nth_error_Some. congruence. }
    replace (length files)
      with (length colors + S (length files - S (length colors)))%nat by lia.
    rewrite seq_app, map_app, collect_app. cbn [seq map collect].
    destruct (collect_all_ok (map (source_rects files colors) (seq 0 (length colors))))
      as [rs ->].
    { apply List.Forall_forall. intros m Hm. apply in_map_iff in Hm.
      destruct Hm as (i & <- & Hi). apply in_seq in Hi. apply Hok. lia. }
    cbn [bind].
    assert (Hsrc : source_rects files colors (0 + length colors) = Raise IndexError).
    { unfold source_rects, index. cbn [Nat.add]. rewrite Hfile. cbn [bind].
      rewrite Hdata. cbn [bind].
      now rewrite (proj2 (nth_error_None colors (length colors)) (Nat.le_refl _)). }
    now rewrite Hsrc.
Qed.

Lemma color_files_by_position_witness :
  let line := tabbed ["q1"; "0"; "100"; "chr1"; "1000"; "2000"] in
  let file := ["query_name"; line] in
  let colors := [[["q1"; "red"]]] in
  ((forall i : nat, (i < length colors)%nat ->
      exists rects, source_rects [file; file] colors i = Ok rects) /\
   nth_error [file; file] (length colors) = Some file /\
   read_tab_file file = Ok [mkAln "chr1" 1000 2000 "q1"]) /\
  plot_data [file; file] colors [] = Raise IndexError.
Proof.
  intros line file colors.
  assert (Hok : forall i : nat, (i < length colors)%nat ->
                  exists rects, source_rects [file; file] colors i = Ok rects).
  { intros i Hi. assert (i = 0%nat) as -> by (cbn in Hi; lia). eexists. reflexivity. }
  split; [split; [exact Hok | split; reflexivity]|].
  exact (proj2 (color_files_by_position [file; file] colors [])
               file _ Hok eq_refl eq_refl).
Defined.

(** *** Regions and reference tracks *)

Lemma tracks_present_hold : forallb track_present REFERENCE_CHROMOSOMES = true.
Proof. vm_compute. reflexivity. Qed.

Lemma in_catalog_item (c : string) :
  in_catalog c = true ->
  exists len, getitem REFERENCE_CHROMOSOMES c = Ok len /\ In (c, len) REFERENCE_CHROMOSOMES.
Proof.
  unfold in_catalog, contains, getitem. intros H.
  apply existsb_exists in H. destruct H as ([k v] & Hin & Hk).
  destruct (find (fun kv => String.eqb (fst kv) c) REFERENCE_CHROMOSOMES) as [[k' v']|] eqn:Hf.
  - exists v'. split; [reflexivity|].
    pose proof (find_some _ _ Hf) as [Hin' Hk']. cbn [fst] in Hk'.
    apply String.eqb_eq in Hk'. now subst k'.
  - exfalso. pose proof (find_none _ _ Hf _ Hin) as Hn. cbn [fst] in Hk, Hn. congruence.
Qed.

Lemma checked_tracks (accepts : color -> bool) (items : list (string * Z)) :
  accepts (Named "black") = true ->
  Renderer.reference_tracks accepts items = reference_tracks items.
Proof.
  intros Ha. induction items as [|[c y] items IH]; [reflexivity|].
  cbn [Renderer.reference_tracks reference_tracks]. rewrite IH.
  destruct (contains REFERENCE_CHROMOSOMES c); [|reflexivity].
  destruct (getitem REFERENCE_CHROMOSOMES c); cbn [bind]; [|reflexivity].
  destruct (float_of_int y); cbn [bind]; [|reflexivity].
  destruct (float_of_int 2); cbn [bind]; [|reflexivity].
  unfold Renderer.new_rectangle. now rewrite Ha.
Qed.

Lemma checked_region (accepts : color -> bool) (r : RegionRecord) :
  in_catalog (rchrom r) = true ->
  Renderer.place_regions accepts slot_table [r]
  = if accepts (rcolor r) then Ok [region_rect r] else Raise ValueError.
Proof.
  intros Hc. cbn [Renderer.place_regions]. fold (in_catalog (rchrom r)). rewrite Hc.
  destruct (slot_lookup _ Hc) as [-> Hy]. cbn [bind]. rewrite Hy, float_two. cbn [bind].
  unfold Renderer.new_rectangle. now destruct (accepts (rcolor r)).
Qed.

(** A region on a chromosome of the catalogue lies over the reference
    track of that chromosome, for any colours the renderer takes, black
    among them: the first loop draws a black track of the catalogue length
    from 0, and the rectangle of the region, when the renderer takes its
    colour, has the lower edge and the height of that track, the region's
    own start and width whatever the length of the track, and the region's
    colour without transparency. A region whose colour the renderer does not
    take raises [ValueError]. *)
Theorem regions_lie_on_tracks (accepts : color -> bool) (r : RegionRecord) :
  accepts (Named "black") = true ->
  in_catalog (rchrom r) = true ->
  exists (len : Z) (track : Rectangle),
    getitem REFERENCE_CHROMOSOMES (rchrom r) = Ok len /\
    Renderer.reference_tracks accepts slot_table = Ok reference_rects /\
    In track reference_rects /\
    rect_x track = 0%Z /\ rect_width track = len /\
    (accepts (rcolor r) = false ->
     Renderer.place_regions accepts slot_table [r] = Raise ValueError) /\
    (accepts (rcolor r) = true ->
     exists rect : Rectangle,
       Renderer.place_regions accepts slot_table [r] = Ok [rect] /\
       rect_y rect = rect_y track /\ rect_height rect = rect_height track /\
       rect_x rect = rstart r /\ rect_width rect = (rend r - rstart r)%Z /\
       rect_color rect = rcolor r /\ rect_alpha rect = None).
Proof.
  intros Hblack Hc. destruct (in_catalog_item _ Hc) as (len & Hlen & Hin).
  pose proof (proj1 (forallb_forall _ _) tracks_present_hold _ Hin) as Ht.
  unfold track_present in Ht. apply existsb_exists in Ht.
  destruct Ht as (track & Htrack & Heq). apply bool_decide_eq_true in Heq.
  cbn [fst snd] in Heq.
  exists len, track. split; [exact Hlen|].
  split; [rewrite (checked_tracks _ _ Hblack); exact (proj1 reference_tracks_catalog)|].
  split; [exact Htrack|]. subst track. split; [reflexivity|]. split; [reflexivity|].
  rewrite (checked_region accepts r Hc). split.
  - now intros ->.
  - intros ->. exists (region_rect r). repeat split.
Qed.

Lemma regions_lie_on_tracks_witness :
  let accepts := fun c : color =>
                   bool_decide (c = Named "black") || bool_decide (c = Named "grey") in
  let r := mkRegion "chr7" 1000 250000 "sat" (Named "grey") in
  (accepts (Named "black") = true /\ in_catalog (rchrom r) = true /\
   accepts (rcolor r) = true) /\
  exists rect : Rectangle,
    Renderer.place_regions accepts slot_table [r] = Ok [rect] /\
    rect_x rect = 1000%Z /\ rect_width rect = 249000%Z.
Proof.
  intros accepts r. split; [repeat split; reflexivity|].
  destruct (regions_lie_on_tracks accepts r eq_refl eq_refl)
    as (len & track & _ & _ & _ & _ & _ & _ & Hok).
  destruct (Hok eq_refl) as (rect & Hrect & _ & _ & Hx & Hw & _).
  exists rect. split; [exact Hrect|]. split; [exact Hx | exact Hw].
Defined.

(** *** Lanes between the tracks *)

Lemma lanes_clear_hold : forallb lane_clear (seq 0 5) = true.
Proof. vm_compute. reflexivity. Qed.

Lemma lanes_below_next_hold : forallb lane_below_next (seq 0 9) = true.
Proof. vm_compute. reflexivity. Qed.

Lemma lanes_cross_hold : forallb lane_crosses (seq 6 4) = true.
Proof. vm_compute. reflexivity. Qed.

Lemma slot_in_slots (c : string) : in_catalog c = true -> In (slot_of c) slots.
Proof.
  intros Hc. destruct (slot_lookup c Hc) as [Hs _]. apply getitem_In in Hs.
  unfold slots. apply in_map_iff. now exists (c, slot_of c).
Qed.

(** Where the lanes of the alignments lie. On every chromosome of the
    catalogue, the lanes of the first five alignment files lie between the
    reference track of the chromosome and the track of the slot above; each
    of the first nine lanes ends at or below the start of the next one; and
    from the seventh alignment file to the tenth the lane reaches above the
    lower edge of the track of the slot above. *)
Theorem lanes_between_tracks (c : string) (i : nat) :
  in_catalog c = true ->
  (forall (col : string) (d : AlignmentRecord),
     chrom d = c ->
     rect_y (alignment_rect col (offset_at i) d) = lane_bottom (slot_of c) i /\
     fadd (rect_y (alignment_rect col (offset_at i) d))
          (rect_height (alignment_rect col (offset_at i) d))
     = lane_top (slot_of c) i) /\
  (forall len : Z,
     rect_y (track_rect c len) = track_bottom (slot_of c) /\
     fadd (rect_y (track_rect c len)) (rect_height (track_rect c len))
     = track_top (slot_of c)) /\
  ((i < 5)%nat ->
     fle (track_top (slot_of c)) (lane_bottom (slot_of c) i) = true /\
     fle (lane_top (slot_of c) i) (track_bottom (slot_of c + 1)) = true) /\
  ((i < 9)%nat ->
     fle (lane_top (slot_of c) i) (lane_bottom (slot_of c) (S i)) = true) /\
  ((6 <= i < 10)%nat ->
     flt (track_bottom (slot_of c + 1)) (lane_top (slot_of c) i) = true).
Proof.
  intros Hc. pose proof (slot_in_slots c Hc) as Hk.
  split; [intros col d <-; split; reflexivity|].
  split; [intros len; split; reflexivity|].
  split; [|split].
  - intros Hi.
    pose proof (proj1 (forallb_forall _ _) lanes_clear_hold i) as H.
    specialize (H ltac:(apply in_seq; lia)). unfold lane_clear in H.
    pose proof (proj1 (forallb_forall _ _) H _ Hk) as H'.
    now apply andb_true_iff in H'.
  - intros Hi.
    pose proof (proj1 (forallb_forall _ _) lanes_below_next_hold i) as H.
    specialize (H ltac:(apply in_seq; lia)). unfold lane_below_next in H.
    exact (proj1 (forallb_forall _ _) H _ Hk).
  - intros Hi.
    pose proof (proj1 (forallb_forall _ _) lanes_cross_hold i) as H.
    specialize (H ltac:(apply in_seq; lia)). unfold lane_crosses in H.
    exact (proj1 (forallb_forall _ _) H _ Hk).
Qed.

Lemma lanes_between_tracks_witness :
  (in_catalog "chr7" = true /\ (6 <= 7 < 10)%nat) /\
  flt (track_bottom (slot_of "chr7" + 1)) (lane_top (slot_of "chr7") 7) = true.
Proof.
  split; [split; [reflexivity | lia]|].
  exact (proj2 (proj2 (proj2 (proj2 (lanes_between_tracks "chr7" 7 eq_refl))))
               ltac:(lia)).
Defined.

End PlotFacts.

(** ** [asm_plot.py]: the colour lookup with any columns *)

Module LookupFacts.
Import Py AsmPlot Spec PyFacts ParserFacts.

(** [read_tsv_to_dict] with any key and value column. A row with fewer
    fields than the number of the value column is skipped; a row with
    exactly that many fields passes the guard and raises [IndexError], since
    its last field has the number before; a row that has both columns sets
    its key to its value. *)
Theorem lookup_guard_any_columns (key_column value_column : nat)
    (before after : list (list string)) (row : list string) :
  ((length row < value_column)%nat ->
     read_tsv_to_dict_cols (before ++ row :: after) key_column value_column
     = read_tsv_to_dict_cols (before ++ after) key_column value_column) /\
  (forall m : gmap string string,
     read_tsv_to_dict_cols before key_column value_column = Ok m ->
     length row = value_column ->
     read_tsv_to_dict_cols (before ++ row :: after) key_column value_column
     = Raise IndexError) /\
  (forall (m : gmap string string) (k v : string),
     read_tsv_to_dict_cols before key_column value_column = Ok m ->
     nth_error row key_column = Some k -> nth_error row value_column = Some v ->
     read_tsv_to_dict_cols (before ++ [row]) key_column value_column
     = Ok (<[k := v]> m)).
Proof.
  unfold read_tsv_to_dict_cols. split; [|split].
  - intros Hlt. rewrite !tsv_rows_app. cbn [tsv_rows].
    now rewrite (proj2 (Nat.leb_gt value_column (length row)) Hlt).
  - intros m Hm Hlen. rewrite tsv_rows_app, Hm. cbn [bind tsv_rows].
    rewrite (proj2 (Nat.leb_le value_column (length row))) by lia.
    rewrite (index_short row value_column) by lia.
    unfold index. destruct (nth_error row key_column); reflexivity.
  - intros m k v Hm Hk Hv. rewrite tsv_rows_app, Hm. cbn [bind tsv_rows].
    assert (Hlt : (value_column < length row)%nat) by (apply nth_error_Some; congruence).
    rewrite (proj2 (Nat.leb_le value_column (length row))) by lia.
    now rewrite (index_nth _ _ _ Hk), (index_nth _ _ _ Hv).
Qed.

Lemma lookup_guard_any_columns_witness :
  let before := [["x"; "q1"; "red"]] in
  let m : gmap string string := {["q1" := "red"]} in
  (read_tsv_to_dict_cols before 1 2 = Ok m /\ length ["y"; "q2"] = 2%nat) /\
  read_tsv_to_dict_cols (before ++ ["y"; "q2"] :: [["z"; "q3"; "blue"]]) 1 2
  = Raise IndexError.
Proof.
  intros before m. split; [split; reflexivity|].
  exact (proj1 (proj2 (lookup_guard_any_columns 1 2 before [["z"; "q3"; "blue"]] ["y"; "q2"]))
               m eq_refl eq_refl).
Defined.

End LookupFacts.
